(** * Zodirectus: a shallow embedding of the generator core

    The development follows the TypeScript sources of the repository:
    [StringUtils] (naming engine), [FieldUtils] (UI-only detection),
    [CollectionUtils] (collection filtering), [DependencyUtils] (dependency
    graph and cycle detection), [ImportUtils] (import planning) and the two
    emitters [ZodGenerator] and [TypeGenerator].

    Strings.  A JavaScript string is modelled by a Rocq [string]; every
    character stands for one code unit.  Case conversion, the character
    classes [[A-Z]], [[a-z]] and [\s] are the ASCII ones, so the model
    coincides with the code on ASCII text (collection and field names,
    generated TypeScript).

    Failure.  Where the TypeScript can throw (a [TypeError], a
    [ReferenceError]) or hand back a value that is not a string, the
    embedded function returns [option].

    Parameters.  The two emitters read the relationship records fetched from
    the backend and convert raw choice values with [parseInt] and
    [parseFloat]; the resolver [getRelatedCollectionName] and the Choice
    stage of each emitter are parameters of the embedding.  Log lines are
    not modelled. *)

From Stdlib Require Import Bool Arith List Ascii String Lia.
Import ListNotations.

Open Scope list_scope.
Open Scope string_scope.

(* ================================================================= *)
(** ** JavaScript string primitives *)

Module Js.

Definition isUpper (c : ascii) : bool :=
  let n := nat_of_ascii c in (65 <=? n)%nat && (n <=? 90)%nat.

Definition isLower (c : ascii) : bool :=
  let n := nat_of_ascii c in (97 <=? n)%nat && (n <=? 122)%nat.

Definition isLetter (c : ascii) : bool := isUpper c || isLower c.

(** [\s] restricted to ASCII: tab, line feed, vertical tab, form feed,
    carriage return and space. *)
Definition isSpace (c : ascii) : bool :=
  let n := nat_of_ascii c in
  ((9 <=? n)%nat && (n <=? 13)%nat) || (n =? 32)%nat.

Definition upperChar (c : ascii) : ascii :=
  if isLower c then ascii_of_nat (nat_of_ascii c - 32) else c.

Definition lowerChar (c : ascii) : ascii :=
  if isUpper c then ascii_of_nat (nat_of_ascii c + 32) else c.

Fixpoint mapStr (f : ascii -> ascii) (s : string) : string :=
  match s with
  | EmptyString => EmptyString
  | String c r => String (f c) (mapStr f r)
  end.

Fixpoint allStr (p : ascii -> bool) (s : string) : bool :=
  match s with
  | EmptyString => true
  | String c r => p c && allStr p r
  end.

(** [s.toUpperCase()] and [s.toLowerCase()], as they act on ASCII text:
    outside ASCII the case mapping of JavaScript is the one of Unicode,
    which these two do not follow. *)
Definition toUpperCase : string -> string := mapStr upperChar.
Definition toLowerCase : string -> string := mapStr lowerChar.

(** A code unit of ASCII text. *)
Definition isAscii (c : ascii) : bool := (nat_of_ascii c <? 128)%nat.

Definition startsWith (p s : string) : bool := String.prefix p s.

Fixpoint drop (n : nat) (s : string) : string :=
  match n, s with
  | O, _ => s
  | S _, EmptyString => EmptyString
  | S k, String _ r => drop k r
  end.

(** [s.slice(0, -n)] *)
Definition dropRight (n : nat) (s : string) : string :=
  substring 0 (String.length s - n) s.

(** [s.slice(-n)] *)
Definition takeRight (n : nat) (s : string) : string :=
  drop (String.length s - n) s.

Definition endsWith (suf s : string) : bool :=
  (String.length suf <=? String.length s)%nat
  && String.eqb (takeRight (String.length suf) s) suf.

(** [s.includes(sub)] *)
Fixpoint includes (sub s : string) : bool :=
  if String.prefix sub s then true
  else match s with
       | EmptyString => false
       | String _ r => includes sub r
       end.

(** [s.replace(pat, rep)] for a string pattern and a replacement without
    [$]: only the first occurrence is replaced. *)
Fixpoint replaceFirst (pat rep s : string) : string :=
  if String.prefix pat s then rep ++ drop (String.length pat) s
  else match s with
       | EmptyString => EmptyString
       | String c r => String c (replaceFirst pat rep r)
       end.

(** [xs.join(sep)] *)
Definition join (sep : string) (xs : list string) : string :=
  String.concat sep xs.

(** [xs.includes(x)] on an array of strings *)
Definition inList (x : string) (xs : list string) : bool :=
  existsb (String.eqb x) xs.

(** [s.split(/[...]+/)] for a character class [sep]: the pieces between
    maximal runs of separators; a leading or trailing run leaves an empty
    first or last piece. *)
Fixpoint splitRuns (sep : ascii -> bool) (inRun : bool) (cur : string)
         (s : string) : list string :=
  match s with
  | EmptyString => [cur]
  | String c r =>
      if sep c then
        if inRun then splitRuns sep true cur r
        else cur :: splitRuns sep true EmptyString r
      else splitRuns sep false (cur ++ String c EmptyString) r
  end.

Definition splitOn (sep : ascii -> bool) (s : string) : list string :=
  splitRuns sep false EmptyString s.

(** [s.split(/(?=[A-Z])/)]: cut in front of every upper-case letter that
    is not the first character. *)
Fixpoint splitUpperAux (cur : string) (s : string) : list string :=
  match s with
  | EmptyString => [cur]
  | String c r =>
      if isUpper c then cur :: splitUpperAux (String c EmptyString) r
      else splitUpperAux (cur ++ String c EmptyString) r
  end.

Definition splitBeforeUpper (s : string) : list string :=
  match s with
  | EmptyString => []
  | String c r => splitUpperAux (String c EmptyString) r
  end.

(** Truthiness of a string: the empty string is falsy. *)
Definition truthy (s : string) : bool := negb (String.eqb s "").

(** [a || b] on strings *)
Definition orElse (a b : string) : string := if truthy a then a else b.

End Js.

(* ================================================================= *)
(** ** StringUtils: the naming engine *)

Module StringUtils.
Import Js.

Definition isWordSep (c : ascii) : bool :=
  Ascii.eqb c "-" || Ascii.eqb c "_" || isSpace c.

Definition capitalizeWord (w : string) : string :=
  match w with
  | EmptyString => EmptyString
  | String c r => String (upperChar c) (toLowerCase r)
  end.

Definition toPascalCase (str : string) : string :=
  join "" (map capitalizeWord (splitOn isWordSep str)).

(** [.replace(/([a-z])([A-Z])/g, '$1-$2')] *)
Fixpoint hyphenLowerUpper (s : string) : string :=
  match s with
  | EmptyString => EmptyString
  | String a t =>
      match t with
      | String b r =>
          if isLower a && isUpper b
          then String a (String "-" (String b (hyphenLowerUpper r)))
          else String a (hyphenLowerUpper t)
      | EmptyString => String a EmptyString
      end
  end.

(** [.replace(/([A-Z])([A-Z][a-z])/g, '$1-$2')] *)
Fixpoint hyphenUpperUpperLower (s : string) : string :=
  match s with
  | EmptyString => EmptyString
  | String a t =>
      match t with
      | String b (String c r) =>
          if isUpper a && isUpper b && isLower c
          then String a (String "-" (String b (String c
                 (hyphenUpperUpperLower r))))
          else String a (hyphenUpperUpperLower t)
      | _ => String a (hyphenUpperUpperLower t)
      end
  end.

(** [.replace(/[\s_]+/g, '-')] *)
Fixpoint hyphenRuns (inRun : bool) (s : string) : string :=
  match s with
  | EmptyString => EmptyString
  | String c r =>
      if isSpace c || Ascii.eqb c "_" then
        if inRun then hyphenRuns true r else String "-" (hyphenRuns true r)
      else String c (hyphenRuns false r)
  end.

Definition toKebabCase (str : string) : string :=
  toLowerCase
    (hyphenRuns false (hyphenUpperUpperLower (hyphenLowerUpper str))).

Definition irregularPlurals : list (string * string) :=
  [ ("children", "child"); ("people", "person"); ("men", "man");
    ("women", "woman"); ("feet", "foot"); ("teeth", "tooth");
    ("mice", "mouse"); ("geese", "goose"); ("oxen", "ox");
    ("data", "datum"); ("media", "medium"); ("criteria", "criterion");
    ("phenomena", "phenomenon"); ("indices", "index");
    ("vertices", "vertex"); ("matrices", "matrix");
    ("analyses", "analysis"); ("bases", "base");
    ("diagnoses", "diagnosis"); ("theses", "thesis");
    ("crises", "crisis"); ("oases", "oasis") ].

Fixpoint assoc (k : string) (kv : list (string * string)) : option string :=
  match kv with
  | [] => None
  | (k', v) :: r => if String.eqb k k' then Some v else assoc k r
  end.

(** [irregularPlurals] is an object literal, so the lookup
    [irregularPlurals[lowerWord]] also sees what the literal inherits.
    Among the inherited property names only these two are entirely
    lower-case, hence reachable through [word.toLowerCase()]. *)
Definition inheritedKeys : list string := ["constructor"; "__proto__"].

(** [capitalizeFirst(singular, original)] for a non-empty [original].
    The closing [.replace(/([a-z])([A-Z])/g, '$1$2')] of the "directus"
    branch puts back what it matched and is left out. *)
Definition capitalizeFirst (singular original : string) : string :=
  if String.eqb original (toUpperCase original) then toUpperCase singular
  else
    match original with
    | String o _ =>
        if Ascii.eqb o (upperChar o) then
          let singularLower := toLowerCase singular in
          if includes "directus" singularLower
          then replaceFirst "directus" "Directus" singularLower
          else
            match singular with
            | EmptyString => EmptyString
            | String c r => String (upperChar c) r
            end
        else singular
    | EmptyString => singular
    end.

(** The tail a match of [/Directus([A-Z][a-z]*s?)$/] starts with: the
    captured group when [s] is "Directus", one capital, then lower-case
    letters up to the end. *)
Definition directusTail (s : string) : option string :=
  if String.prefix "Directus" s then
    match drop 8 s with
    | String u lows =>
        if isUpper u && allStr isLower lows then Some (String u lows)
        else None
    | EmptyString => None
    end
  else None.

(** Same for [/Directus([A-Z][a-z]*ies)$/]. *)
Definition directusTailIes (s : string) : option string :=
  match directusTail s with
  | Some (String u lows) =>
      if endsWith "ies" lows then Some (String u lows) else None
  | _ => None
  end.

(** Leftmost position where the anchored-at-the-end pattern applies:
    the text in front of the match and the captured group. *)
Fixpoint matchTail (tail : string -> option string) (s : string)
  : option (string * string) :=
  match tail s with
  | Some g => Some (EmptyString, g)
  | None =>
      match s with
      | EmptyString => None
      | String c r =>
          match matchTail tail r with
          | Some (before, g) => Some (String c before, g)
          | None => None
          end
      end
  end.

Fixpoint replaceLast (f : string -> string) (parts : list string)
  : list string :=
  match parts with
  | [] => []
  | [p] => [f p]
  | p :: r => p :: replaceLast f r
  end.

(** [/^[A-Z][a-z]*[A-Z]/] *)
Fixpoint lowersThenUpper (s : string) : bool :=
  match s with
  | EmptyString => false
  | String c r =>
      if isUpper c then true
      else if isLower c then lowersThenUpper r else false
  end.

Definition isCompound (s : string) : bool :=
  match s with
  | String c r => isUpper c && lowersThenUpper r
  | EmptyString => false
  end.

Definition fWords : list string :=
  ["leaf"; "wolf"; "shelf"; "calf"; "half"; "self"; "knife"; "life";
   "wife"].

Definition fStems : list string :=
  ["leaf"; "wolf"; "shelf"; "calf"; "half"; "self"].

Definition singularEndsWithS : list string :=
  ["glas"; "clas"; "mas"; "pas"; "gras"; "ga"; "bu"; "acces"].

(** The plain suffix rules, the last stage of [toSingular]. *)
Definition regularRules (word lowerWord : string) : string :=
  if endsWith "ies" lowerWord && (4 <? String.length lowerWord)%nat then
    capitalizeFirst (dropRight 3 lowerWord ++ "y") word
  else
    let vesResult :=
      if endsWith "ves" lowerWord && (4 <? String.length lowerWord)%nat then
        let withoutVes := dropRight 3 lowerWord in
        if inList (withoutVes ++ "f") fWords
        then Some (capitalizeFirst (withoutVes ++ "f") word)
        else if inList withoutVes fStems
             then Some (capitalizeFirst withoutVes word)
             else None
      else None in
    match vesResult with
    | Some r => r
    | None =>
        let esResult :=
          if endsWith "es" lowerWord && negb (endsWith "ies" lowerWord)
             && negb (endsWith "ves" lowerWord)
             && (3 <? String.length lowerWord)%nat then
            let withoutEs := dropRight 2 lowerWord in
            let lastChar := takeRight 1 withoutEs in
            if inList lastChar ["s"; "sh"; "ch"; "x"; "z"]
               || endsWith "ss" withoutEs || endsWith "ch" withoutEs
               || endsWith "sh" withoutEs
            then Some (capitalizeFirst withoutEs word)
            else None
          else None in
        match esResult with
        | Some r => r
        | None =>
            if endsWith "s" lowerWord && (2 <? String.length lowerWord)%nat then
              let withoutS := dropRight 1 lowerWord in
              if existsb (fun ending => endsWith ending withoutS)
                   singularEndsWithS
              then word
              else capitalizeFirst withoutS word
            else word
        end
    end.

(** The compound-word stage: [Some] when it returns, [None] when control
    falls through to the plain suffix rules. *)
Definition compoundRule (word : string) : option string :=
  if isCompound word then
    let parts := splitBeforeUpper word in
    if (2 <=? List.length parts)%nat then
      let lastPart := last parts EmptyString in
      if endsWith "s" word && negb (endsWith "ies" word)
         && endsWith "s" lastPart && (1 <? String.length lastPart)%nat
      then Some (join "" (replaceLast (dropRight 1) parts))
      else if endsWith "ies" word && endsWith "ies" lastPart
              && (3 <? String.length lastPart)%nat
      then Some (join "" (replaceLast
                            (fun p => dropRight 3 p ++ "y") parts))
      else None
    else None
  else None.

(** The reserved-prefix stage. *)
Definition directusRule (word : string) : option string :=
  if startsWith "Directus" word && (8 <? String.length word)%nat then
    let sRule :=
      if endsWith "s" word && negb (endsWith "ies" word) then
        match matchTail directusTail word with
        | Some (before, g) => Some (before ++ "Directus" ++ dropRight 1 g)
        | None => None
        end
      else None in
    match sRule with
    | Some r => Some r
    | None =>
        if endsWith "ies" word then
          match matchTail directusTailIes word with
          | Some (before, g) =>
              Some (before ++ "Directus" ++ dropRight 3 g ++ "y")
          | None => None
          end
        else None
    end
  else None.

(** [StringUtils.toSingular].  [None]: the lookup hit an inherited
    property, and the code does not return a string. *)
Definition toSingular (word : string) : option string :=
  if (String.length word <=? 1)%nat then Some word
  else
    let lowerWord := toLowerCase word in
    if inList lowerWord inheritedKeys then None
    else
      match assoc lowerWord irregularPlurals with
      | Some irregular => Some (capitalizeFirst irregular word)
      | None =>
          match directusRule word with
          | Some r => Some r
          | None =>
              match compoundRule word with
              | Some r => Some r
              | None => Some (regularRules word lowerWord)
              end
          end
      end.

(** [StringUtils.toSingular(StringUtils.toPascalCase(name))], the derived
    singular name of a collection. *)
Definition singularName (collectionName : string) : option string :=
  toSingular (toPascalCase collectionName).

End StringUtils.


(* ================================================================= *)
(** ** The data model ([types/index.ts])

    Only the attributes the generator core reads are kept.  The options
    payload of a field ([Record<string, any>] in the source) is given the
    shape Directus delivers for the interfaces the emitters handle: lists of
    choices, suggestions, presets, repeater sub-fields and the relation
    hints.  A missing list is the empty list; the code treats both alike
    ([options.choices || []], [x && Array.isArray(x) && x.length > 0]). *)

Definition nl : string := String (ascii_of_nat 10) EmptyString.
Definition dq : string := String (ascii_of_nat 34) EmptyString.

(** A JSON scalar found as the value of a choice.  A number is kept as its
    JavaScript rendering ([String(n)]): the emitters only print values and
    compare them for identity. *)
Inductive scalar : Type :=
| SAbsent                 (* the property is missing: [undefined] *)
| SNull
| SBool (b : bool)
| SNum (rendering : string)
| SStr (s : string).

Module Scalar.

Definition eqb (a b : scalar) : bool :=
  match a, b with
  | SAbsent, SAbsent | SNull, SNull => true
  | SBool x, SBool y => Bool.eqb x y
  | SNum x, SNum y => String.eqb x y
  | SStr x, SStr y => String.eqb x y
  | _, _ => false
  end.

(** [`${v}`] *)
Definition toString (v : scalar) : string :=
  match v with
  | SAbsent => "undefined"
  | SNull => "null"
  | SBool true => "true"
  | SBool false => "false"
  | SNum r => r
  | SStr s => s
  end.

Definition truthy (v : scalar) : bool :=
  match v with
  | SAbsent | SNull => false
  | SBool b => b
  | SNum r => negb (String.eqb r "0" || String.eqb r "NaN")
  | SStr s => Js.truthy s
  end.

(** [[...new Set(values)]]: first occurrences, in order. *)
Fixpoint uniqueAcc (seen : list scalar) (vs : list scalar) : list scalar :=
  match vs with
  | [] => []
  | v :: r =>
      if existsb (eqb v) seen then uniqueAcc seen r
      else v :: uniqueAcc (v :: seen) r
  end.

Definition unique (vs : list scalar) : list scalar := uniqueAcc [] vs.

End Scalar.

(** An entry of [options.choices]: a bare string or an object with [value],
    [text] and, in a checkbox tree, [children]. *)
#[local] Unset Elimination Schemes.
Inductive Choice : Type :=
| ChoiceStr (s : string)
| ChoiceObj (value : scalar) (text : scalar) (children : list Choice).
#[local] Set Elimination Schemes.

Module SubField.
(** A sub-field of a repeater ([options.fields]). *)
Record t : Type := { field : string; type : string }.
End SubField.

Module Options.
Record t : Type := {
  choices : list Choice;
  options : list Choice;
  suggestions : list string;
  presets : list string;
  fields : list SubField.t;
  junction_table : option string;
  related_collection : option string;
  junction_collection : option string;
  collection : option string;
  many_collection : option string;
  one_collection : option string
}.

(** [{}] *)
Definition empty : t :=
  {| choices := []; options := []; suggestions := []; presets := [];
     fields := []; junction_table := None; related_collection := None;
     junction_collection := None; collection := None;
     many_collection := None; one_collection := None |}.
End Options.

Module FieldSchema.
Record t : Type := {
  data_type : string;
  is_nullable : bool;
  foreign_key_table : option string
}.
End FieldSchema.

Module FieldMeta.
Record t : Type := {
  collection : string;
  special : option (list string);
  interface : option string;
  options : option Options.t;
  required : bool
}.
End FieldMeta.

Record DirectusField : Type := {
  field : string;
  type : string;
  schema : option FieldSchema.t;
  meta : option FieldMeta.t
}.

Record DirectusCollectionWithFields : Type := {
  collection : string;
  fields : list DirectusField
}.

Module GeneratedSchema.
Record t : Type := {
  collectionName : string;
  schema : option string;
  type : option string
}.
End GeneratedSchema.

(** The part of [ZodirectusConfig] read by the generator core.  The object
    [customFieldMappings] is kept as the list of its own entries. *)
Record ZodirectusConfig : Type := {
  collections : option (list string);
  includeSystemCollections : option bool;
  customFieldMappings : option (list (string * string))
}.

(** What a property read finds on an object literal that has no entry of
    its own under [name]: the members of [Object.prototype].  They are
    functions, and the prototype itself under "__proto__"; each is given
    by the text Node.js puts into a template literal for it. *)
Definition objectPrototypeMember (name : string) : option string :=
  if String.eqb name "constructor"
  then Some "function Object() { [native code] }"
  else if Js.inList name
            ["__defineGetter__"; "__defineSetter__"; "hasOwnProperty";
             "__lookupGetter__"; "__lookupSetter__"; "isPrototypeOf";
             "propertyIsEnumerable"; "toString"; "valueOf";
             "toLocaleString"]
  then Some ("function " ++ name ++ "() { [native code] }")
  else if String.eqb name "__proto__" then Some "[object Object]"
  else None.

(** [config.customFieldMappings?.[directusType]], when it is truthy: an
    entry of the object, or else a member it inherits (always truthy). *)
Definition customMapping (config : ZodirectusConfig) (directusType : string)
  : option string :=
  match customFieldMappings config with
  | Some mappings =>
      match StringUtils.assoc directusType mappings with
      | Some t => if Js.truthy t then Some t else None
      | None => objectPrototypeMember directusType
      end
  | None => None
  end.

(** Accessors written as the source writes them. *)
Module Field.

(** [field.meta?.special || []] *)
Definition special (f : DirectusField) : list string :=
  match meta f with
  | Some m => match FieldMeta.special m with Some l => l | None => [] end
  | None => []
  end.

(** [field.meta?.interface || ''] *)
Definition interface_ (f : DirectusField) : string :=
  match meta f with
  | Some m => match FieldMeta.interface m with Some i => i | None => "" end
  | None => ""
  end.

(** [field.meta?.interface], for the strict comparisons [=== '...'] *)
Definition interfaceIs (f : DirectusField) (i : string) : bool :=
  match meta f with
  | Some m =>
      match FieldMeta.interface m with
      | Some j => String.eqb j i
      | None => false
      end
  | None => false
  end.

(** [field.meta?.options || {}] *)
Definition options (f : DirectusField) : Options.t :=
  match meta f with
  | Some m =>
      match FieldMeta.options m with Some o => o | None => Options.empty end
  | None => Options.empty
  end.

(** [field.schema?.data_type || field.type] *)
Definition directusType (f : DirectusField) : string :=
  match schema f with
  | Some s => Js.orElse (FieldSchema.data_type s) (type f)
  | None => type f
  end.

(** [field.meta?.required ?? false] *)
Definition isRequired (f : DirectusField) : bool :=
  match meta f with Some m => FieldMeta.required m | None => false end.

(** [field.schema?.is_nullable ?? true] *)
Definition isNullable (f : DirectusField) : bool :=
  match schema f with Some s => FieldSchema.is_nullable s | None => true end.

(** [field.schema?.foreign_key_table], as a truth value *)
Definition hasForeignKeyTable (f : DirectusField) : bool :=
  match schema f with
  | Some s =>
      match FieldSchema.foreign_key_table s with
      | Some t => Js.truthy t
      | None => false
      end
  | None => false
  end.

(** [options.junction_table], as a truth value *)
Definition hasJunctionTable (f : DirectusField) : bool :=
  match Options.junction_table (options f) with
  | Some t => Js.truthy t
  | None => false
  end.

End Field.

(* ================================================================= *)
(** ** FieldUtils: UI-only detection *)

Module FieldUtils.
Import Js.

Definition isDividerField (f : DirectusField) : bool :=
  if startsWith "divider-" (field f) then true
  else if Field.interfaceIs f "divider" then true
  else false.

Definition isNoticeField (f : DirectusField) : bool :=
  if startsWith "notice-" (field f) then true
  else if Field.interfaceIs f "notice" then true
  else false.

(** [return isDividerField(field) || isNoticeField(field);]: the two
    callees are written as free identifiers, and the module binds
    neither name (the functions are the static methods above), so the
    evaluation of the first call throws a ReferenceError whatever the
    field. *)
Definition isUiOnlyField (f : DirectusField) : option bool := None.

End FieldUtils.

(* ================================================================= *)
(** ** CollectionUtils *)

Module CollectionUtils.
Import Js.

Definition foldersToFilter : list string :=
  ["Dialogues"; "Expert_System"; "Models"; "settings"].

(** [filterCollections(collections: any[], config)]; [name c] is
    [c.collection].  The log line written for a dropped folder is not
    modelled. *)
Definition filterCollections {A : Type} (name : A -> string)
           (cols : list A) (config : ZodirectusConfig) : list A :=
  let targetCollections :=
    match collections config with
    | Some wanted => filter (fun c => inList (name c) wanted) cols
    | None => cols
    end in
  let targetCollections :=
    match includeSystemCollections config with
    | Some true => targetCollections
    | _ => filter (fun c => negb (startsWith "directus_" (name c)))
                  targetCollections
    end in
  filter (fun c => negb (inList (name c) foldersToFilter))
         targetCollections.

End CollectionUtils.

(* ================================================================= *)
(** ** DependencyUtils: dependency graph and cycle detection *)

Module DependencyUtils.
Import Js.

(** A [Map<string, Set<string>>]: keys in insertion order, each set in
    insertion order, as the iteration of [Map] and [Set] sees them. *)
Definition Graph : Type := list (string * list string).

(** [set.add(x)] *)
Definition setAdd (x : string) (s : list string) : list string :=
  if inList x s then s else (s ++ [x])%list.

(** [set.delete(x)] *)
Definition setDelete (x : string) (s : list string) : list string :=
  filter (fun y => negb (String.eqb x y)) s.

(** [map.get(k)] *)
Fixpoint mapGet (k : string) (g : Graph) : option (list string) :=
  match g with
  | [] => None
  | (k', v) :: r => if String.eqb k k' then Some v else mapGet k r
  end.

(** [map.set(k, v)]: a present key keeps its place. *)
Fixpoint mapSet (k : string) (v : list string) (g : Graph) : Graph :=
  match g with
  | [] => [(k, v)]
  | (k', v') :: r =>
      if String.eqb k k' then (k, v) :: r else (k', v') :: mapSet k v r
  end.

(** [str.match(re)] with the [g] flag: [matchLen s] is the length of the
    match of [re] at the start of [s], if there is one; the scan resumes
    behind each match. *)
Fixpoint matchAll (matchLen : string -> option nat) (skip : nat)
         (s : string) : list string :=
  match s with
  | EmptyString => []
  | String _ r =>
      match skip with
      | S k => matchAll matchLen k r
      | O =>
          match matchLen s with
          | Some (S n) => substring 0 (S n) s :: matchAll matchLen n r
          | _ => matchAll matchLen 0 r
          end
      end
  end.

(** Greedy [[a-zA-Z]*Schema]: the end of the last "Schema" that starts
    inside the leading run of letters of [s] (or right behind it). *)
Fixpoint lettersThenSchema (s : string) : option nat :=
  let here := if String.prefix "Schema" s then Some 6 else None in
  match s with
  | EmptyString => here
  | String c r =>
      if isLetter c then
        match lettersThenSchema r with
        | Some n => Some (S n)
        | None => here
        end
      else here
  end.

(** [/Drx[A-Z][a-zA-Z]*Schema/] *)
Definition schemaRefLen (s : string) : option nat :=
  if String.prefix "Drx" s then
    match drop 3 s with
    | String u r =>
        if isUpper u then
          match lettersThenSchema r with
          | Some n => Some (4 + n)
          | None => None
          end
        else None
    | EmptyString => None
    end
  else None.

Fixpoint lettersLen (s : string) : nat :=
  match s with
  | EmptyString => 0
  | String c r => if isLetter c then S (lettersLen r) else 0
  end.

(** [/Drs[A-Z][a-zA-Z]*/] *)
Definition typeRefLen (s : string) : option nat :=
  if String.prefix "Drs" s then
    match drop 3 s with
    | String u r => if isUpper u then Some (4 + lettersLen r) else None
    | EmptyString => None
    end
  else None.

Definition schemaMatches (text : string) : list string :=
  matchAll schemaRefLen 0 text.

Definition typeMatches (text : string) : list string :=
  matchAll typeRefLen 0 text.

(** [match.replace('Drx', '').replace('Schema', '')] *)
Definition schemaRefName (m : string) : string :=
  replaceFirst "Schema" "" (replaceFirst "Drx" "" m).

(** [match.replace('Drs', '')] *)
Definition typeRefName (m : string) : string := replaceFirst "Drs" "" m.

Definition isVariantName (singularName : string) : bool :=
  endsWith "Create" singularName || endsWith "Update" singularName
  || endsWith "Get" singularName.

(** The guard both scans of [buildDependencyGraph] apply. *)
Definition keepDependency (current singularName : string) : bool :=
  negb (endsWith "Create" singularName)
  && negb (endsWith "Update" singularName)
  && negb (endsWith "Get" singularName)
  && negb (String.eqb singularName current).

Definition addDependencies (current : string) (names : list string)
           (deps : list string) : list string :=
  fold_left (fun acc n => if keepDependency current n then setAdd n acc
                          else acc)
            names deps.

(** [if (result.schema)]: a missing or empty text is skipped. *)
Definition textOf (t : option string) : option string :=
  match t with
  | Some s => if truthy s then Some s else None
  | None => None
  end.

(** The dependency set collected for one artifact. *)
Definition dependenciesOf (current : string) (result : GeneratedSchema.t)
  : list string :=
  let deps :=
    match textOf (GeneratedSchema.schema result) with
    | Some text =>
        addDependencies current (map schemaRefName (schemaMatches text)) []
    | None => []
    end in
  match textOf (GeneratedSchema.type result) with
  | Some text =>
      addDependencies current (map typeRefName (typeMatches text)) deps
  | None => deps
  end.

(** The loop of [buildDependencyGraph], from the graph built so far.
    [None]: the singular name of a collection could not be derived. *)
Fixpoint buildFrom (graph : Graph) (results : list GeneratedSchema.t)
  : option Graph :=
  match results with
  | [] => Some graph
  | result :: rest =>
      match StringUtils.singularName
              (GeneratedSchema.collectionName result) with
      | None => None
      | Some currentCollectionName =>
          let dependencies := dependenciesOf currentCollectionName result in
          match dependencies with
          | [] => buildFrom graph rest
          | _ :: _ =>
              buildFrom (mapSet currentCollectionName dependencies graph)
                        rest
          end
      end
  end.

Definition buildDependencyGraph (results : list GeneratedSchema.t)
  : option Graph :=
  buildFrom [] results.

(** *** Cycle detection *)

Record State : Type := {
  visited : list string;
  recursionStack : list string;
  circularDeps : list (list string)
}.

(** [graph.get(node) || new Set()] *)
Definition neighbors (graph : Graph) (node : string) : list string :=
  match mapGet node graph with
  | Some s => s
  | None => []
  end.

(** [path.indexOf(x)] *)
Fixpoint indexOf (x : string) (path : list string) : option nat :=
  match path with
  | [] => None
  | y :: r =>
      if String.eqb x y then Some 0
      else match indexOf x r with
           | Some i => Some (S i)
           | None => None
           end
  end.

(** [path.slice(path.indexOf(x))]; an index of -1 selects the last
    element. *)
Definition sliceFromIndexOf (x : string) (path : list string)
  : list string :=
  match indexOf x path with
  | Some i => skipn i path
  | None => skipn (List.length path - 1) path
  end.

Definition enter (node : string) (st : State) : State :=
  {| visited := setAdd node (visited st);
     recursionStack := setAdd node (recursionStack st);
     circularDeps := circularDeps st |}.

Definition leave (node : string) (st : State) : State :=
  {| visited := visited st;
     recursionStack := setDelete node (recursionStack st);
     circularDeps := circularDeps st |}.

Definition record (cycle : list string) (st : State) : State :=
  {| visited := visited st;
     recursionStack := recursionStack st;
     circularDeps := (circularDeps st ++ [cycle])%list |}.

(** A loop whose body may fail. *)
Fixpoint forEach (body : string -> State -> option State)
         (xs : list string) (st : State) : option State :=
  match xs with
  | [] => Some st
  | x :: r =>
      match body x st with
      | Some st' => forEach body r st'
      | None => None
      end
  end.

(** The body of the loop over the neighbours of a node; [path] already
    ends with that node, [call] is the recursive call. *)
Definition visitNeighbor
           (call : string -> list string -> State -> option State)
           (path : list string) (neighbor : string) (st : State)
  : option State :=
  if negb (inList neighbor (visited st)) then call neighbor path st
  else if inList neighbor (recursionStack st) then
    let cycle := (sliceFromIndexOf neighbor path ++ [neighbor])%list in
    Some (record cycle st)
  else Some st.

(** The closure [dfs].  The recursion of the source is bounded here by
    [fuel], the depth still allowed; [None] means the bound was hit. *)
Fixpoint dfs (graph : Graph) (fuel : nat) (node : string)
         (path : list string) (st : State) : option State :=
  match fuel with
  | O => None
  | S fuel' =>
      let path' := (path ++ [node])%list in
      match forEach (visitNeighbor (dfs graph fuel') path')
                    (neighbors graph node) (enter node st) with
      | Some st' => Some (leave node st')
      | None => None
      end
  end.

Definition visitRoot (graph : Graph) (fuel : nat) (node : string)
           (st : State) : option State :=
  if negb (inList node (visited st)) then dfs graph fuel node [] st
  else Some st.

Definition initial : State :=
  {| visited := []; recursionStack := []; circularDeps := [] |}.

(** Every name of the graph, keys and members. *)
Definition universe (graph : Graph) : list string :=
  (map fst graph ++ List.concat (map snd graph))%list.

(** A path never repeats a node, so its length, hence the depth of the
    recursion, is bounded by the number of names. *)
Definition depthBound (graph : Graph) : nat :=
  S (List.length (universe graph)).

Definition detectWith (fuel : nat) (graph : Graph)
  : option (list (list string)) :=
  match forEach (visitRoot graph fuel) (map fst graph) initial with
  | Some st => Some (circularDeps st)
  | None => None
  end.

Definition detectCircularDependencies (graph : Graph)
  : option (list (list string)) :=
  detectWith (depthBound graph) graph.

Definition isCircularDependency (collectionA collectionB : string)
           (circularDeps : list (list string)) : bool :=
  existsb (fun cycle => inList collectionA cycle && inList collectionB cycle)
          circularDeps.

End DependencyUtils.

(* ================================================================= *)
(** ** ImportUtils: import planning *)

Module ImportUtils.
Import Js.

(** The text in front of the first occurrence of [pat]. *)
Fixpoint upTo (pat : string) (s : string) : option string :=
  if String.prefix pat s then Some EmptyString
  else match s with
       | EmptyString => None
       | String c r =>
           match upTo pat r with
           | Some b => Some (String c b)
           | None => None
           end
       end.

(** [text.match(/z\.object\(\{[\s\S]*?\}\)/)]: the first object literal,
    up to the nearest closing brace and parenthesis. *)
Fixpoint objectMatch (s : string) : option string :=
  let here :=
    if String.prefix "z.object({" s then
      match upTo "})" (drop 10 s) with
      | Some body => Some ("z.object({" ++ body ++ "})")
      | None => None
      end
    else None in
  match here with
  | Some m => Some m
  | None =>
      match s with
      | EmptyString => None
      | String _ r => objectMatch r
      end
  end.

(** A loop over names that adds to a set and may fail. *)
Fixpoint collect (keep : string -> option bool) (names : list string)
         (acc : list string) : option (list string) :=
  match names with
  | [] => Some acc
  | n :: r =>
      match keep n with
      | Some true => collect keep r (DependencyUtils.setAdd n acc)
      | Some false => collect keep r acc
      | None => None
      end
  end.

(** Guard of the scan of the validator text; the singular name of the
    current collection is derived first. *)
Definition keepSchemaRef (collectionName singularName : string)
  : option bool :=
  match StringUtils.singularName collectionName with
  | None => None
  | Some current =>
      Some (negb (String.eqb singularName current)
            && negb (String.eqb singularName "File")
            && negb (String.eqb singularName "ImageFile"))
  end.

(** Guard of the scan of the type text; the singular name of the current
    collection is derived last, and only if the other tests pass. *)
Definition keepTypeRef (collectionName singularName : string)
  : option bool :=
  if negb (endsWith "Create" singularName)
     && negb (endsWith "Update" singularName)
     && negb (endsWith "Get" singularName)
     && negb (String.eqb singularName "File")
     && negb (String.eqb singularName "ImageFile")
  then
    match StringUtils.singularName collectionName with
    | None => None
    | Some current => Some (negb (String.eqb singularName current))
    end
  else Some false.

Definition extractRelatedCollections (result : GeneratedSchema.t)
  : option (list string) :=
  let name := GeneratedSchema.collectionName result in
  let fromSchema :=
    match DependencyUtils.textOf (GeneratedSchema.schema result) with
    | Some text =>
        match objectMatch text with
        | Some fieldDefinitions =>
            collect (keepSchemaRef name)
                    (map DependencyUtils.schemaRefName
                         (DependencyUtils.schemaMatches fieldDefinitions))
                    []
        | None => Some []
        end
    | None => Some []
    end in
  match fromSchema with
  | None => None
  | Some related =>
      match DependencyUtils.textOf (GeneratedSchema.type result) with
      | Some text =>
          collect (keepTypeRef name)
                  (map DependencyUtils.typeRefName
                       (DependencyUtils.typeMatches text))
                  related
      | None => Some related
      end
  end.

(** The predicate handed to [results.find]. *)
Definition producedBy (singularName : string) (r : GeneratedSchema.t)
  : option bool :=
  let name := GeneratedSchema.collectionName r in
  match StringUtils.singularName name with
  | None => None
  | Some collectionSingular =>
      match StringUtils.singularName (replaceFirst "directus_" "" name) with
      | None => None
      | Some collectionSingularWithoutPrefix =>
          Some (String.eqb collectionSingular singularName
                || String.eqb collectionSingularWithoutPrefix singularName)
      end
  end.

(** [results.find(p)] for a predicate that may fail. *)
Fixpoint find (p : GeneratedSchema.t -> option bool)
         (results : list GeneratedSchema.t)
  : option (option GeneratedSchema.t) :=
  match results with
  | [] => Some None
  | r :: rest =>
      match p r with
      | Some true => Some (Some r)
      | Some false => find p rest
      | None => None
      end
  end.

Definition isSystemName (collectionName : string) : bool :=
  startsWith "directus_" collectionName.

(** The loop state of [generateImportStatements]. *)
Record Acc : Type := {
  processedImports : list string;
  importStatements : string
}.

(** One turn of the loop over the related names. *)
Definition importFor (result : GeneratedSchema.t)
           (results : list GeneratedSchema.t)
           (circularDeps : list (list string)) (isSystemCollection : bool)
           (singularName : string) (acc : Acc) : option Acc :=
  match find (producedBy singularName) results with
  | None => None
  | Some None => Some acc
  | Some (Some relatedCollection) =>
      let relatedName := GeneratedSchema.collectionName relatedCollection in
      let relatedFileName := StringUtils.toKebabCase relatedName in
      let isRelatedSystemCollection := isSystemName relatedName in
      let baseSingularName := replaceFirst "Directus" "" singularName in
      let schemaName :=
        if isRelatedSystemCollection
        then "DrxDirectus" ++ baseSingularName ++ "Schema"
        else "Drx" ++ baseSingularName ++ "Schema" in
      let typeName :=
        if isRelatedSystemCollection
        then "DrsDirectus" ++ baseSingularName
        else "Drs" ++ baseSingularName in
      match StringUtils.singularName
              (GeneratedSchema.collectionName result) with
      | None => None
      | Some currentCollectionName =>
          let isCircular :=
            DependencyUtils.isCircularDependency
              currentCollectionName singularName circularDeps in
          let importKey := schemaName ++ ":" ++ relatedFileName in
          if negb (inList importKey (processedImports acc)) then
            let importPath :=
              if isSystemCollection && isRelatedSystemCollection
              then "'./" ++ relatedFileName ++ "'"
              else if isSystemCollection && negb isRelatedSystemCollection
              then "'../" ++ relatedFileName ++ "'"
              else if negb isSystemCollection && isRelatedSystemCollection
              then "'./system/" ++ relatedFileName ++ "'"
              else "'./" ++ relatedFileName ++ "'" in
            let line :=
              if isCircular
              then "import { " ++ schemaName ++ ", type " ++ typeName
                   ++ " } from " ++ importPath ++ ";" ++ nl
              else "import { " ++ schemaName ++ ", type " ++ typeName
                   ++ " } from " ++ importPath ++ ";" ++ nl in
            Some {| processedImports :=
                      DependencyUtils.setAdd importKey (processedImports acc);
                    importStatements := importStatements acc ++ line |}
          else Some acc
      end
  end.

Fixpoint importLoop (body : string -> Acc -> option Acc)
         (names : list string) (acc : Acc) : option Acc :=
  match names with
  | [] => Some acc
  | n :: r =>
      match body n acc with
      | Some acc' => importLoop body r acc'
      | None => None
      end
  end.

Definition generateImportStatements (result : GeneratedSchema.t)
           (results : list GeneratedSchema.t)
           (circularDeps : list (list string)) (isSystemCollection : bool)
  : option string :=
  match extractRelatedCollections result with
  | None => None
  | Some relatedCollections =>
      match importLoop
              (importFor result results circularDeps isSystemCollection)
              relatedCollections
              {| processedImports := []; importStatements := "" |} with
      | Some acc => Some (importStatements acc)
      | None => None
      end
  end.

Definition generateFileSchemaImport (result : GeneratedSchema.t)
           (isSystemCollection : bool) : string :=
  match DependencyUtils.textOf (GeneratedSchema.schema result) with
  | Some text =>
      if includes "DrxFileSchema" text || includes "DrxImageFileSchema" text
      then
        let importPath :=
          if isSystemCollection then "'../file-schemas'"
          else "'./file-schemas'" in
        "import { DrxFileSchema, DrxImageFileSchema, type DrsFile, type DrsImageFile } from "
        ++ importPath ++ ";" ++ nl
      else ""
  | None => ""
  end.

End ImportUtils.

(* ================================================================= *)
(** ** Field kinds

    The predicates below are declared twice in the source, with the same
    text, as private methods of [TypeGenerator] and of [ZodGenerator]. *)

Module FieldKinds.
Import Js.

Definition isFileField (f : DirectusField) : bool :=
  inList "file" (Field.special f) || inList "files" (Field.special f)
  || String.eqb (Field.interface_ f) "file"
  || String.eqb (Field.interface_ f) "file-image"
  || String.eqb (Field.interface_ f) "files".

Definition isRadioButtonField (f : DirectusField) : bool :=
  String.eqb (Field.interface_ f) "select-radio".

Definition isDropdownMultipleField (f : DirectusField) : bool :=
  String.eqb (Field.interface_ f) "select-multiple-dropdown".

Definition isCheckboxTreeField (f : DirectusField) : bool :=
  String.eqb (Field.interface_ f) "select-multiple-checkbox-tree".

Definition isDateTimeField (f : DirectusField) : bool :=
  let directusType := Field.directusType f in
  let interface_ := Field.interface_ f in
  if String.eqb directusType "timestamp" || String.eqb directusType "datetime"
     || String.eqb directusType "date" || String.eqb directusType "time"
  then true
  else if String.eqb interface_ "datetime" || String.eqb interface_ "date"
          || String.eqb interface_ "time"
  then true
  else
    let fieldName := toLowerCase (field f) in
    if includes "date" fieldName || includes "time" fieldName
       || String.eqb fieldName "ts"
    then true
    else false.

Definition isAutocompleteField (f : DirectusField) : bool :=
  String.eqb (Field.interface_ f) "autocomplete".

Definition isTagField (f : DirectusField) : bool :=
  inList "cast-json" (Field.special f)
  && String.eqb (Field.interface_ f) "tags".

Definition isRepeaterField (f : DirectusField) : bool :=
  inList "cast-json" (Field.special f)
  && String.eqb (Field.interface_ f) "list"
  && (0 <? List.length (Options.fields (Field.options f)))%nat.

Definition isManyToManyJunctionField (f : DirectusField) : bool :=
  if inList "m2o" (Field.special f) then false
  else if Field.hasJunctionTable f then true
  else if includes "m2m" (Field.interface_ f)
          || includes "many-to-many" (Field.interface_ f)
  then true
  else if inList "m2m" (Field.special f) then true
  else false.

Definition isRelationField (f : DirectusField) : bool :=
  inList "m2o" (Field.special f) || inList "o2m" (Field.special f)
  || inList "m2a" (Field.special f) || inList "m2m" (Field.special f)
  || includes "m2o" (Field.interface_ f)
  || includes "o2m" (Field.interface_ f)
  || includes "m2a" (Field.interface_ f)
  || includes "m2m" (Field.interface_ f)
  || includes "many-to-many" (Field.interface_ f)
  || isManyToManyJunctionField f.

Definition isForeignKey (f : DirectusField) : bool :=
  Field.hasForeignKeyTable f || inList "m2o" (Field.special f).

Definition isJunctionTable (c : DirectusCollectionWithFields) : bool :=
  let collectionName := collection c in
  if includes "_" collectionName
     && (includes "_junction" collectionName
         || includes "_link" collectionName
         || includes "_relation" collectionName)
  then true
  else
    let foreignKeyFields := filter isForeignKey (fields c) in
    if (2 <=? List.length foreignKeyFields)%nat then
      let nonForeignKeyFields :=
        filter (fun f => negb (Field.hasForeignKeyTable f)
                         && negb (inList "m2o" (Field.special f))
                         && negb (String.eqb (field f) "id")
                         && negb (startsWith "date_" (field f))
                         && negb (startsWith "user_" (field f)))
               (fields c) in
      (List.length nonForeignKeyFields <=? 2)%nat
    else false.

Definition systemFields : list string :=
  ["user_created"; "date_created"; "user_updated"; "date_updated"].

Definition hasField (name : string) (fs : list DirectusField) : bool :=
  existsb (fun f => String.eqb (field f) name) fs.

(** [getFieldsToOmitForCreate(fields, hasIdField)]: the second argument
    is not read. *)
Definition getFieldsToOmitForCreate (fs : list DirectusField)
           (hasIdField : bool) : list string :=
  ("id" :: filter (fun systemField => hasField systemField fs)
                  systemFields)%list.

(** [choices.map(choice => choice.value)] *)
Definition choiceValue (c : Choice) : scalar :=
  match c with
  | ChoiceStr _ => SAbsent
  | ChoiceObj v _ _ => v
  end.

(** The local function [extractValues] of the checkbox-tree emitters:
    what one item contributes, then the items in order. *)
Fixpoint itemValues (item : Choice) : list scalar :=
  match item with
  | ChoiceStr _ => []
  | ChoiceObj v _ children =>
      ((if Scalar.truthy v then [v] else [])
         ++ flat_map itemValues children)%list
  end.

Definition extractValues (items : list Choice) : list scalar :=
  flat_map itemValues items.

(** [`"${v}"`] *)
Definition quoted (s : string) : string := dq ++ s ++ dq.

Definition quotedValues (sep : string) (vs : list scalar) : string :=
  join sep (map (fun v => quoted (Scalar.toString v)) vs).

End FieldKinds.

(* ================================================================= *)
(** ** ZodGenerator: the validator emitter *)

(** [xs.map(f)] for an [f] that may fail. *)
Fixpoint mapM {A B : Type} (f : A -> option B) (xs : list A)
  : option (list B) :=
  match xs with
  | [] => Some []
  | x :: r =>
      match f x with
      | None => None
      | Some y =>
          match mapM f r with
          | None => None
          | Some ys => Some (y :: ys)
          end
      end
  end.

(** [xs.filter(p)] for a [p] that may fail. *)
Fixpoint filterM {A : Type} (p : A -> option bool) (xs : list A)
  : option (list A) :=
  match xs with
  | [] => Some []
  | x :: r =>
      match p x with
      | None => None
      | Some keep =>
          match filterM p r with
          | None => None
          | Some ys => Some (if keep then x :: ys else ys)
          end
      end
  end.

(** A call [this.m(x)] of a member the class may not have: the read of a
    missing member gives [undefined], and the call throws a TypeError. *)
Definition callMember {A B : Type} (m : option (A -> B)) (x : A)
  : option B :=
  match m with
  | Some f => Some (f x)
  | None => None
  end.

Module ZodGenerator.
Import Js FieldKinds.

Definition generateFileSchema (f : DirectusField) : string :=
  if String.eqb (Field.interface_ f) "files"
     || inList "files" (Field.special f)
  then "z.array(DrxFileSchema)"
  else if String.eqb (Field.interface_ f) "file-image"
  then "DrxImageFileSchema"
  else "DrxFileSchema".

Definition generateRadioButtonSchema (f : DirectusField) : string :=
  let choices := Options.choices (Field.options f) in
  if (0 <? List.length choices)%nat then
    let uniqueValues := Scalar.unique (map choiceValue choices) in
    "z.enum([" ++ quotedValues ", " uniqueValues ++ "])"
  else "z.string()".

Definition generateDropdownMultipleSchema (f : DirectusField) : string :=
  let choices := Options.choices (Field.options f) in
  if (0 <? List.length choices)%nat then
    let uniqueValues := Scalar.unique (map choiceValue choices) in
    "z.array(z.enum([" ++ quotedValues ", " uniqueValues ++ "]))"
  else "z.array(z.string())".

Definition generateCheckboxTreeSchema (f : DirectusField) : string :=
  let choices := Options.choices (Field.options f) in
  if (0 <? List.length choices)%nat then
    let uniqueValues := Scalar.unique (extractValues choices) in
    "z.array(z.enum([" ++ quotedValues ", " uniqueValues ++ "]))"
  else "z.array(z.string())".

Definition generateDateTimeSchema (f : DirectusField) : string :=
  let directusType := Field.directusType f in
  let interface_ := Field.interface_ f in
  let fieldName := toLowerCase (field f) in
  if String.eqb directusType "date" || String.eqb interface_ "date"
     || String.eqb fieldName "date"
  then "z.string().date()"
  else if String.eqb directusType "time" || String.eqb interface_ "time"
          || String.eqb fieldName "time"
  then "z.string().time()"
  else if String.eqb directusType "timestamp"
          || String.eqb directusType "datetime"
          || String.eqb interface_ "datetime"
          || includes "datetime" fieldName || String.eqb fieldName "ts"
  then "z.string().datetime()"
  else "z.string().datetime()".

Definition generateAutocompleteSchema (f : DirectusField) : string :=
  let suggestions := Options.suggestions (Field.options f) in
  if (0 <? List.length suggestions)%nat then
    "z.enum([" ++ join ", " (map quoted suggestions) ++ "])"
  else "z.string()".

Definition generateTagSchema (f : DirectusField) : string :=
  let presets := Options.presets (Field.options f) in
  if (0 <? List.length presets)%nat then
    "z.array(z.enum([" ++ join ", " (map quoted presets) ++ "]))"
  else "z.array(z.string())".

(** The second parameter of the source ([meta]) is not read. *)
Definition getZodTypeForSubField (fieldType : string) : string :=
  if inList fieldType ["integer"; "bigint"; "smallint"; "tinyint"]
  then "z.number().int()"
  else if inList fieldType ["decimal"; "float"; "double"]
  then "z.number()"
  else if String.eqb fieldType "boolean" then "z.boolean()"
  else if inList fieldType
            ["varchar"; "char"; "text"; "longtext"; "character varying"]
  then "z.string()"
  else if String.eqb fieldType "date" then "z.string().date()"
  else if inList fieldType ["datetime"; "timestamp"]
  then "z.string().datetime()"
  else if String.eqb fieldType "time" then "z.string().time()"
  else if String.eqb fieldType "uuid" then "z.string().uuid()"
  else if String.eqb fieldType "json" then "z.any()"
  else "z.string()".

Definition generateRepeaterSchema (f : DirectusField) : string :=
  let repeaterFields := Options.fields (Field.options f) in
  match repeaterFields with
  | [] => "z.array(z.any())"
  | _ :: _ =>
      let subFieldSchemas :=
        map (fun sub => SubField.field sub ++ ": "
                        ++ getZodTypeForSubField (SubField.type sub))
            repeaterFields in
      let subFieldsString := join ("," ++ nl ++ "    ") subFieldSchemas in
      "z.array(z.object({" ++ nl ++ "    " ++ subFieldsString ++ nl ++ "}))"
  end.

Section Emitter.

(** [getRelatedCollectionName] reads the instance's [relationships],
    the records fetched from the backend; the resolver is a parameter
    of the emitter. *)
Variable getRelatedCollectionName : DirectusField -> option string.

(** [this.config] *)
Variable config : ZodirectusConfig.

(** The Choice stage of [getZodType], an enumeration read from a raw
    list [options.choices] or [options.options]: its values go through
    [parseInt] and [parseFloat], and it is a parameter of the emitter.
    [None] stands for control falling through (both lists empty). *)
Variable choiceZodType : DirectusField -> option string.

(** The last stages of [getZodType]: special tags, then the raw type. *)
Definition scalarZodType (f : DirectusField) : string :=
  let special := Field.special f in
  let directusType := Field.directusType f in
  if inList "uuid" special then "z.string().uuid()"
  else if inList "date-created" special || inList "date-updated" special
  then "z.string().datetime()"
  else if inList "user-created" special || inList "user-updated" special
  then "z.string()"
  else if inList "sort" special then "z.number().int()"
  else if String.eqb directusType "uuid" then "z.string().uuid()"
  else if inList directusType
            ["varchar"; "char"; "text"; "longtext"; "character varying"]
  then "z.string()"
  else if inList directusType
            ["integer"; "bigint"; "smallint"; "tinyint"]
  then "z.number().int()"
  else if inList directusType ["decimal"; "float"; "double"]
  then "z.number()"
  else if String.eqb directusType "boolean" then "z.boolean()"
  else if String.eqb directusType "date" then "z.string().date()"
  else if inList directusType ["datetime"; "timestamp"]
  then "z.string().datetime()"
  else if String.eqb directusType "time" then "z.string().time()"
  else if String.eqb directusType "json" then "z.any()"
  else if String.eqb directusType "geometry" then "z.any()"
  else if String.eqb directusType "binary" then "z.string()"
  else
    match customMapping config directusType with
    | Some t => t
    | None => "z.string()"
    end.

(** [Drx${...}Schema] of a related collection; the singular name may
    fail to be derived. *)
Definition relatedSchemaNameOf (relatedCollection : string)
  : option string :=
  let isSystemCollection := startsWith "directus_" relatedCollection in
  let baseCollectionName :=
    if isSystemCollection
    then replaceFirst "directus_" "" relatedCollection
    else relatedCollection in
  match StringUtils.singularName baseCollectionName with
  | None => None
  | Some collectionName =>
      Some (if isSystemCollection
            then "DrxDirectus" ++ collectionName ++ "Schema"
            else "Drx" ++ collectionName ++ "Schema")
  end.

Definition selfSchemaNameOf (relatedCollection : string)
  : option string :=
  if startsWith "directus_" relatedCollection then
    match StringUtils.singularName
            (replaceFirst "directus_" "" relatedCollection) with
    | None => None
    | Some n => Some ("DrxDirectus" ++ n ++ "Schema")
    end
  else
    match StringUtils.singularName relatedCollection with
    | None => None
    | Some n => Some ("Drx" ++ n ++ "Schema")
    end.

(** The Relation stage; [Some None] when control falls through. *)
Definition relationZodType (f : DirectusField)
  : option (option string) :=
  if isRelationField f then
    match getRelatedCollectionName f with
    | Some relatedCollection =>
        if truthy relatedCollection then
          match relatedSchemaNameOf relatedCollection with
          | None => None
          | Some relatedSchemaName =>
              let currentCollectionName :=
                match meta f with
                | Some m => FieldMeta.collection m
                | None => ""
                end in
              let isSelfReference :=
                String.eqb currentCollectionName relatedCollection in
              let special := Field.special f in
              if inList "m2o" special then
                if isSelfReference then
                  match selfSchemaNameOf relatedCollection with
                  | None => None
                  | Some selfSchemaName =>
                      Some (Some ("z.lazy(() => " ++ selfSchemaName
                                  ++ ")"))
                  end
                else Some (Some relatedSchemaName)
              else if inList "o2m" special
              then Some (Some ("z.array(" ++ relatedSchemaName ++ ")"))
              else if inList "m2a" special
              then Some (Some ("z.array(" ++ relatedSchemaName ++ ")"))
              else if inList "m2m" special
                      || isManyToManyJunctionField f
              then Some (Some ("z.array(" ++ relatedSchemaName ++ ")"))
              else Some None
          end
        else Some None
    | None => Some None
    end
  else Some None.

Definition getZodType (f : DirectusField) : option string :=
  if isFileField f then Some (generateFileSchema f)
  else if isRadioButtonField f then Some (generateRadioButtonSchema f)
  else if isDropdownMultipleField f
  then Some (generateDropdownMultipleSchema f)
  else if isCheckboxTreeField f then Some (generateCheckboxTreeSchema f)
  else if isDateTimeField f then Some (generateDateTimeSchema f)
  else if isAutocompleteField f then Some (generateAutocompleteSchema f)
  else if isTagField f then Some (generateTagSchema f)
  else if isRepeaterField f then Some (generateRepeaterSchema f)
  else
    match relationZodType f with
    | None => None
    | Some (Some t) => Some t
    | Some None =>
        match choiceZodType f with
        | Some t => Some t
        | None => Some (scalarZodType f)
        end
    end.

Definition generateFieldSchema (f : DirectusField) : option string :=
  match getZodType f with
  | None => None
  | Some zodType =>
      let isRequired := Field.isRequired f in
      let isNullable := Field.isNullable f in
      let schema := field f ++ ": " ++ zodType in
      let schema :=
        if isNullable && negb isRequired then schema ++ ".nullable()"
        else schema in
      let schema :=
        if negb isRequired then schema ++ ".optional()" else schema in
      Some schema
  end.

Definition yesNo (b : bool) : string := if b then "true" else "false".

Definition debugLines (f : DirectusField) : string :=
  let relatedCollection := getRelatedCollectionName f in
  "// Field: " ++ field f ++ nl
  ++ "//   Special: [" ++ join ", " (Field.special f) ++ "]" ++ nl
  ++ "//   Interface: " ++ Field.interface_ f ++ nl
  ++ "//   Related Collection: "
  ++ orElse (match relatedCollection with Some r => r | None => "" end)
            "Unknown" ++ nl
  ++ "//   Junction Table: "
  ++ orElse (match Options.junction_table (Field.options f) with
             | Some t => t
             | None => ""
             end) "None" ++ nl
  ++ "//   Is M2M Junction: " ++ yesNo (isManyToManyJunctionField f) ++ nl.

Definition generateRelationshipDebugInfo
           (c : DirectusCollectionWithFields) : string :=
  let relationFields := filter isRelationField (fields c) in
  let junctionTables := isJunctionTable c in
  if (List.length relationFields =? 0)%nat && negb junctionTables then ""
  else
    nl ++ "// DEBUG: Relationship information for " ++ collection c ++ nl
    ++ (if junctionTables
        then "// This appears to be a junction table" ++ nl else "")
    ++ join "" (map debugLines relationFields)
    ++ "// END DEBUG" ++ nl ++ nl.

(** [this.isUiOnlyField]: the class declares [isDividerField] and the
    other kind predicates, but no member of this name, and it inherits
    from no other class. *)
Definition isUiOnlyField : option (DirectusField -> bool) := None.

(** [collection.fields.filter(field => !this.isUiOnlyField(field))];
    the callback runs once for every field. *)
Definition filteredFields (c : DirectusCollectionWithFields)
  : option (list DirectusField) :=
  filterM (fun f => option_map negb (callMember isUiOnlyField f))
          (fields c).

Definition syntheticId : string := "id: z.string().uuid().optional()".

Definition schemaNameOf (c : DirectusCollectionWithFields)
  : option string :=
  match StringUtils.singularName (collection c) with
  | None => None
  | Some singularName => Some ("Drx" ++ singularName ++ "Schema")
  end.

Definition baseSchema (isCircularDependency : bool)
           (schemaName fieldsString : string) : string :=
  if isCircularDependency then
    "export const " ++ schemaName
    ++ ": z.ZodType<any> = z.lazy(() => z.object({" ++ nl
    ++ "    " ++ fieldsString ++ nl ++ "}));"
  else
    "export const " ++ schemaName ++ " = z.object({" ++ nl
    ++ "    " ++ fieldsString ++ nl ++ "});".

Definition createSchema (isCircularDependency : bool)
           (schemaName omitted : string) : string :=
  let createSchemaName :=
    replaceFirst "Schema" "CreateSchema" schemaName in
  if isCircularDependency then
    "export const " ++ createSchemaName
    ++ ": z.ZodType<any> = z.lazy(() => (" ++ schemaName
    ++ " as z.ZodObject<any>).omit({" ++ nl ++ omitted ++ nl ++ "}));"
  else
    "export const " ++ createSchemaName ++ " = " ++ schemaName
    ++ ".omit({" ++ nl ++ omitted ++ nl ++ "});".

Definition updateSchema (isCircularDependency : bool)
           (schemaName : string) : string :=
  let updateSchemaName :=
    replaceFirst "Schema" "UpdateSchema" schemaName in
  if isCircularDependency then
    "export const " ++ updateSchemaName
    ++ ": z.ZodType<any> = z.lazy(() => (" ++ schemaName
    ++ " as z.ZodObject<any>).partial().required({" ++ nl
    ++ "    id: true" ++ nl ++ "}));"
  else
    "export const " ++ updateSchemaName ++ " = " ++ schemaName
    ++ ".partial().required({" ++ nl ++ "    id: true" ++ nl ++ "});".

Definition getSchema (isCircularDependency : bool)
           (schemaName : string) : string :=
  let getSchemaName := replaceFirst "Schema" "GetSchema" schemaName in
  if isCircularDependency then
    "export const " ++ getSchemaName
    ++ ": z.ZodType<any> = z.lazy(() => " ++ schemaName ++ ");"
  else
    "export const " ++ getSchemaName ++ " = " ++ schemaName ++ ";".

(** The four definitions, from the name, the joined entries and the
    joined omission list. *)
Definition schemaText (isCircularDependency : bool)
           (schemaName fieldsString omitted : string) : string :=
  baseSchema isCircularDependency schemaName fieldsString
  ++ nl ++ nl ++ createSchema isCircularDependency schemaName omitted
  ++ nl ++ nl ++ updateSchema isCircularDependency schemaName
  ++ nl ++ nl ++ getSchema isCircularDependency schemaName.

Definition generateSchema (c : DirectusCollectionWithFields)
           (isCircularDependency : bool) : option string :=
  match schemaNameOf c with
  | None => None
  | Some schemaName =>
      match filteredFields c with
      | None => None
      | Some filtered =>
          let hasIdField := hasField "id" filtered in
          match mapM generateFieldSchema filtered with
          | None => None
          | Some fs =>
              let fs :=
                if negb hasIdField then syntheticId :: fs else fs in
              let fieldsString := join ("," ++ nl ++ "    ") fs in
              let debugInfo := generateRelationshipDebugInfo c in
              let fieldsToOmit :=
                getFieldsToOmitForCreate filtered hasIdField in
              let omitFieldsString :=
                join ("," ++ nl)
                     (map (fun name => "    " ++ name ++ ": true")
                          fieldsToOmit) in
              Some (debugInfo
                    ++ schemaText isCircularDependency schemaName
                                  fieldsString omitFieldsString)
          end
      end
  end.

End Emitter.
End ZodGenerator.

(* ================================================================= *)
(** ** TypeGenerator: the type emitter *)

Module TypeGenerator.
Import Js FieldKinds.

(** The class keeps its own, shorter [toSingular]. *)
Definition toSingular (word : string) : string :=
  if endsWith "ies" word then dropRight 3 word ++ "y"
  else if endsWith "ses" word || endsWith "shes" word
          || endsWith "ches" word || endsWith "xes" word
          || endsWith "zes" word
  then dropRight 2 word
  else if endsWith "s" word && (1 <? String.length word)%nat
  then dropRight 1 word
  else word.

Definition toPascalCase : string -> string := StringUtils.toPascalCase.

Definition generateFileType (f : DirectusField) : string :=
  if String.eqb (Field.interface_ f) "files"
     || inList "files" (Field.special f)
  then "DrsFile[]"
  else if String.eqb (Field.interface_ f) "file-image"
  then "DrsImageFile"
  else "DrsFile".

Definition generateRadioButtonType (f : DirectusField) : string :=
  let choices := Options.choices (Field.options f) in
  if (0 <? List.length choices)%nat then
    quotedValues " | " (Scalar.unique (map choiceValue choices))
  else "string".

Definition generateDropdownMultipleType (f : DirectusField) : string :=
  let choices := Options.choices (Field.options f) in
  if (0 <? List.length choices)%nat then
    "(" ++ quotedValues " | " (Scalar.unique (map choiceValue choices))
    ++ ")[]"
  else "string[]".

Definition generateCheckboxTreeType (f : DirectusField) : string :=
  let choices := Options.choices (Field.options f) in
  if (0 <? List.length choices)%nat then
    "(" ++ quotedValues " | " (Scalar.unique (extractValues choices))
    ++ ")[]"
  else "string[]".

Definition generateDateTimeType (f : DirectusField) : string :=
  let directusType := Field.directusType f in
  let interface_ := Field.interface_ f in
  let fieldName := toLowerCase (field f) in
  if String.eqb directusType "date" || String.eqb interface_ "date"
     || String.eqb fieldName "date"
  then "string"
  else if String.eqb directusType "time" || String.eqb interface_ "time"
          || String.eqb fieldName "time"
  then "string"
  else if String.eqb directusType "timestamp"
          || String.eqb directusType "datetime"
          || String.eqb interface_ "datetime"
          || includes "datetime" fieldName || String.eqb fieldName "ts"
  then "string"
  else "string".

Definition generateAutocompleteType (f : DirectusField) : string :=
  let suggestions := Options.suggestions (Field.options f) in
  if (0 <? List.length suggestions)%nat then
    join " | " (map quoted suggestions)
  else "string".

Definition generateTagType (f : DirectusField) : string :=
  let presets := Options.presets (Field.options f) in
  if (0 <? List.length presets)%nat then
    "(" ++ join " | " (map quoted presets) ++ ")[]"
  else "string[]".

(** The second parameter of the source ([meta]) is not read. *)
Definition getTypeScriptTypeForSubField (fieldType : string) : string :=
  if inList fieldType ["integer"; "bigint"; "smallint"; "tinyint"]
  then "number"
  else if inList fieldType ["decimal"; "float"; "double"] then "number"
  else if String.eqb fieldType "boolean" then "boolean"
  else if inList fieldType
            ["varchar"; "char"; "text"; "longtext"; "character varying"]
  then "string"
  else if String.eqb fieldType "date" then "string"
  else if inList fieldType ["datetime"; "timestamp"] then "string"
  else if String.eqb fieldType "time" then "string"
  else if String.eqb fieldType "uuid" then "string"
  else if String.eqb fieldType "json" then "any"
  else "string".

Definition generateRepeaterType (f : DirectusField) : string :=
  let repeaterFields := Options.fields (Field.options f) in
  match repeaterFields with
  | [] => "any[]"
  | _ :: _ =>
      let subFieldTypes :=
        map (fun sub => SubField.field sub ++ ": "
                        ++ getTypeScriptTypeForSubField (SubField.type sub))
            repeaterFields in
      let subFieldsString := join "; " subFieldTypes in
      "{" ++ nl ++ "    " ++ subFieldsString ++ ";" ++ nl ++ "}[]"
  end.

Section Emitter.

(** The resolver of this class, over its own [relationships]. *)
Variable getRelatedCollectionName : DirectusField -> option string.

(** [this.config] *)
Variable config : ZodirectusConfig.

(** The Choice stage of [getTypeScriptType] ([parseInt], [parseFloat]),
    a parameter as in [ZodGenerator]. *)
Variable choiceType : DirectusField -> option string.

(** The last stages of [getTypeScriptType]: special tags, then the raw
    type. *)
Definition scalarType (f : DirectusField) : string :=
  let special := Field.special f in
  let directusType := Field.directusType f in
  if inList "uuid" special then "string"
  else if inList "date-created" special || inList "date-updated" special
  then "string"
  else if inList "user-created" special || inList "user-updated" special
  then "string"
  else if inList "sort" special then "number"
  else if String.eqb directusType "uuid" then "string"
  else if inList directusType
            ["varchar"; "char"; "text"; "longtext"; "character varying"]
  then "string"
  else if inList directusType
            ["integer"; "bigint"; "smallint"; "tinyint"]
  then "number"
  else if inList directusType ["decimal"; "float"; "double"]
  then "number"
  else if String.eqb directusType "boolean" then "boolean"
  else if String.eqb directusType "date" then "string"
  else if inList directusType ["datetime"; "timestamp"] then "string"
  else if String.eqb directusType "time" then "string"
  else if String.eqb directusType "json" then "any"
  else if String.eqb directusType "geometry" then "any"
  else if String.eqb directusType "binary" then "string"
  else
    match customMapping config directusType with
    | Some t => t
    | None => "any"
    end.

(** The Relation stage; [None] when control falls through. *)
Definition relationType (f : DirectusField) : option string :=
  if isRelationField f then
    match getRelatedCollectionName f with
    | Some relatedCollection =>
        if truthy relatedCollection then
          let isSystemCollection :=
            startsWith "directus_" relatedCollection in
          let baseCollectionName :=
            if isSystemCollection
            then replaceFirst "directus_" "" relatedCollection
            else relatedCollection in
          let collectionName :=
            toSingular (toPascalCase baseCollectionName) in
          let relatedTypeName :=
            if isSystemCollection then "DrsDirectus" ++ collectionName
            else "Drs" ++ collectionName in
          let special := Field.special f in
          if inList "m2o" special then Some relatedTypeName
          else if inList "o2m" special then Some (relatedTypeName ++ "[]")
          else if inList "m2a" special then Some (relatedTypeName ++ "[]")
          else if inList "m2m" special || isManyToManyJunctionField f
          then Some (relatedTypeName ++ "[]")
          else None
        else None
    | None => None
    end
  else None.

Definition getTypeScriptType (f : DirectusField) : string :=
  if isFileField f then generateFileType f
  else if isRadioButtonField f then generateRadioButtonType f
  else if isDropdownMultipleField f then generateDropdownMultipleType f
  else if isCheckboxTreeField f then generateCheckboxTreeType f
  else if isDateTimeField f then generateDateTimeType f
  else if isAutocompleteField f then generateAutocompleteType f
  else if isTagField f then generateTagType f
  else if isRepeaterField f then generateRepeaterType f
  else
    match relationType f with
    | Some t => t
    | None =>
        match choiceType f with
        | Some t => t
        | None => scalarType f
        end
    end.

Definition generateFieldType (f : DirectusField) : string :=
  let tsType := getTypeScriptType f in
  let isRequired := Field.isRequired f in
  let type := field f in
  let type := if negb isRequired then type ++ "?" else type in
  type ++ ": " ++ tsType.

(** [this.isUiOnlyField]: as in [ZodGenerator], the class has no
    member of this name. *)
Definition isUiOnlyField : option (DirectusField -> bool) := None.

(** [collection.fields.filter(field => !this.isUiOnlyField(field))] *)
Definition filteredFields (c : DirectusCollectionWithFields)
  : option (list DirectusField) :=
  filterM (fun f => option_map negb (callMember isUiOnlyField f))
          (fields c).

Definition syntheticId : string := "id?: string".

Definition typeNameOf (c : DirectusCollectionWithFields) : string :=
  "Drs" ++ toSingular (toPascalCase (collection c)).

Definition generateType (c : DirectusCollectionWithFields)
  : option string :=
  let typeName := typeNameOf c in
  match filteredFields c with
  | None => None
  | Some filtered =>
      let hasIdField := hasField "id" filtered in
      let fs := map generateFieldType filtered in
      let fs := if negb hasIdField then syntheticId :: fs else fs in
      let fieldsString := join (";" ++ nl ++ "  ") fs in
      let baseInterface :=
        "export interface " ++ typeName ++ " {" ++ nl
        ++ "  " ++ fieldsString ++ ";" ++ nl ++ "}" in
      let createTypeName := typeName ++ "Create" in
      let fieldsToOmit := getFieldsToOmitForCreate filtered hasIdField in
      let omitFieldsString := join " | " (map quoted fieldsToOmit) in
      let createInterface :=
        "export type " ++ createTypeName ++ " = Omit<" ++ typeName ++ ", "
        ++ omitFieldsString ++ ">;" in
      let updateTypeName := typeName ++ "Update" in
      let updateInterface :=
        "export type " ++ updateTypeName ++ " = Partial<" ++ typeName
        ++ "> & Required<Pick<" ++ typeName ++ ", " ++ quoted "id"
        ++ ">>;" in
      let getTypeName := typeName ++ "Get" in
      let getInterface :=
        "export type " ++ getTypeName ++ " = " ++ typeName ++ ";" in
      Some (baseInterface ++ nl ++ nl ++ createInterface ++ nl ++ nl
            ++ updateInterface ++ nl ++ nl ++ getInterface)
  end.

End Emitter.
End TypeGenerator.
(* ================================================================= *)
(** ** Import paths, as the specification words them

    [specifiedPath] is not taken from the source: it restates the rule of
    the specification, to be compared with
    [ImportUtils.generateImportStatements].  An import line is identified
    by the related name it is written for and the artifact found for that
    name; the imported names are the ones the source derives from the
    two. *)

Module ImportPlan.

(** Same namespace status: the sibling path; from a system entity to a
    regular one: the parent-relative path; from a regular entity to a
    system one: the path into the dedicated subfolder. *)
Definition specifiedPath (currentIsSystem targetIsSystem : bool)
           (fileName : string) : string :=
  if Bool.eqb currentIsSystem targetIsSystem then "'./" ++ fileName ++ "'"
  else if currentIsSystem then "'../" ++ fileName ++ "'"
  else "'./system/" ++ fileName ++ "'".

(** An import line: the related name and the target artifact. *)
Definition Line : Type := (string * GeneratedSchema.t)%type.

(** [schemaName] of [generateImportStatements] *)
Definition schemaName (l : Line) : string :=
  let baseSingularName := Js.replaceFirst "Directus" "" (fst l) in
  if ImportUtils.isSystemName (GeneratedSchema.collectionName (snd l))
  then "DrxDirectus" ++ baseSingularName ++ "Schema"
  else "Drx" ++ baseSingularName ++ "Schema".

(** [typeName] of [generateImportStatements] *)
Definition typeName (l : Line) : string :=
  let baseSingularName := Js.replaceFirst "Directus" "" (fst l) in
  if ImportUtils.isSystemName (GeneratedSchema.collectionName (snd l))
  then "DrsDirectus" ++ baseSingularName
  else "Drs" ++ baseSingularName.

Definition lineText (currentIsSystem : bool) (l : Line) : string :=
  let targetName := GeneratedSchema.collectionName (snd l) in
  "import { " ++ schemaName l ++ ", type " ++ typeName l ++ " } from "
  ++ specifiedPath currentIsSystem (ImportUtils.isSystemName targetName)
                   (StringUtils.toKebabCase targetName)
  ++ ";" ++ nl.

Fixpoint linesText (currentIsSystem : bool) (ls : list Line) : string :=
  match ls with
  | [] => ""
  | l :: r => lineText currentIsSystem l ++ linesText currentIsSystem r
  end.

(** The line [l] is written for a related name of [related], and its
    target is the artifact [results.find] returns for that name. *)
Definition Picked (related : list string)
           (results : list GeneratedSchema.t) (l : Line) : Prop :=
  In (fst l) related
  /\ ImportUtils.find (ImportUtils.producedBy (fst l)) results
     = Some (Some (snd l))
  /\ In (snd l) results.

End ImportPlan.


(* ================================================================= *)
(** ** Invariants of the traversal

    The properties of a traversal state, and of a recursive call, that the
    correctness of cycle detection is stated with. *)

Module CycleInvariants.
Import DependencyUtils.

(** The recursion stack holds exactly the nodes of the path, and all of
    them are visited. *)
Definition WF (path : list string) (st : State) : Prop :=
  (forall z, In z (recursionStack st) <-> In z path)
  /\ (forall z, In z path -> In z (visited st)).

(** What a traversal step may change: more nodes visited, the same
    stack, more cycles recorded. *)
Definition Grows (st st' : State) : Prop :=
  incl (visited st) (visited st')
  /\ (forall z, In z (recursionStack st') <-> In z (recursionStack st))
  /\ exists extra, circularDeps st' = (circularDeps st ++ extra)%list.

(** A call on an unvisited node visits it and all its neighbours. *)
Definition CallGrows (g : Graph)
           (call : string -> list string -> State -> option State)
  : Prop :=
  forall node path st st',
    WF path st -> ~ In node (visited st) ->
    call node path st = Some st' ->
    Grows st st' /\ In node (visited st')
    /\ forall y, In y (neighbors g node) -> In y (visited st').

(** A recorded path that ends where it started. *)
Definition Closed (c : list string) : Prop :=
  exists x mid, c = (x :: mid ++ [x])%list.

(** Some recorded cycle holds both [a] and [b]. *)
Definition Found (a b : string) (cycles : list (list string)) : Prop :=
  exists c, In c cycles /\ In a c /\ In b c /\ Closed c.

(** A call made while [a] is on the stack that visits [b] records a
    cycle through both. *)
Definition CallOnStack (a b : string)
           (call : string -> list string -> State -> option State)
  : Prop :=
  forall node path st st',
    WF path st -> ~ In node (visited st) ->
    call node path st = Some st' ->
    In a (path ++ [node])%list ->
    ~ In b (visited st) -> In b (visited st') ->
    Found a b (circularDeps st').

(** A call that is the first to visit [a] or [b] records a cycle through
    both. *)
Definition CallFinds (a b : string)
           (call : string -> list string -> State -> option State)
  : Prop :=
  forall node path st st',
    WF path st -> ~ In node (visited st) ->
    call node path st = Some st' ->
    ~ In a (visited st) -> ~ In b (visited st) ->
    In a (visited st') \/ In b (visited st') ->
    Found a b (circularDeps st').

(** The facts about a path that bound the depth of the recursion. *)
Definition Bounded (g : Graph) (fuel : nat) (path : list string) : Prop :=
  NoDup path /\ incl path (universe g)
  /\ List.length (universe g) < fuel + List.length path.

(** With that much fuel a call returns. *)
Definition CallTotal (g : Graph) (fuel : nat) : Prop :=
  forall node path st,
    WF path st -> ~ In node (visited st) ->
    In node (universe g) -> Bounded g fuel path ->
    exists st', dfs g fuel node path st = Some st'.

End CycleInvariants.

(* ================================================================= *)
(** ** Sample inputs

    The inputs the statements below are evaluated on; most are taken from
    the repository's test-suite. *)

Definition artifact (name : string) (schema : option string)
           (type : option string) : GeneratedSchema.t :=
  {| GeneratedSchema.collectionName := name;
     GeneratedSchema.schema := schema;
     GeneratedSchema.type := type |}.

Definition mockResults : list GeneratedSchema.t :=
  [ artifact "users"
      (Some "export const DrxUserSchema = z.object({ name: z.string() });")
      None;
    artifact "posts"
      (Some "export const DrxPostSchema = z.object({ author: DrxUserSchema.nullable().optional() });")
      None;
    artifact "directus_users"
      (Some "export const DrxDirectusUserSchema = z.object({ email: z.string() });")
      None;
    artifact "directus_roles"
      (Some "export const DrxDirectusRoleSchema = z.object({ name: z.string() });")
      None ].

(** The emitters at the fields of the repository's generator tests: no
    relation is resolved and no raw choice list is present there. *)
Definition noRelation : DirectusField -> option string := fun _ => None.

Definition noChoice : DirectusField -> option string := fun _ => None.

Definition plainConfig : ZodirectusConfig :=
  {| collections := None; includeSystemCollections := None;
     customFieldMappings := None |}.

Definition column (table name type : string) (nullable required : bool)
  : DirectusField :=
  {| field := name; type := type;
     schema := Some {| FieldSchema.data_type := type;
                       FieldSchema.is_nullable := nullable;
                       FieldSchema.foreign_key_table := None |};
     meta := Some {| FieldMeta.collection := table;
                     FieldMeta.special := None;
                     FieldMeta.interface := None;
                     FieldMeta.options := None;
                     FieldMeta.required := required |} |}.

Definition usersCollection : DirectusCollectionWithFields :=
  {| collection := "users";
     fields := [ column "users" "id" "uuid" false true;
                 column "users" "email" "varchar" false true;
                 column "users" "first_name" "varchar" true false ] |}.

(** [mockField] of the tests of [FieldUtils]. *)
Definition mockField (name type : string) (special : option (list string))
           (interfaceName : option string) : DirectusField :=
  {| field := name; type := type;
     schema := Some {| FieldSchema.data_type := type;
                       FieldSchema.is_nullable := false;
                       FieldSchema.foreign_key_table := None |};
     meta := Some {| FieldMeta.collection := "test_table";
                     FieldMeta.special := special;
                     FieldMeta.interface := interfaceName;
                     FieldMeta.options := None;
                     FieldMeta.required := true |} |}.

(** A configuration that asks for two of the folder names. *)
Definition requestedFolders : ZodirectusConfig :=
  {| collections := Some ["Dialogues"; "users"; "settings"];
     includeSystemCollections := Some true;
     customFieldMappings := None |}.

(** A presentation field that happens to carry an audit name. *)
Definition dividerNamedDateCreated : DirectusField :=
  {| field := "date_created"; type := "alias"; schema := None;
     meta := Some {| FieldMeta.collection := "posts";
                     FieldMeta.special := Some ["alias"; "no-data"];
                     FieldMeta.interface := Some "divider";
                     FieldMeta.options := None;
                     FieldMeta.required := false |} |}.

Definition postsWithDivider : DirectusCollectionWithFields :=
  {| collection := "posts";
     fields := [ column "posts" "id" "uuid" false true;
                 column "posts" "title" "varchar" false true;
                 dividerNamedDateCreated ] |}.

(** A collection without identifier field. *)
Definition postsWithoutId : DirectusCollectionWithFields :=
  {| collection := "posts";
     fields := [ column "posts" "title" "varchar" false true ] |}.

(** A collection without any field. *)
Definition postsWithoutFields : DirectusCollectionWithFields :=
  {| collection := "posts"; fields := [] |}.

(** A divider between two groups of columns. *)
Definition sectionDivider : DirectusField :=
  {| field := "divider-details"; type := "alias"; schema := None;
     meta := Some {| FieldMeta.collection := "posts";
                     FieldMeta.special := Some ["alias"; "no-data"];
                     FieldMeta.interface := Some "divider";
                     FieldMeta.options := None;
                     FieldMeta.required := false |} |}.

Definition postsWithSectionDivider : DirectusCollectionWithFields :=
  {| collection := "posts";
     fields := [ column "posts" "id" "uuid" false true; sectionDivider;
                 column "posts" "title" "varchar" false true ] |}.

(** A configuration whose object of custom mappings has no entry. *)
Definition emptyMappings : ZodirectusConfig :=
  {| collections := None; includeSystemCollections := None;
     customFieldMappings := Some [] |}.

(** A many-to-one field, and a resolver that sends every field to a
    collection whose name is a property every object inherits. *)
Definition ownerField : DirectusField :=
  {| field := "owner"; type := "uuid";
     schema := Some {| FieldSchema.data_type := "uuid";
                       FieldSchema.is_nullable := true;
                       FieldSchema.foreign_key_table := Some "constructor" |};
     meta := Some {| FieldMeta.collection := "posts";
                     FieldMeta.special := Some ["m2o"];
                     FieldMeta.interface := Some "select-dropdown-m2o";
                     FieldMeta.options := None;
                     FieldMeta.required := false |} |}.

Definition toConstructor : DirectusField -> option string :=
  fun _ => Some "constructor".

(** A tag field whose name contains "date". *)
Definition releaseDates : DirectusField :=
  {| field := "release_dates"; type := "json";
     schema := Some {| FieldSchema.data_type := "json";
                       FieldSchema.is_nullable := true;
                       FieldSchema.foreign_key_table := None |};
     meta := Some {| FieldMeta.collection := "albums";
                     FieldMeta.special := Some ["cast-json"];
                     FieldMeta.interface := Some "tags";
                     FieldMeta.options := None;
                     FieldMeta.required := false |} |}.

(** A radio field of raw type "date". *)
Definition radioDay : DirectusField :=
  {| field := "day"; type := "date";
     schema := Some {| FieldSchema.data_type := "date";
                       FieldSchema.is_nullable := true;
                       FieldSchema.foreign_key_table := None |};
     meta := Some {| FieldMeta.collection := "albums";
                     FieldMeta.special := None;
                     FieldMeta.interface := Some "select-radio";
                     FieldMeta.options := None;
                     FieldMeta.required := false |} |}.

(** An artifact that refers to the shared file definitions. *)
Definition postWithCover : GeneratedSchema.t :=
  artifact "posts"
    (Some "export const DrxPostSchema = z.object({ author: DrxUserSchema.optional(), cover: DrxFileSchema.nullable().optional(), thumb: DrxImageFileSchema.optional() });")
    (Some "export interface DrsPost { author?: DrsUser; cover?: DrsFile; thumb?: DrsImageFile; }").

(** A regular and a system entity that refer to each other. *)
Definition postByDirectusUser : GeneratedSchema.t :=
  artifact "posts"
    (Some "export const DrxPostSchema = z.object({ author: DrxDirectusUserSchema.nullable().optional(), editor: DrxUserSchema.optional() });")
    None.

Definition directusUserWithPosts : GeneratedSchema.t :=
  artifact "directus_users"
    (Some "export const DrxDirectusUserSchema = z.object({ posts: DrxPostSchema.nullable().optional(), role: DrxDirectusRoleSchema.optional() });")
    None.

(** The graph of the repository's cycle test. *)
Definition userPostGraph : DependencyUtils.Graph :=
  [("User", ["Post"]); ("Post", ["User"])].

(** A third entity between the two. *)
Definition userCommentPostGraph : DependencyUtils.Graph :=
  [("User", ["Comment"; "Post"]); ("Comment", ["Post"]); ("Post", ["User"])].

(* ================================================================= *)
(** ** Walks of the dependency graph

    What a recorded cycle is with respect to the graph, and the properties
    of a recursive call of the traversal that relate the two. *)

Module GraphWalks.
Import Js DependencyUtils CycleInvariants.

(** Every name of [p] has the next one in its dependency set. *)
Fixpoint isWalk (g : Graph) (p : list string) : bool :=
  match p with
  | [] => true
  | a :: r =>
      match r with
      | [] => true
      | b :: _ => inList b (neighbors g a) && isWalk g r
      end
  end.

(** A cycle of the graph: a walk that comes back to its first name and
    repeats no other. *)
Definition SimpleCycle (g : Graph) (c : list string) : Prop :=
  (exists x mid, c = (x :: mid ++ [x])%list /\ NoDup (x :: mid))
  /\ isWalk g c = true.

(** A call made at the end of a walk records cycles of the graph only. *)
Definition CallSound (g : Graph)
           (call : string -> list string -> State -> option State)
  : Prop :=
  forall node path st st',
    WF path st -> ~ In node (visited st) ->
    call node path st = Some st' ->
    NoDup path -> isWalk g (path ++ [node])%list = true ->
    (forall c, In c (circularDeps st) -> SimpleCycle g c) ->
    forall c, In c (circularDeps st') -> SimpleCycle g c.

(** A call leaves no node half done: what it visits has all its
    neighbours visited when it returns. *)
Definition CallClosed (g : Graph)
           (call : string -> list string -> State -> option State)
  : Prop :=
  forall node path st st',
    WF path st -> ~ In node (visited st) ->
    call node path st = Some st' ->
    forall z, ~ In z (visited st) -> In z (visited st') ->
              forall y, In y (neighbors g z) -> In y (visited st').

(** Every node visited since [base] has all its neighbours visited. *)
Definition ClosedSince (g : Graph) (base : list string) (st : State)
  : Prop :=
  forall z, ~ In z base -> In z (visited st) ->
            forall y, In y (neighbors g z) -> In y (visited st).

(** Some recorded cycle passes through a name of [names]. *)
Definition Hits (names : list string) (cycles : list (list string)) : Prop :=
  exists c y, In c cycles /\ In y names /\ In y c.

(** Some name of [names] is visited. *)
Definition Reached (names : list string) (st : State) : Prop :=
  exists z, In z names /\ In z (visited st).

(** A call that is the first to reach a name of [names] records a cycle
    through one of them. *)
Definition CallHits (names : list string)
           (call : string -> list string -> State -> option State)
  : Prop :=
  forall node path st st',
    WF path st -> ~ In node (visited st) ->
    call node path st = Some st' ->
    ~ Reached names st -> Reached names st' ->
    Hits names (circularDeps st').

End GraphWalks.
(* ================================================================= *)
(** ** Import lines and the files written *)

Module ImportKeys.

(** [importKey] of [generateImportStatements], the key under which an
    emitted line is remembered in [processedImports]:
    [`${schemaName}:${relatedFileName}`]. *)
Definition importKey (l : ImportPlan.Line) : string :=
  ImportPlan.schemaName l ++ ":"
  ++ StringUtils.toKebabCase (GeneratedSchema.collectionName (snd l)).

End ImportKeys.


(* ================================================================= *)
(** ** FileSchemaUtils: the fields of the shared file definitions *)

Module FileColumn.
(** An element of [fileFields: any[]], with the attributes
    [generateFileSchemaFields] and [generateFileInterfaceFields] read.
    The two flags are read for their truth value only. *)
Record schema_t : Type := {
  data_type : string;
  is_nullable : bool;
  is_primary_key : bool
}.

Record t : Type := {
  field : string;
  type : string;
  schema : option schema_t
}.
End FileColumn.

Module FileSchemaUtils.
Import Js.

(** [field.schema?.data_type || field.type] *)
Definition dataType (f : FileColumn.t) : string :=
  match FileColumn.schema f with
  | Some s => orElse (FileColumn.data_type s) (FileColumn.type f)
  | None => FileColumn.type f
  end.

(** [field.schema?.is_nullable] *)
Definition isNullable (f : FileColumn.t) : bool :=
  match FileColumn.schema f with
  | Some s => FileColumn.is_nullable s
  | None => false
  end.

(** [!field.schema?.is_nullable && !field.schema?.is_primary_key] *)
Definition isOptional (f : FileColumn.t) : bool :=
  match FileColumn.schema f with
  | Some s =>
      negb (FileColumn.is_nullable s) && negb (FileColumn.is_primary_key s)
  | None => true
  end.

(** The [switch] of [generateFileSchemaFields]. *)
Definition zodTypeOf (dataType : string) : string :=
  if String.eqb dataType "uuid" then "z.string().uuid()"
  else if inList dataType ["varchar"; "text"; "string"; "character varying"]
  then "z.string()"
  else if inList dataType ["integer"; "int"; "int4"]
  then "z.number().int()"
  else if inList dataType ["bigint"; "int8"] then "z.number().int()"
  else if inList dataType ["decimal"; "numeric"; "float"; "real"]
  then "z.number()"
  else if inList dataType ["boolean"; "bool"] then "z.boolean()"
  else if String.eqb dataType "date" then "z.string().date()"
  else if inList dataType ["datetime"; "timestamp"; "timestamptz"]
  then "z.string().datetime()"
  else if String.eqb dataType "time" then "z.string().time()"
  else if inList dataType ["json"; "jsonb"] then "z.any()"
  else "z.any()".

(** The [switch] of [generateFileInterfaceFields]. *)
Definition tsTypeOf (dataType : string) : string :=
  if inList dataType
       ["uuid"; "varchar"; "text"; "string"; "character varying"; "date";
        "datetime"; "timestamp"; "timestamptz"; "time"]
  then "string"
  else if inList dataType
            ["integer"; "int"; "int4"; "bigint"; "int8"; "decimal";
             "numeric"; "float"; "real"]
  then "number"
  else if inList dataType ["boolean"; "bool"] then "boolean"
  else if inList dataType ["json"; "jsonb"] then "any"
  else "any".

(** One turn of the loop of [generateFileSchemaFields]: the entry
    pushed. *)
Definition schemaEntry (f : FileColumn.t) : string :=
  let fieldName := FileColumn.field f in
  let zodType := zodTypeOf (dataType f) in
  let zodType := if isNullable f then zodType ++ ".nullable()"
                 else zodType in
  let zodType := if isOptional f then zodType ++ ".optional()"
                 else zodType in
  "    " ++ fieldName ++ ": " ++ zodType.

Definition generateFileSchemaFields (fileFields : list FileColumn.t)
  : string :=
  join ("," ++ nl) (map schemaEntry fileFields).

(** One turn of the loop of [generateFileInterfaceFields]. *)
Definition interfaceEntry (f : FileColumn.t) : string :=
  let fieldName := FileColumn.field f in
  let tsType := tsTypeOf (dataType f) in
  let fieldDef :=
    if isOptional f then fieldName ++ "?: " ++ tsType
    else fieldName ++ ": " ++ tsType in
  "  " ++ fieldDef.

Definition generateFileInterfaceFields (fileFields : list FileColumn.t)
  : string :=
  join (";" ++ nl) (map interfaceEntry fileFields).

Definition generateImageFileInterfaceFields
           (fileFields : list FileColumn.t) : string :=
  generateFileInterfaceFields fileFields.

End FileSchemaUtils.

(* ================================================================= *)
(** ** RelationshipUtils: the shared resolver of related collections *)

Module Relationship.
(** A relationship record ([any] in the source), with the attributes
    the resolver compares; a missing attribute is [None]. *)
Record t : Type := {
  one_collection : option string;
  one_field : option string;
  many_collection : option string;
  many_field : option string;
  junction_collection : option string
}.
End Relationship.

Module RelationshipUtils.
Import Js.

(** [a === b] on values that may be missing *)
Definition sameValue (a b : option string) : bool :=
  match a, b with
  | Some x, Some y => String.eqb x y
  | None, None => true
  | _, _ => false
  end.

(** The truth value of an option of a field *)
Definition given (o : option string) : bool :=
  match o with
  | Some t => truthy t
  | None => false
  end.

(** [s.split('_')] *)
Fixpoint splitChar (sep : ascii) (cur : string) (s : string)
  : list string :=
  match s with
  | EmptyString => [cur]
  | String c r =>
      if Ascii.eqb c sep then cur :: splitChar sep EmptyString r
      else splitChar sep (cur ++ String c EmptyString) r
  end.

Definition isManyToManyJunctionField (f : DirectusField) : bool :=
  inList "m2m" (Field.special f)
  || includes "m2m" (Field.interface_ f)
  || includes "many-to-many" (Field.interface_ f).

(** [field.meta?.collection] *)
Definition collectionOf (f : DirectusField) : option string :=
  match meta f with
  | Some m => Some (FieldMeta.collection m)
  | None => None
  end.

(** The search through [this.relationships]; [None] stands for [null]
    and for a missing attribute of the record found. *)
Definition fromRelationships (relationships : list Relationship.t)
           (collectionName : option string) (fieldName : string)
  : option string :=
  if (0 <? List.length relationships)%nat then
    match List.find
            (fun rel =>
               sameValue (Relationship.one_collection rel) collectionName
               && sameValue (Relationship.one_field rel) (Some fieldName)
               && negb (sameValue (Relationship.many_collection rel)
                                  collectionName))
            relationships with
    | Some m2mRelation => Relationship.many_collection m2mRelation
    | None =>
        match List.find
                (fun rel =>
                   sameValue (Relationship.many_collection rel)
                             collectionName
                   && sameValue (Relationship.many_field rel)
                                (Some fieldName)
                   && negb (sameValue (Relationship.one_collection rel)
                                      collectionName))
                relationships with
        | Some reverseM2mRelation =>
            Relationship.one_collection reverseM2mRelation
        | None =>
            match List.find
                    (fun rel =>
                       sameValue (Relationship.junction_collection rel)
                                 collectionName
                       && (negb (sameValue
                                   (Relationship.one_collection rel)
                                   collectionName)
                           || negb (sameValue
                                      (Relationship.many_collection rel)
                                      collectionName)))
                    relationships with
            | Some junctionRelation =>
                if sameValue (Relationship.one_collection junctionRelation)
                             collectionName
                then Relationship.many_collection junctionRelation
                else Relationship.one_collection junctionRelation
            | None => None
            end
        end
    end
  else None.

(** The block for a field tagged "m2m", behind the first two tests on
    the options. *)
Definition manyToManyName (relationships : list Relationship.t)
           (f : DirectusField) : option string :=
  let options := Field.options f in
  if given (Options.related_collection options)
  then Options.related_collection options
  else if given (Options.junction_collection options)
  then Options.junction_collection options
  else if given (Options.collection options)
  then Options.collection options
  else if given (Options.many_collection options)
  then Options.many_collection options
  else if given (Options.one_collection options)
  then Options.one_collection options
  else if given (Options.junction_table options) then
    match Options.junction_table options with
    | Some junctionTable =>
        if includes "_" junctionTable then
          let parts := splitChar "_" "" junctionTable in
          Some (last parts "" ++ "s")
        else Some junctionTable
    | None => None
    end
  else fromRelationships relationships (collectionOf f) (field f).

(** The block for the junction fields and the fields tagged "m2m";
    [None] when control leaves the block without a [return]. *)
Definition junctionName (relationships : list Relationship.t)
           (f : DirectusField) : option (option string) :=
  let special := Field.special f in
  let options := Field.options f in
  if inList "m2m" special || isManyToManyJunctionField f then
    if given (Options.junction_table options)
    then Some (Options.junction_table options)
    else if given (Options.related_collection options)
    then Some (Options.related_collection options)
    else
      let fieldName := field f in
      if inList "m2m" special then Some (manyToManyName relationships f)
      else if includes "_" fieldName then
        let parts := splitChar "_" "" fieldName in
        if (2 <=? List.length parts)%nat
        then Some (Some (last parts "" ++ "s"))
        else None
      else None
  else None.

(** [getRelatedCollectionName(field)]; the instance's [relationships]
    are the first argument. *)
Definition getRelatedCollectionName (relationships : list Relationship.t)
           (f : DirectusField) : option string :=
  let special := Field.special f in
  let options := Field.options f in
  if inList "m2o" special && Field.hasForeignKeyTable f then
    match schema f with
    | Some s => FieldSchema.foreign_key_table s
    | None => None
    end
  else
    match junctionName relationships f with
    | Some name => name
    | None =>
        if inList "o2m" special then
          if given (Options.related_collection options)
          then Options.related_collection options
          else if String.eqb (field f) "activity_logs"
          then Some "audit_activity_logs"
          else None
        else None
    end.

(** The hints of a field the resolver may hand back. *)
Definition hints (f : DirectusField) : list (option string) :=
  let options := Field.options f in
  [ match schema f with
    | Some s => FieldSchema.foreign_key_table s
    | None => None
    end;
    Options.junction_table options; Options.related_collection options;
    Options.junction_collection options; Options.collection options;
    Options.many_collection options; Options.one_collection options ].

End RelationshipUtils.

(* ================================================================= *)
(** ** FieldUtils: the field kinds of the shared helper

    [FieldUtils.isRelationField] and [FieldUtils.isJunctionTable] compare
    [foreign_key_table] with [undefined]; the data model does not tell a
    missing attribute from [null], and the two are left out. *)

Module FieldUtilsKinds.
Import Js.

Definition isFileField (f : DirectusField) : bool :=
  inList "file" (Field.special f) || inList "files" (Field.special f)
  || String.eqb (Field.interface_ f) "file"
  || String.eqb (Field.interface_ f) "file-image"
  || String.eqb (Field.interface_ f) "files".

Definition isManyToManyJunctionField (f : DirectusField) : bool :=
  inList "m2m" (Field.special f)
  || includes "m2m" (Field.interface_ f)
  || includes "many-to-many" (Field.interface_ f).

Definition isRadioButtonField (f : DirectusField) : bool :=
  String.eqb (Field.interface_ f) "radio-buttons".

Definition isDropdownMultipleField (f : DirectusField) : bool :=
  String.eqb (Field.interface_ f) "dropdown-multiple".

Definition isCheckboxTreeField (f : DirectusField) : bool :=
  String.eqb (Field.interface_ f) "checkbox-tree".

Definition isDateTimeField (f : DirectusField) : bool :=
  let directusType := Field.directusType f in
  String.eqb directusType "date" || String.eqb directusType "datetime"
  || String.eqb directusType "time".

Definition isAutocompleteField (f : DirectusField) : bool :=
  String.eqb (Field.interface_ f) "autocomplete".

Definition isTagField (f : DirectusField) : bool :=
  String.eqb (Field.interface_ f) "tags".

Definition isRepeaterField (f : DirectusField) : bool :=
  String.eqb (Field.interface_ f) "repeater".

(** [FieldUtils.getFieldsToOmitForCreate(fields, hasIdField)]: the array
    [fieldsToOmit] after the [push] for "id" and the loop over
    [systemFields]. *)
Definition getFieldsToOmitForCreate (fs : list DirectusField)
           (hasIdField : bool) : list string :=
  let fieldsToOmit := if hasIdField then ["id"] else [] in
  fold_left
    (fun fieldsToOmit systemField =>
       if existsb (fun f => String.eqb (field f) systemField) fs
       then (fieldsToOmit ++ [systemField])%list
       else fieldsToOmit)
    ["user_created"; "date_created"; "user_updated"; "date_updated"]
    fieldsToOmit.

End FieldUtilsKinds.

Module CollectionUtilsCreate.
Import Js.

(** [CollectionUtils.getFieldsToOmitForCreate(fields: any[],
    hasIdField)]; [name f] is [f.field]. *)
Definition getFieldsToOmitForCreate {A : Type} (name : A -> string)
           (fs : list A) (hasIdField : bool) : list string :=
  let fieldsToOmit := if hasIdField then ["id"] else [] in
  fold_left
    (fun fieldsToOmit systemField =>
       if existsb (fun f => String.eqb (name f) systemField) fs
       then (fieldsToOmit ++ [systemField])%list
       else fieldsToOmit)
    ["user_created"; "date_created"; "user_updated"; "date_updated"]
    fieldsToOmit.

End CollectionUtilsCreate.

(* ================================================================= *)
(** ** FileWriterUtils: the content of a written file *)

Module FileWriterUtils.
Import Js.

(** [ImportUtils.generateZodImport] *)
Definition generateZodImport (result : GeneratedSchema.t) : string :=
  match DependencyUtils.textOf (GeneratedSchema.schema result) with
  | Some _ => "import { z } from 'zod';" ++ nl
  | None => ""
  end.

(** [generateFileContent]; [None] when the import statements cannot be
    built. *)
Definition generateFileContent (result : GeneratedSchema.t)
           (results : list GeneratedSchema.t)
           (circularDeps : list (list string)) (isSystemCollection : bool)
  : option string :=
  let fileContent := "" in
  let fileContent := fileContent ++ generateZodImport result in
  let fileContent :=
    fileContent
    ++ ImportUtils.generateFileSchemaImport result isSystemCollection in
  match ImportUtils.generateImportStatements
          result results circularDeps isSystemCollection with
  | None => None
  | Some imports =>
      let fileContent := fileContent ++ imports in
      let fileContent :=
        if includes "import" fileContent then fileContent ++ nl
        else fileContent in
      let fileContent :=
        match DependencyUtils.textOf (GeneratedSchema.schema result) with
        | Some schema => fileContent ++ (schema ++ nl ++ nl)
        | None => fileContent
        end in
      let fileContent :=
        match DependencyUtils.textOf (GeneratedSchema.type result) with
        | Some type => fileContent ++ (type ++ nl)
        | None => fileContent
        end in
      Some fileContent
  end.

End FileWriterUtils.

(* ================================================================= *)
(** ** More sample inputs *)

(** A field tagged "m2m" whose options name its own collection. *)
Definition relatedPosts : DirectusField :=
  {| field := "related"; type := "alias"; schema := None;
     meta := Some {| FieldMeta.collection := "posts";
                     FieldMeta.special := Some ["m2m"];
                     FieldMeta.interface := Some "list-m2m";
                     FieldMeta.options :=
                       Some {| Options.choices := [];
                               Options.options := [];
                               Options.suggestions := [];
                               Options.presets := [];
                               Options.fields := [];
                               Options.junction_table := None;
                               Options.related_collection := Some "posts";
                               Options.junction_collection := None;
                               Options.collection := None;
                               Options.many_collection := None;
                               Options.one_collection := None |};
                     FieldMeta.required := false |} |}.

(** A column, by its name, raw type and nullability. *)
Definition plainColumn (name type : string) (nullable : bool)
  : DirectusField :=
  {| field := name; type := type;
     schema := Some {| FieldSchema.data_type := type;
                       FieldSchema.is_nullable := nullable;
                       FieldSchema.foreign_key_table := None |};
     meta := None |}.

(** A graph without cycle. *)
Definition postUserGraph : DependencyUtils.Graph := [("Post", ["User"])].

(* ================================================================= *)
(** * Properties *)

(** ** The repository's tests, replayed *)

(** Checks taken from the repository's own test-suite. *)
Example toPascalCase_tests :
  StringUtils.toPascalCase "user_created" = "UserCreated"
  /\ StringUtils.toPascalCase "directus_users" = "DirectusUsers"
  /\ StringUtils.toPascalCase "UserCreated" = "Usercreated"
  /\ StringUtils.toPascalCase "" = "".
Proof. repeat split; reflexivity. Qed.

Example toKebabCase_tests :
  StringUtils.toKebabCase "UserCreated" = "user-created"
  /\ StringUtils.toKebabCase "DirectusUsers" = "directus-users"
  /\ StringUtils.toKebabCase "user_created" = "user-created"
  /\ StringUtils.toKebabCase "User" = "user"
  /\ StringUtils.toKebabCase "" = "".
Proof. repeat split; reflexivity. Qed.

Example toSingular_tests :
  StringUtils.toSingular "Users" = Some "User"
  /\ StringUtils.toSingular "DirectusUsers" = Some "DirectusUser"
  /\ StringUtils.toSingular "DirectusRoles" = Some "DirectusRole"
  /\ StringUtils.toSingular "DialogueQuestionAnswers"
     = Some "DialogueQuestionAnswer"
  /\ StringUtils.toSingular "AnswerEnablers" = Some "AnswerEnabler"
  /\ StringUtils.toSingular "Categories" = Some "Category"
  /\ StringUtils.toSingular "Access" = Some "Access"
  /\ StringUtils.toSingular "Process" = Some "Proces"
  /\ StringUtils.toSingular "DirectusAccess" = Some "DirectusAcces"
  /\ StringUtils.toSingular "Children" = Some "Child"
  /\ StringUtils.toSingular "People" = Some "Person"
  /\ StringUtils.toSingular "User" = Some "User"
  /\ StringUtils.toSingular "" = Some "".
Proof. repeat split; vm_compute; reflexivity. Qed.


Example buildDependencyGraph_test :
  DependencyUtils.buildDependencyGraph
    [ artifact "users"
        (Some "export const DrxUserSchema = z.object({ posts: DrxPostSchema.nullable().optional() });")
        None;
      artifact "posts"
        (Some "export const DrxPostSchema = z.object({ author: DrxUserSchema.nullable().optional() });")
        None;
      artifact "comments"
        (Some "export const DrxCommentSchema = z.object({ post: DrxPostSchema.nullable().optional() });")
        None ]
  = Some [("User", ["Post"]); ("Post", ["User"]); ("Comment", ["Post"])].
Proof. vm_compute. reflexivity. Qed.

Example buildDependencyGraph_no_dependencies :
  DependencyUtils.buildDependencyGraph
    [ artifact "users"
        (Some "export const DrxUserSchema = z.object({ name: z.string() });")
        None ]
  = Some [].
Proof. vm_compute. reflexivity. Qed.

Example detectCircularDependencies_test :
  DependencyUtils.detectCircularDependencies
    [("User", ["Post"]); ("Post", ["User"])]
  = Some [["User"; "Post"; "User"]].
Proof. vm_compute. reflexivity. Qed.

Example detectCircularDependencies_test_reversed :
  DependencyUtils.detectCircularDependencies
    [("Post", ["User"]); ("User", ["Post"])]
  = Some [["Post"; "User"; "Post"]].
Proof. vm_compute. reflexivity. Qed.

Example detectCircularDependencies_acyclic :
  DependencyUtils.detectCircularDependencies
    [("User", ["Post"]); ("Post", ["Comment"]); ("Comment", [])]
  = Some [].
Proof. vm_compute. reflexivity. Qed.

Example isCircularDependency_test :
  let cycles := [["User"; "Post"; "User"]; ["Comment"; "Post"; "Comment"]] in
  DependencyUtils.isCircularDependency "User" "Post" cycles = true
  /\ DependencyUtils.isCircularDependency "Post" "User" cycles = true
  /\ DependencyUtils.isCircularDependency "Comment" "Post" cycles = true
  /\ DependencyUtils.isCircularDependency "User" "Comment" cycles = false.
Proof. repeat split; reflexivity. Qed.


Example extractRelatedCollections_tests :
  ImportUtils.extractRelatedCollections
    (artifact "posts"
       (Some "export const DrxPostSchema = z.object({ author: DrxUserSchema.nullable().optional(), comments: z.array(DrxCommentSchema).optional() });")
       None)
  = Some ["User"; "Comment"]
  /\ ImportUtils.extractRelatedCollections
       (artifact "posts" None
          (Some "export interface DrsPost { author: DrsUser; comments: DrsComment[]; }"))
     = Some ["User"; "Comment"]
  /\ ImportUtils.extractRelatedCollections
       (artifact "users"
          (Some "export const DrxUserSchema = z.object({ avatar: DrxFileSchema.nullable().optional(), image: DrxImageFileSchema.nullable().optional() });")
          None)
     = Some [].
Proof. repeat split; vm_compute; reflexivity. Qed.

Example generateImportStatements_tests :
  ImportUtils.generateImportStatements
    (artifact "comments"
       (Some "export const DrxCommentSchema = z.object({ post: DrxPostSchema.nullable().optional() });")
       None)
    mockResults [] false
  = Some ("import { DrxPostSchema, type DrsPost } from './posts';" ++ nl)
  /\ ImportUtils.generateImportStatements
       (artifact "directus_policies"
          (Some "export const DrxDirectusPolicySchema = z.object({ role: DrxDirectusRoleSchema.nullable().optional() });")
          None)
       mockResults [] true
     = Some ("import { DrxDirectusRoleSchema, type DrsDirectusRole } from './directus-roles';"
             ++ nl)
  /\ ImportUtils.generateImportStatements
       (artifact "posts"
          (Some "export const DrxPostSchema = z.object({ author: DrxDirectusUserSchema.nullable().optional() });")
          None)
       mockResults [] false
     = Some ("import { DrxDirectusUserSchema, type DrsDirectusUser } from './system/directus-users';"
             ++ nl)
  /\ ImportUtils.generateImportStatements
       (artifact "directus_users"
          (Some "export const DrxDirectusUserSchema = z.object({ posts: DrxPostSchema.nullable().optional() });")
          None)
       mockResults [] true
     = Some ("import { DrxPostSchema, type DrsPost } from '../posts';" ++ nl)
  /\ ImportUtils.generateImportStatements
       (artifact "posts"
          (Some "export const DrxPostSchema = z.object({ author: DrxUserSchema.nullable().optional(), creator: DrxUserSchema.nullable().optional() });")
          None)
       mockResults [] false
     = Some ("import { DrxUserSchema, type DrsUser } from './users';" ++ nl).
Proof. repeat split; vm_compute; reflexivity. Qed.
(** The first test of the repository's suite for [generateSchema] expects
    a text with three entries for this collection; so does the suite of
    [generateType].  Neither call returns. *)
Example generateSchema_users :
  ZodGenerator.generateSchema noRelation plainConfig noChoice
                              usersCollection false = None.
Proof. reflexivity. Qed.

Example generateType_users :
  TypeGenerator.generateType noRelation plainConfig noChoice usersCollection
  = None.
Proof. reflexivity. Qed.

(** The entries the tests expect are those of the per-field functions. *)
Example generateFieldSchema_users :
  map (ZodGenerator.generateFieldSchema noRelation plainConfig noChoice)
      (fields usersCollection)
  = [ Some "id: z.string().uuid()"; Some "email: z.string()";
      Some "first_name: z.string().nullable().optional()" ].
Proof. vm_compute. reflexivity. Qed.

Example generateFieldType_users :
  map (TypeGenerator.generateFieldType noRelation plainConfig noChoice)
      (fields usersCollection)
  = [ "id: string"; "email: string"; "first_name?: string" ].
Proof. vm_compute. reflexivity. Qed.

(** The modifiers of [generateFieldSchema], case by case: a nullable
    column, a NOT NULL column, a required one, and a field without
    [schema] or [meta]. *)
Example generateFieldSchema_cases :
  ZodGenerator.generateFieldSchema noRelation plainConfig noChoice
    (column "users" "nickname" "varchar" true false)
  = Some "nickname: z.string().nullable().optional()"
  /\ ZodGenerator.generateFieldSchema noRelation plainConfig noChoice
       (column "users" "nickname" "varchar" false false)
     = Some "nickname: z.string().optional()"
  /\ ZodGenerator.generateFieldSchema noRelation plainConfig noChoice
       (column "users" "nickname" "varchar" true true)
     = Some "nickname: z.string()"
  /\ ZodGenerator.generateFieldSchema noRelation plainConfig noChoice
       (column "users" "nickname" "varchar" false true)
     = Some "nickname: z.string()"
  /\ ZodGenerator.generateFieldSchema noRelation plainConfig noChoice
       {| field := "nickname"; type := "varchar"; schema := None;
          meta := None |}
     = Some "nickname: z.string().nullable().optional()".
Proof. vm_compute. repeat split; reflexivity. Qed.

(** Without fields the callback of the filter never runs, and both
    emitters return: the identifier is the only entry, and the create
    definitions omit it. *)
Example generateSchema_no_fields :
  ZodGenerator.generateSchema noRelation plainConfig noChoice
                              postsWithoutFields false
  = Some ("export const DrxPostSchema = z.object({" ++ nl
          ++ "    id: z.string().uuid().optional()" ++ nl
          ++ "});" ++ nl ++ nl
          ++ "export const DrxPostCreateSchema = DrxPostSchema.omit({" ++ nl
          ++ "    id: true" ++ nl
          ++ "});" ++ nl ++ nl
          ++ "export const DrxPostUpdateSchema = DrxPostSchema.partial().required({"
          ++ nl
          ++ "    id: true" ++ nl
          ++ "});" ++ nl ++ nl
          ++ "export const DrxPostGetSchema = DrxPostSchema;").
Proof. vm_compute. reflexivity. Qed.

Example generateType_no_fields :
  TypeGenerator.generateType noRelation plainConfig noChoice
                             postsWithoutFields
  = Some ("export interface DrsPost {" ++ nl
          ++ "  id?: string;" ++ nl
          ++ "}" ++ nl ++ nl
          ++ "export type DrsPostCreate = Omit<DrsPost, " ++ dq ++ "id" ++ dq
          ++ ">;" ++ nl ++ nl
          ++ "export type DrsPostUpdate = Partial<DrsPost> & Required<Pick<DrsPost, "
          ++ dq ++ "id" ++ dq ++ ">>;" ++ nl ++ nl
          ++ "export type DrsPostGet = DrsPost;").
Proof. vm_compute. reflexivity. Qed.

(** The tests of [FieldUtils]. *)
Example fieldUtils_tests :
  FieldUtils.isDividerField
    (mockField "divider" "alias" (Some []) (Some "divider")) = true
  /\ FieldUtils.isDividerField
       (mockField "separator" "alias" (Some []) (Some "divider")) = true
  /\ FieldUtils.isDividerField (mockField "name" "varchar" None None) = false
  /\ FieldUtils.isNoticeField
       (mockField "notice" "alias" (Some []) (Some "notice")) = true
  /\ FieldUtils.isNoticeField
       (mockField "separator" "alias" (Some []) (Some "notice")) = true
  /\ FieldUtils.isNoticeField (mockField "name" "varchar" None None) = false
  /\ FieldKinds.isFileField
       (mockField "avatar" "uuid" (Some ["file"]) None) = true
  /\ FieldKinds.isFileField
       (mockField "image" "uuid" (Some []) (Some "file-image")) = true
  /\ FieldKinds.isFileField (mockField "name" "varchar" None None) = false.
Proof. repeat split; reflexivity. Qed.

(** The create omission list on a field list that holds a divider with
    an audit name. *)
Example getFieldsToOmitForCreate_cases :
  FieldKinds.getFieldsToOmitForCreate (fields postsWithDivider) true
  = ["id"; "date_created"]
  /\ FieldKinds.getFieldsToOmitForCreate (fields usersCollection) true
     = ["id"]
  /\ FieldKinds.getFieldsToOmitForCreate (fields postsWithoutId) false
     = ["id"].
Proof. repeat split; reflexivity. Qed.

(** A raw type that names a member every object inherits, under a
    configuration with an object of custom mappings. *)
Example customMapping_inherited :
  ZodGenerator.generateFieldSchema noRelation emptyMappings noChoice
    (column "posts" "kind" "constructor" false true)
  = Some "kind: function Object() { [native code] }"
  /\ TypeGenerator.generateFieldType noRelation emptyMappings noChoice
       (column "posts" "kind" "toString" false true)
     = "kind: function toString() { [native code] }"
  /\ ZodGenerator.generateFieldSchema noRelation plainConfig noChoice
       (column "posts" "kind" "constructor" false true)
     = Some "kind: z.string()"
  /\ ZodGenerator.generateFieldSchema
       noRelation
       {| collections := None; includeSystemCollections := None;
          customFieldMappings := Some [("point", "z.any()")] |}
       noChoice (column "posts" "place" "point" false true)
     = Some "place: z.any()".
Proof. vm_compute. repeat split; reflexivity. Qed.


(** ** Strings *)

Section StringFacts.
Import Js.

Lemma str_length_app (a b : string) :
  String.length (a ++ b) = String.length a + String.length b.
Proof. induction a as [|c a IH]; simpl; [reflexivity | now rewrite IH]. Qed.

Lemma str_app_assoc (a b c : string) : (a ++ b) ++ c = a ++ (b ++ c).
Proof. induction a as [|x a IH]; simpl; [reflexivity | now rewrite IH]. Qed.

Lemma str_app_nil_r (a : string) : a ++ "" = a.
Proof. induction a as [|x a IH]; simpl; [reflexivity | now rewrite IH]. Qed.

Lemma substring_0_app (a b : string) :
  substring 0 (String.length a) (a ++ b) = a.
Proof.
  induction a as [|x a IH]; simpl.
  - destruct b; reflexivity.
  - now rewrite IH.
Qed.

Lemma drop_app (a b : string) : drop (String.length a) (a ++ b) = b.
Proof. induction a as [|x a IH]; simpl; [reflexivity | exact IH]. Qed.

Lemma dropRight_app (a b : string) :
  dropRight (String.length b) (a ++ b) = a.
Proof.
  unfold dropRight. rewrite str_length_app.
  replace (String.length a + String.length b - String.length b)
    with (String.length a) by lia.
  apply substring_0_app.
Qed.

Lemma takeRight_app (a b : string) :
  takeRight (String.length b) (a ++ b) = b.
Proof.
  unfold takeRight. rewrite str_length_app.
  replace (String.length a + String.length b - String.length b)
    with (String.length a) by lia.
  apply drop_app.
Qed.

Lemma endsWith_app (a b : string) : endsWith b (a ++ b) = true.
Proof.
  unfold endsWith. rewrite takeRight_app, String.eqb_refl, str_length_app.
  rewrite andb_true_r. apply Nat.leb_le. lia.
Qed.

Lemma endsWith_spec (suf s : string) :
  endsWith suf s = true -> exists a, s = a ++ suf.
Proof.
  unfold endsWith, takeRight. intros H.
  apply andb_true_iff in H as [Hlen Heq].
  apply Nat.leb_le in Hlen. apply String.eqb_eq in Heq.
  remember (String.length s - String.length suf) as n eqn:Hn. clear Hn Hlen.
  revert s Heq. induction n as [|n IH]; intros s Heq.
  - exists "". simpl in *. destruct s; simpl in Heq; now subst.
  - destruct s as [|c s]; simpl in Heq.
    + exists "". now subst.
    + destruct (IH _ Heq) as [a ->]. now exists (String c a).
Qed.

Lemma prefix_nil (s : string) : String.prefix "" s = true.
Proof. destruct s; reflexivity. Qed.

Lemma prefix_app (a b : string) : String.prefix a (a ++ b) = true.
Proof.
  induction a as [|x a IH]; simpl.
  - apply prefix_nil.
  - destruct (ascii_dec x x); [exact IH | congruence].
Qed.

Lemma allStr_app (p : ascii -> bool) (a b : string) :
  allStr p (a ++ b) = allStr p a && allStr p b.
Proof.
  induction a as [|x a IH]; simpl; [reflexivity|].
  now rewrite IH, andb_assoc.
Qed.

Lemma inList_In (x : string) (xs : list string) :
  inList x xs = true <-> In x xs.
Proof.
  unfold inList. rewrite existsb_exists. split.
  - intros [y [Hy He]]. apply String.eqb_eq in He. now subst.
  - intros H. exists x. split; [assumption | apply String.eqb_refl].
Qed.

Lemma inList_false (x : string) (xs : list string) :
  inList x xs = false <-> ~ In x xs.
Proof.
  rewrite <- inList_In. destruct (inList x xs); split; congruence.
Qed.

End StringFacts.

(** ** Naming engine *)

Section NamingFacts.
Import Js StringUtils.

Lemma directus_not_inherited (s : string) :
  inList ("directus" ++ s) inheritedKeys = false.
Proof. reflexivity. Qed.

Lemma directus_not_irregular (s : string) :
  assoc ("directus" ++ s) irregularPlurals = None.
Proof. reflexivity. Qed.

Lemma endsWith_s_of_ies (a : string) : endsWith "s" (a ++ "ies") = true.
Proof.
  replace (a ++ "ies") with ((a ++ "ie") ++ "s")
    by (rewrite str_app_assoc; reflexivity).
  apply endsWith_app.
Qed.

Lemma matchTail_here (tail : string -> option string) (s g : string) :
  tail s = Some g -> matchTail tail s = Some ("", g).
Proof. intros H. destruct s; simpl; now rewrite H. Qed.

(** The stage of the reserved prefix on a word "Directus", one capital,
    lower-case letters, "ies". *)
Lemma directusRule_ies (u : ascii) (lows : string) :
  isUpper u = true -> allStr isLower lows = true ->
  directusRule ("Directus" ++ String u (lows ++ "ies"))
  = Some ("Directus" ++ String u (lows ++ "y")).
Proof.
  intros Hu Hl.
  set (word := "Directus" ++ String u (lows ++ "ies")).
  assert (Hw : word = ("Directus" ++ String u lows) ++ "ies").
  { unfold word. rewrite str_app_assoc. reflexivity. }
  assert (Hies : endsWith "ies" word = true)
    by (rewrite Hw; apply endsWith_app).
  assert (Hs : endsWith "s" word = true)
    by (rewrite Hw; apply endsWith_s_of_ies).
  assert (Htail : directusTailIes word = Some (String u (lows ++ "ies"))).
  { unfold directusTailIes, directusTail, word.
    rewrite prefix_app. simpl drop. cbv iota.
    rewrite Hu, allStr_app, Hl. simpl allStr. simpl andb. cbv iota.
    now rewrite endsWith_app. }
  unfold directusRule.
  replace (startsWith "Directus" word) with true
    by (symmetry; apply prefix_app).
  replace (8 <? String.length word)%nat with true
    by (symmetry; apply Nat.ltb_lt; unfold word;
        rewrite str_length_app; simpl; lia).
  rewrite Hs, Hies. simpl andb. cbv iota.
  rewrite (matchTail_here _ _ _ Htail).
  replace (String u (lows ++ "ies")) with (String u lows ++ "ies")
    by reflexivity.
  change 3 with (String.length "ies").
  rewrite dropRight_app. simpl. reflexivity.
Qed.

(** [toSingular] fails only where the lookup in the table of irregular
    plurals hits an inherited property. *)
Lemma toSingular_None (word : string) :
  toSingular word = None -> In (toLowerCase word) inheritedKeys.
Proof.
  unfold toSingular.
  destruct (String.length word <=? 1)%nat; [discriminate|].
  destruct (inList (toLowerCase word) inheritedKeys) eqn:E.
  - intros _. now apply inList_In.
  - destruct (assoc _ irregularPlurals); [discriminate|].
    destruct (directusRule word); [discriminate|].
    destruct (compoundRule word); discriminate.
Qed.

End NamingFacts.

(** C9.  [toSingular("DirectusPolicies")] is ["DirectusPolicy"]; more
    generally, on a word made of the reserved prefix "Directus", one capital
    letter, lower-case letters and the ending "ies", [toSingular] keeps the
    prefix and the segment and turns the ending "ies" into "y". *)
Theorem toSingular_directus_ies :
  StringUtils.toSingular "DirectusPolicies" = Some "DirectusPolicy"
  /\ forall (u : ascii) (lows : string),
       Js.isUpper u = true ->
       Js.allStr Js.isLower lows = true ->
       StringUtils.toSingular ("Directus" ++ String u (lows ++ "ies"))
       = Some ("Directus" ++ String u (lows ++ "y")).
Proof.
  split; [vm_compute; reflexivity|].
  intros u lows Hu Hl. unfold StringUtils.toSingular.
  replace (String.length ("Directus" ++ String u (lows ++ "ies")) <=? 1)%nat
    with false by reflexivity.
  replace (Js.toLowerCase ("Directus" ++ String u (lows ++ "ies")))
    with ("directus" ++ Js.toLowerCase (String u (lows ++ "ies")))
    by reflexivity.
  rewrite directus_not_inherited, directus_not_irregular.
  now rewrite directusRule_ies.
Qed.

Lemma toSingular_directus_ies_witness :
  Js.isUpper "C" = true
  /\ Js.allStr Js.isLower "ategor" = true
  /\ StringUtils.toSingular "DirectusCategories" = Some "DirectusCategory".
Proof.
  split; [reflexivity|]. split; [reflexivity|].
  apply (proj2 toSingular_directus_ies "C"%char "ategor"); reflexivity.
Defined.

(** ** Collection filtering *)

(** C10.  Whatever the collection list and the configuration,
    [filterCollections] never returns a collection named "Dialogues",
    "Expert_System", "Models" or "settings", also when the configuration
    asks for it by name. *)
Theorem filterCollections_drops_folders :
  forall (A : Type) (name : A -> string) (cols : list A)
         (config : ZodirectusConfig) (c : A),
    In c (CollectionUtils.filterCollections name cols config) ->
    ~ In (name c) ["Dialogues"; "Expert_System"; "Models"; "settings"].
Proof.
  intros A name cols config c H.
  unfold CollectionUtils.filterCollections in H.
  apply filter_In in H as [_ H].
  apply negb_true_iff in H.
  apply inList_false in H. exact H.
Qed.

Lemma filterCollections_drops_folders_witness :
  CollectionUtils.filterCollections
    (fun n : string => n)
    ["Dialogues"; "users"; "Models"; "settings"; "Expert_System"]
    requestedFolders = ["users"]
  /\ ~ In "users" ["Dialogues"; "Expert_System"; "Models"; "settings"].
Proof.
  split; [reflexivity|].
  apply (filterCollections_drops_folders string (fun n => n)
           ["Dialogues"; "users"; "Models"; "settings"; "Expert_System"]
           requestedFolders "users").
  simpl. left. reflexivity.
Defined.

(** ** Emitters *)

Section EmitterFacts.
Import Js FieldKinds.

(** The parameters of the validator emitter: the resolver, the
    configuration and the Choice stage. *)
Variable zodRelated : DirectusField -> option string.
Variable config : ZodirectusConfig.
Variable zodChoice : DirectusField -> option string.

Let getZodType := ZodGenerator.getZodType zodRelated config zodChoice.
Let generateFieldSchema :=
  ZodGenerator.generateFieldSchema zodRelated config zodChoice.

Lemma hasField_exists (name : string) (fs : list DirectusField) :
  hasField name fs = true <-> exists f, In f fs /\ field f = name.
Proof.
  unfold hasField. rewrite existsb_exists. split.
  - intros [f [Hf He]]. apply String.eqb_eq in He. eauto.
  - intros [f [Hf <-]]. exists f. split; [assumption|].
    apply String.eqb_refl.
Qed.

(** C6.  The entry [generateFieldSchema] writes for a field is its name
    and its base expression [zodType], followed by the modifiers.  The
    field is nullable when its [schema] says so, or has no [schema]; it
    is required when its [meta] says so.  Nullable and not required:
    [.nullable()] first, [.optional()] after it.  Not nullable and not
    required: [.optional()] alone.  Required: no modifier. *)
Theorem generateFieldSchema_modifiers :
  forall (f : DirectusField) (zodType : string),
    getZodType f = Some zodType ->
    (match schema f with
     | Some s => FieldSchema.is_nullable s
     | None => true
     end = true ->
     match meta f with
     | Some m => FieldMeta.required m
     | None => false
     end = false ->
     generateFieldSchema f
     = Some (field f ++ ": " ++ zodType ++ ".nullable()" ++ ".optional()"))
    /\ (match schema f with
        | Some s => FieldSchema.is_nullable s
        | None => true
        end = false ->
        match meta f with
        | Some m => FieldMeta.required m
        | None => false
        end = false ->
        generateFieldSchema f
        = Some (field f ++ ": " ++ zodType ++ ".optional()"))
    /\ (match meta f with
        | Some m => FieldMeta.required m
        | None => false
        end = true ->
        generateFieldSchema f = Some (field f ++ ": " ++ zodType)).
Proof.
  intros f zodType Hz.
  unfold generateFieldSchema, ZodGenerator.generateFieldSchema.
  fold getZodType. rewrite Hz.
  unfold Field.isNullable, Field.isRequired.
  repeat split.
  - intros -> ->. simpl. now rewrite !str_app_assoc.
  - intros -> ->. simpl. now rewrite !str_app_assoc.
  - intros ->. rewrite andb_false_r. reflexivity.
Qed.

End EmitterFacts.

Lemma generateFieldSchema_modifiers_witness :
  ZodGenerator.generateFieldSchema noRelation plainConfig noChoice
    (column "users" "first_name" "varchar" true false)
  = Some ("first_name" ++ ": " ++ "z.string()"
          ++ ".nullable()" ++ ".optional()")
  /\ ZodGenerator.generateFieldSchema noRelation plainConfig noChoice
       (column "users" "nickname" "varchar" false false)
     = Some ("nickname" ++ ": " ++ "z.string()" ++ ".optional()")
  /\ ZodGenerator.generateFieldSchema noRelation plainConfig noChoice
       (column "users" "email" "varchar" false true)
     = Some ("email" ++ ": " ++ "z.string()").
Proof.
  split; [|split].
  - apply (proj1 (generateFieldSchema_modifiers
                    noRelation plainConfig noChoice
                    (column "users" "first_name" "varchar" true false)
                    "z.string()" eq_refl));
      reflexivity.
  - apply (proj1 (proj2 (generateFieldSchema_modifiers
                           noRelation plainConfig noChoice
                           (column "users" "nickname" "varchar" false false)
                           "z.string()" eq_refl)));
      reflexivity.
  - apply (proj2 (proj2 (generateFieldSchema_modifiers
                           noRelation plainConfig noChoice
                           (column "users" "email" "varchar" false true)
                           "z.string()" eq_refl)));
      reflexivity.
Defined.

(** ** The create variant *)

(** C5.  The omission list of the create variant, as
    [getFieldsToOmitForCreate] of both emitters builds it from the field
    list of a collection: "id" is always in it; each of the four audit
    fields is in it exactly when the list holds a field of that name; and
    nothing else is in it.  The flag [hasIdField] has no influence. *)
Theorem create_omission_list :
  forall (c : DirectusCollectionWithFields) (hasIdField : bool),
    let omitted :=
      FieldKinds.getFieldsToOmitForCreate (fields c) hasIdField in
    In "id" omitted
    /\ (forall a,
           In a ["user_created"; "date_created"; "user_updated";
                 "date_updated"] ->
           (In a omitted <-> exists f, In f (fields c) /\ field f = a))
    /\ (forall x,
           In x omitted ->
           x = "id"
           \/ In x ["user_created"; "date_created"; "user_updated";
                    "date_updated"]).
Proof.
  intros c hasIdField.
  unfold FieldKinds.getFieldsToOmitForCreate. cbv zeta.
  split; [apply in_eq|]. split.
  - intros a Ha. split.
    + intros Hin. apply in_inv in Hin as [Hid|Hin].
      * subst a. simpl in Ha. intuition discriminate.
      * apply filter_In in Hin as [_ Hin]. now apply hasField_exists.
    + intros Hex. apply in_cons. apply filter_In. split; [exact Ha|].
      now apply hasField_exists.
  - intros x Hin. apply in_inv in Hin as [<-|Hin]; [now left|].
    right. apply filter_In in Hin as [Hin _]. exact Hin.
Qed.

(** ** The filter of UI-only fields *)

Section FilterFacts.
Import Js FieldKinds.

Variable zodRelated typeRelated : DirectusField -> option string.
Variable config : ZodirectusConfig.
Variable zodChoice typeChoice : DirectusField -> option string.

(** The filter of the two emitters returns for the empty field list
    only. *)
Lemma filteredFields_Some (c : DirectusCollectionWithFields)
      (filtered : list DirectusField) :
  ZodGenerator.filteredFields c = Some filtered ->
  fields c = [] /\ filtered = [].
Proof.
  unfold ZodGenerator.filteredFields.
  destruct (fields c) as [|f rest]; simpl; [|discriminate].
  intros H. injection H as <-. split; reflexivity.
Qed.

(** With a field in the list, [generateSchema] does not return. *)
Lemma generateSchema_with_fields (name : string) (f : DirectusField)
      (rest : list DirectusField) (circular : bool) :
  ZodGenerator.generateSchema zodRelated config zodChoice
    {| collection := name; fields := f :: rest |} circular = None.
Proof.
  unfold ZodGenerator.generateSchema.
  destruct (ZodGenerator.schemaNameOf _); reflexivity.
Qed.

(** Nor does [generateType]. *)
Lemma generateType_with_fields (name : string) (f : DirectusField)
      (rest : list DirectusField) :
  TypeGenerator.generateType typeRelated config typeChoice
    {| collection := name; fields := f :: rest |} = None.
Proof. reflexivity. Qed.

End FilterFacts.

(** C3, at a collection without identifier field.  Whatever the
    resolvers, the configuration and the Choice stages are, neither
    emitter returns a text for it: the call of [this.isUiOnlyField] for the
    first field fails before the identifier is put in front. *)
Theorem synthetic_identifier_failing_input :
  forall (zodRelated typeRelated : DirectusField -> option string)
         (config : ZodirectusConfig)
         (zodChoice typeChoice : DirectusField -> option string)
         (isCircularDependency : bool),
    FieldKinds.hasField "id" (fields postsWithoutId) = false
    /\ ZodGenerator.generateSchema zodRelated config zodChoice
         postsWithoutId isCircularDependency = None
    /\ TypeGenerator.generateType typeRelated config typeChoice
         postsWithoutId = None.
Proof.
  intros zodRelated typeRelated config zodChoice typeChoice circular.
  split; [reflexivity|]. split.
  - unfold postsWithoutId. apply generateSchema_with_fields.
  - unfold postsWithoutId. apply generateType_with_fields.
Qed.

(** C4, at a collection with a divider.  The field is a divider for
    [FieldUtils.isDividerField]; [FieldUtils.isUiOnlyField] fails on it, as
    on every field; and neither emitter returns a text for the
    collection. *)
Theorem ui_only_field_failing_input :
  forall (zodRelated typeRelated : DirectusField -> option string)
         (config : ZodirectusConfig)
         (zodChoice typeChoice : DirectusField -> option string)
         (isCircularDependency : bool),
    In sectionDivider (fields postsWithSectionDivider)
    /\ FieldUtils.isDividerField sectionDivider = true
    /\ FieldUtils.isUiOnlyField sectionDivider = None
    /\ ZodGenerator.generateSchema zodRelated config zodChoice
         postsWithSectionDivider isCircularDependency = None
    /\ TypeGenerator.generateType typeRelated config typeChoice
         postsWithSectionDivider = None.
Proof.
  intros zodRelated typeRelated config zodChoice typeChoice circular.
  split; [simpl; auto|]. split; [reflexivity|]. split; [reflexivity|].
  split.
  - unfold postsWithSectionDivider. apply generateSchema_with_fields.
  - unfold postsWithSectionDivider. apply generateType_with_fields.
Qed.

(** ** The classification chain *)

Section ChainFacts.
Import Js FieldKinds.

Variable zodRelated typeRelated : DirectusField -> option string.
Variable config : ZodirectusConfig.
Variable zodChoice typeChoice : DirectusField -> option string.

Let getZodType := ZodGenerator.getZodType zodRelated config zodChoice.
Let getTypeScriptType :=
  TypeGenerator.getTypeScriptType typeRelated config typeChoice.

(** The interface decides the six UI-specific kinds, so at most one of the
    predicates holds. *)
Lemma interface_kinds_exclusive (f : DirectusField) (i j : string) :
  String.eqb (Field.interface_ f) i = true -> i <> j ->
  String.eqb (Field.interface_ f) j = false.
Proof.
  intros Hi Hij. apply String.eqb_eq in Hi. apply String.eqb_neq. congruence.
Qed.

Ltac other_kinds H :=
  unfold isRadioButtonField, isDropdownMultipleField, isCheckboxTreeField,
    isAutocompleteField, isTagField, isRepeaterField in *;
  repeat match goal with
         | |- context [String.eqb (Field.interface_ ?f) ?j] =>
             first
               [ rewrite H
               | rewrite (interface_kinds_exclusive f _ j H)
                   by discriminate ]
         end.

(** C1, as the code has it.  Behind the File check, the chain of both
    emitters tests radio, dropdown-multiple and checkbox-tree, then
    DateTime, then autocomplete, tag and repeater, and only then Relation.
    So a field of one of the first three kinds gets the expressions of its
    kind whatever else it matches; a field of one of the last three kinds
    gets them unless it matches DateTime, in which case it gets the
    DateTime expressions; no Relation predicate changes any of this. *)
Theorem chain_priority :
  forall (f : DirectusField),
    isFileField f = false ->
    (isRadioButtonField f = true ->
     getZodType f = Some (ZodGenerator.generateRadioButtonSchema f)
     /\ getTypeScriptType f = TypeGenerator.generateRadioButtonType f)
    /\ (isDropdownMultipleField f = true ->
        getZodType f = Some (ZodGenerator.generateDropdownMultipleSchema f)
        /\ getTypeScriptType f = TypeGenerator.generateDropdownMultipleType f)
    /\ (isCheckboxTreeField f = true ->
        getZodType f = Some (ZodGenerator.generateCheckboxTreeSchema f)
        /\ getTypeScriptType f = TypeGenerator.generateCheckboxTreeType f)
    /\ (isDateTimeField f = false ->
        (isAutocompleteField f = true ->
         getZodType f = Some (ZodGenerator.generateAutocompleteSchema f)
         /\ getTypeScriptType f = TypeGenerator.generateAutocompleteType f)
        /\ (isTagField f = true ->
            getZodType f = Some (ZodGenerator.generateTagSchema f)
            /\ getTypeScriptType f = TypeGenerator.generateTagType f)
        /\ (isRepeaterField f = true ->
            getZodType f = Some (ZodGenerator.generateRepeaterSchema f)
            /\ getTypeScriptType f = TypeGenerator.generateRepeaterType f))
    /\ (isDateTimeField f = true ->
        isAutocompleteField f = true \/ isTagField f = true
        \/ isRepeaterField f = true ->
        getZodType f = Some (ZodGenerator.generateDateTimeSchema f)
        /\ getTypeScriptType f = TypeGenerator.generateDateTimeType f).
Proof.
  intros f Hfile.
  unfold getZodType, getTypeScriptType, ZodGenerator.getZodType,
    TypeGenerator.getTypeScriptType.
  rewrite Hfile.
  split; [|split; [|split; [|split]]].
  - intros H. rewrite H. split; reflexivity.
  - intros H. other_kinds H. split; reflexivity.
  - intros H. other_kinds H. split; reflexivity.
  - intros Hdt. rewrite Hdt. split; [|split].
    + intros H. other_kinds H. split; reflexivity.
    + intros H. rewrite H.
      apply andb_true_iff in H as [_ H']. other_kinds H'.
      split; reflexivity.
    + intros H. rewrite H.
      apply andb_true_iff in H as [H' _].
      apply andb_true_iff in H' as [_ H']. other_kinds H'.
      rewrite ?andb_false_r. split; reflexivity.
  - intros Hdt H. rewrite Hdt.
    assert (Hi : String.eqb (Field.interface_ f) "autocomplete" = true
                 \/ String.eqb (Field.interface_ f) "tags" = true
                 \/ String.eqb (Field.interface_ f) "list" = true).
    { unfold isAutocompleteField, isTagField, isRepeaterField in H.
      destruct H as [H|[H|H]]; [left; exact H | right; left | right; right].
      - now apply andb_true_iff in H as [_ H].
      - apply andb_true_iff in H as [H _].
        now apply andb_true_iff in H as [_ H]. }
    clear H. destruct Hi as [H'|[H'|H']]; other_kinds H';
      split; reflexivity.
Qed.

End ChainFacts.

Lemma chain_priority_witness :
  FieldKinds.isFileField radioDay = false
  /\ FieldKinds.isRadioButtonField radioDay = true
  /\ FieldKinds.isDateTimeField radioDay = true
  /\ ZodGenerator.getZodType noRelation plainConfig noChoice radioDay
     = Some "z.string()"
  /\ FieldKinds.isFileField releaseDates = false
  /\ FieldKinds.isDateTimeField releaseDates = true
  /\ FieldKinds.isTagField releaseDates = true
  /\ TypeGenerator.getTypeScriptType noRelation plainConfig noChoice
                                     releaseDates
     = "string".
Proof.
  pose proof (chain_priority noRelation noRelation plainConfig noChoice
                noChoice radioDay eq_refl) as [Hradio _].
  pose proof (chain_priority noRelation noRelation plainConfig noChoice
                noChoice releaseDates eq_refl) as [_ [_ [_ [_ Hdate]]]].
  split; [reflexivity|]. split; [reflexivity|]. split; [reflexivity|].
  split; [exact (proj1 (Hradio eq_refl))|].
  split; [reflexivity|]. split; [reflexivity|]. split; [reflexivity|].
  exact (proj2 (Hdate eq_refl (or_intror (or_introl eq_refl)))).
Defined.

(** C1 as stated fails: the field satisfies the tag predicate and the
    DateTime predicate, and both emitters give it the DateTime expression,
    which is not the tag expression. *)
Lemma chain_priority_counterexample :
  FieldKinds.isTagField releaseDates = true
  /\ FieldKinds.isDateTimeField releaseDates = true
  /\ ZodGenerator.getZodType noRelation plainConfig noChoice releaseDates
     = Some "z.string().datetime()"
  /\ ZodGenerator.generateDateTimeSchema releaseDates = "z.string().datetime()"
  /\ ZodGenerator.generateTagSchema releaseDates = "z.array(z.string())"
  /\ TypeGenerator.getTypeScriptType noRelation plainConfig noChoice
                                     releaseDates
     = "string"
  /\ TypeGenerator.generateDateTimeType releaseDates = "string"
  /\ TypeGenerator.generateTagType releaseDates = "string[]"
  /\ ZodGenerator.getZodType noRelation plainConfig noChoice releaseDates
     <> Some (ZodGenerator.generateTagSchema releaseDates)
  /\ TypeGenerator.getTypeScriptType noRelation plainConfig noChoice
                                     releaseDates
     <> TypeGenerator.generateTagType releaseDates.
Proof.
  repeat split; try reflexivity; vm_compute; discriminate.
Qed.

(** ** The dependency graph *)

Section GraphFacts.
Import Js DependencyUtils.

Lemma setAdd_In (x y : string) (s : list string) :
  In y (setAdd x s) <-> y = x \/ In y s.
Proof.
  unfold setAdd. destruct (inList x s) eqn:E.
  - apply inList_In in E. split; [auto|]. intros [->|H]; assumption.
  - rewrite in_app_iff. simpl. intuition.
Qed.

Lemma addDependencies_kept (current : string) (names deps : list string) :
  (forall d, In d deps -> keepDependency current d = true) ->
  forall d, In d (addDependencies current names deps) ->
            keepDependency current d = true.
Proof.
  unfold addDependencies. revert deps.
  induction names as [|n names IH]; simpl; intros deps Hdeps d Hd.
  - auto.
  - apply (IH _) in Hd; [exact Hd|].
    intros d' Hd'. destruct (keepDependency current n) eqn:E; [|auto].
    apply setAdd_In in Hd' as [->|Hd']; auto.
Qed.

Lemma dependenciesOf_kept (current : string) (result : GeneratedSchema.t) :
  forall d, In d (dependenciesOf current result) ->
            keepDependency current d = true.
Proof.
  unfold dependenciesOf.
  set (fromSchema := match textOf (GeneratedSchema.schema result) with
                     | Some text => _
                     | None => []
                     end).
  assert (H : forall d, In d fromSchema -> keepDependency current d = true).
  { unfold fromSchema. destruct (textOf (GeneratedSchema.schema result)).
    - apply addDependencies_kept. intros d [].
    - intros d []. }
  destruct (textOf (GeneratedSchema.type result)).
  - now apply addDependencies_kept.
  - exact H.
Qed.

Lemma mapSet_In (k : string) (v : list string) (g : Graph)
      (k' : string) (v' : list string) :
  In (k', v') (mapSet k v g) -> (k', v') = (k, v) \/ In (k', v') g.
Proof.
  induction g as [|[k0 v0] g IH]; simpl.
  - intros [H|[]]. now left.
  - destruct (String.eqb k k0).
    + intros [H|H]; [now left | right; now right].
    + intros [H|H]; [right; now left|].
      destruct (IH H) as [E|E]; [now left | right; now right].
Qed.

(** Every entry of the graph is the dependency set collected for one of
    the artifacts, under that artifact's singular name. *)
Lemma buildFrom_entries (results : list GeneratedSchema.t) :
  forall (g0 g : Graph),
    buildFrom g0 results = Some g ->
    forall name deps,
      In (name, deps) g ->
      In (name, deps) g0
      \/ exists r, In r results
                   /\ StringUtils.singularName
                        (GeneratedSchema.collectionName r) = Some name
                   /\ deps = dependenciesOf name r.
Proof.
  induction results as [|r results IH]; simpl; intros g0 g H name deps Hin.
  - injection H as <-. now left.
  - destruct (StringUtils.singularName (GeneratedSchema.collectionName r))
      as [current|] eqn:Hs; [|discriminate].
    destruct (dependenciesOf current r) as [|d ds] eqn:Hd.
    + destruct (IH _ _ H _ _ Hin) as [H0|[r' [Hr' Hx]]]; [now left|].
      right. exists r'. split; [now right | exact Hx].
    + destruct (IH _ _ H _ _ Hin) as [H0|[r' [Hr' Hx]]].
      * apply mapSet_In in H0 as [E|H0]; [|now left].
        injection E as -> ->. right. exists r.
        split; [now left|]. split; [exact Hs | now rewrite Hd].
      * right. exists r'. split; [now right | exact Hx].
Qed.

(** C2, as the code has it.  In the graph [buildDependencyGraph] returns,
    no dependency set holds the singular name of its own entity, and none
    holds a name ending in "Create", "Update" or "Get".  (The names "File"
    and "ImageFile" are kept by the graph; they are left out later, by
    [extractRelatedCollections].) *)
Theorem dependency_graph_exclusions :
  forall (results : list GeneratedSchema.t) (graph : Graph),
    buildDependencyGraph results = Some graph ->
    forall (name : string) (deps : list string),
      In (name, deps) graph ->
      ~ In name deps
      /\ (forall d, In d deps ->
                    endsWith "Create" d = false
                    /\ endsWith "Update" d = false
                    /\ endsWith "Get" d = false)
      /\ (exists r, In r results
                    /\ StringUtils.singularName
                         (GeneratedSchema.collectionName r) = Some name
                    /\ deps = dependenciesOf name r).
Proof.
  intros results graph H name deps Hin.
  destruct (buildFrom_entries _ _ _ H _ _ Hin) as [[]|[r [Hr [Hs Hd]]]].
  assert (Hkept : forall d, In d deps -> keepDependency name d = true)
    by (subst deps; apply dependenciesOf_kept).
  split; [|split].
  - intros Hself. apply Hkept in Hself. unfold keepDependency in Hself.
    rewrite String.eqb_refl in Hself. simpl in Hself.
    now rewrite andb_false_r in Hself.
  - intros d Hd'. apply Hkept in Hd'. unfold keepDependency in Hd'.
    repeat (apply andb_true_iff in Hd' as [Hd' ?]).
    repeat split; now apply negb_true_iff.
  - exists r. auto.
Qed.

(** The graph is returned as soon as the singular name of every
    collection can be derived. *)
Lemma buildDependencyGraph_defined (results : list GeneratedSchema.t) :
  (forall r, In r results ->
             ~ In (toLowerCase (StringUtils.toPascalCase
                                  (GeneratedSchema.collectionName r)))
                  StringUtils.inheritedKeys) ->
  exists graph, buildDependencyGraph results = Some graph.
Proof.
  unfold buildDependencyGraph. generalize (@nil (string * list string)).
  induction results as [|r results IH]; simpl; intros g0 H; [eauto|].
  destruct (StringUtils.singularName (GeneratedSchema.collectionName r))
    as [current|] eqn:Hs.
  - destruct (dependenciesOf current r); apply IH;
      intros r' Hr'; apply H; now right.
  - exfalso. apply (H r); [now left|].
    now apply toSingular_None.
Qed.

End GraphFacts.

Lemma dependency_graph_exclusions_witness :
  DependencyUtils.buildDependencyGraph mockResults
  = Some [("Post", ["User"])]
  /\ ~ In "Post" ["User"].
Proof.
  split; [vm_compute; reflexivity|].
  apply (dependency_graph_exclusions mockResults [("Post", ["User"])]).
  - vm_compute. reflexivity.
  - left. reflexivity.
Defined.

(** C2 as stated fails on the auxiliary entities: the artifact refers to
    the shared file definitions, and "File" and "ImageFile" are in its
    dependency set. *)
Lemma dependency_graph_counterexample :
  DependencyUtils.buildDependencyGraph [postWithCover]
  = Some [("Post", ["User"; "File"; "ImageFile"])]
  /\ In "File" ["User"; "File"; "ImageFile"]
  /\ In "ImageFile" ["User"; "File"; "ImageFile"]
  /\ ImportUtils.extractRelatedCollections postWithCover = Some ["User"].
Proof.
  split; [vm_compute; reflexivity|].
  split; [simpl; auto|]. split; [simpl; auto|].
  vm_compute. reflexivity.
Qed.

(** ** Import paths *)

Section ImportFacts.
Import Js ImportUtils ImportPlan.

Lemma find_In (p : GeneratedSchema.t -> option bool)
      (results : list GeneratedSchema.t) (r : GeneratedSchema.t) :
  find p results = Some (Some r) -> In r results.
Proof.
  induction results as [|x results IH]; simpl; [discriminate|].
  destruct (p x) as [[|]|]; [|auto|discriminate].
  intros H. injection H as ->. now left.
Qed.

Lemma linesText_app (sys : bool) (a b : list Line) :
  linesText sys (a ++ b)%list = linesText sys a ++ linesText sys b.
Proof.
  induction a as [|l a IH]; [reflexivity|].
  cbn [app linesText]. now rewrite IH, str_app_assoc.
Qed.

(** The path chosen by the source is the specified one. *)
Lemma importPath_specified (sys rel : bool) (file : string) :
  (if sys && rel then "'./" ++ file ++ "'"
   else if sys && negb rel then "'../" ++ file ++ "'"
        else if negb sys && rel then "'./system/" ++ file ++ "'"
             else "'./" ++ file ++ "'")
  = specifiedPath sys rel file.
Proof. destruct sys, rel; reflexivity. Qed.

Lemma Picked_weaken (n : string) (names : list string)
      (results : list GeneratedSchema.t) (ls : list Line) :
  Forall (Picked names results) ls ->
  Forall (Picked (n :: names) results) ls.
Proof.
  apply Forall_impl. intros l [H1 H2]. split; [now right | exact H2].
Qed.

(** One turn of the loop adds at most one line: the line of the name of
    the turn and of the artifact found for it, with the specified path. *)
Lemma importFor_line (result : GeneratedSchema.t)
      (results : list GeneratedSchema.t) (cycles : list (list string))
      (sys : bool) (singularName : string) (acc acc' : Acc) :
  importFor result results cycles sys singularName acc = Some acc' ->
  exists ls : list Line,
    Forall (Picked [singularName] results) ls
    /\ importStatements acc' = importStatements acc ++ linesText sys ls.
Proof.
  unfold importFor.
  destruct (find (producedBy singularName) results) as [[r|]|] eqn:Hfind;
    [| |discriminate].
  - destruct (StringUtils.singularName (GeneratedSchema.collectionName result))
      as [current|]; [|discriminate].
    destruct (negb (inList _ (processedImports acc))).
    + rewrite importPath_specified. intros H. injection H as <-.
      match goal with
      | |- context [if ?b then ?x else ?x] =>
          replace (if b then x else x) with x by (destruct b; reflexivity)
      end.
      exists [(singularName, r)]. split.
      * constructor; [|constructor].
        split; [now left|]. split; [exact Hfind|].
        apply (find_In _ _ _ Hfind).
      * unfold linesText, lineText, schemaName, typeName. cbn [fst snd].
        rewrite str_app_nil_r.
        destruct (isSystemName (GeneratedSchema.collectionName r));
          reflexivity.
    + intros H. injection H as <-. exists []. split; [constructor|].
      simpl. now rewrite str_app_nil_r.
  - intros H. injection H as <-. exists []. split; [constructor|].
    simpl. now rewrite str_app_nil_r.
Qed.

Lemma importLoop_lines (result : GeneratedSchema.t)
      (results : list GeneratedSchema.t) (cycles : list (list string))
      (sys : bool) (names : list string) :
  forall acc acc',
    importLoop (importFor result results cycles sys) names acc = Some acc' ->
    exists ls : list Line,
      Forall (Picked names results) ls
      /\ importStatements acc' = importStatements acc ++ linesText sys ls.
Proof.
  induction names as [|n names IH]; simpl; intros acc acc' H.
  - injection H as <-. exists []. split; [constructor|].
    simpl. now rewrite str_app_nil_r.
  - destruct (importFor result results cycles sys n acc) as [acc1|] eqn:H1;
      [|discriminate].
    destruct (importFor_line _ _ _ _ _ _ _ H1) as [l1 [F1 E1]].
    destruct (IH _ _ H) as [l2 [F2 E2]].
    exists (l1 ++ l2)%list. split.
    + apply Forall_app. split.
      * revert F1. apply Forall_impl. intros l [[E|[]] P].
        split; [now left | exact P].
      * now apply Picked_weaken.
    + now rewrite E2, E1, linesText_app, str_app_assoc.
Qed.

(** C8.  The text [generateImportStatements] returns is a sequence of
    import lines.  Each line is written for one of the related names the
    current artifact refers to, and imports from the artifact found for
    that name in the result list; its imported names are derived from the
    two, and its path is the specified one: the sibling path when the
    current and the target entity are both system or both regular, the
    parent-relative path from a system entity to a regular one, the path
    into the "system" subfolder from a regular entity to a system one. *)
Theorem import_paths_by_namespace :
  forall (result : GeneratedSchema.t) (results : list GeneratedSchema.t)
         (cycles : list (list string)) (isSystemCollection : bool)
         (text : string),
    generateImportStatements result results cycles isSystemCollection
    = Some text ->
    exists (related : list string) (ls : list Line),
      extractRelatedCollections result = Some related
      /\ Forall (fun l =>
                   In (fst l) related
                   /\ find (producedBy (fst l)) results = Some (Some (snd l))
                   /\ In (snd l) results) ls
      /\ text = linesText isSystemCollection ls.
Proof.
  intros result results cycles sys text H.
  unfold generateImportStatements in H.
  destruct (extractRelatedCollections result) as [related|]; [|discriminate].
  destruct (importLoop _ related _) as [acc|] eqn:Hloop; [|discriminate].
  injection H as <-.
  destruct (importLoop_lines _ _ _ _ _ _ _ Hloop) as [ls [F E]].
  exists related, ls. split; [reflexivity|]. split; [exact F | exact E].
Qed.

End ImportFacts.

Example import_paths_regular_entity :
  ImportUtils.generateImportStatements postByDirectusUser mockResults [] false
  = Some ("import { DrxDirectusUserSchema, type DrsDirectusUser } from './system/directus-users';"
          ++ nl
          ++ "import { DrxUserSchema, type DrsUser } from './users';" ++ nl).
Proof. vm_compute. reflexivity. Qed.

Example import_paths_system_entity :
  ImportUtils.generateImportStatements directusUserWithPosts mockResults []
                                       true
  = Some ("import { DrxPostSchema, type DrsPost } from '../posts';" ++ nl
          ++ "import { DrxDirectusRoleSchema, type DrsDirectusRole } from './directus-roles';"
          ++ nl).
Proof. vm_compute. reflexivity. Qed.

(** The lines of the two texts, one by one. *)
Example import_lines_by_namespace :
  ImportPlan.lineText false
    ("DirectusUser",
     artifact "directus_users"
       (Some "export const DrxDirectusUserSchema = z.object({ email: z.string() });")
       None)
  = "import { DrxDirectusUserSchema, type DrsDirectusUser } from './system/directus-users';"
    ++ nl
  /\ ImportPlan.lineText false
       ("User",
        artifact "users"
          (Some "export const DrxUserSchema = z.object({ name: z.string() });")
          None)
     = "import { DrxUserSchema, type DrsUser } from './users';" ++ nl
  /\ ImportPlan.lineText true
       ("Post",
        artifact "posts"
          (Some "export const DrxPostSchema = z.object({ author: DrxUserSchema.nullable().optional() });")
          None)
     = "import { DrxPostSchema, type DrsPost } from '../posts';" ++ nl
  /\ ImportPlan.lineText true
       ("DirectusRole",
        artifact "directus_roles"
          (Some "export const DrxDirectusRoleSchema = z.object({ name: z.string() });")
          None)
     = "import { DrxDirectusRoleSchema, type DrsDirectusRole } from './directus-roles';"
       ++ nl.
Proof. vm_compute. repeat split; reflexivity. Qed.

Lemma import_paths_by_namespace_witness :
  exists (related : list string) (ls : list ImportPlan.Line),
    ImportUtils.extractRelatedCollections directusUserWithPosts
    = Some related
    /\ Forall (fun l =>
                 In (fst l) related
                 /\ ImportUtils.find (ImportUtils.producedBy (fst l))
                                     mockResults
                    = Some (Some (snd l))
                 /\ In (snd l) mockResults) ls
    /\ "import { DrxPostSchema, type DrsPost } from '../posts';" ++ nl
       ++ "import { DrxDirectusRoleSchema, type DrsDirectusRole } from './directus-roles';"
       ++ nl
       = ImportPlan.linesText true ls.
Proof.
  apply (import_paths_by_namespace directusUserWithPosts mockResults [] true).
  vm_compute. reflexivity.
Defined.

(** ** Cycle detection *)

Section CycleFacts.
Import Js DependencyUtils CycleInvariants.

Variable g : Graph.

Local Abbreviation CallGrows := (CycleInvariants.CallGrows g).
Local Abbreviation Bounded := (CycleInvariants.Bounded g).
Local Abbreviation CallTotal := (CycleInvariants.CallTotal g).

Lemma Grows_refl (st : State) : Grows st st.
Proof.
  repeat split; auto using incl_refl. exists []. now rewrite app_nil_r.
Qed.

Lemma Grows_trans (s1 s2 s3 : State) :
  Grows s1 s2 -> Grows s2 s3 -> Grows s1 s3.
Proof.
  intros [V1 [S1 [e1 C1]]] [V2 [S2 [e2 C2]]]. split; [|split].
  - eapply incl_tran; eassumption.
  - intros z. now rewrite S2, S1.
  - exists (e1 ++ e2)%list. now rewrite C2, C1, app_assoc.
Qed.

Lemma WF_grows (path : list string) (st st' : State) :
  WF path st -> Grows st st' -> WF path st'.
Proof.
  intros [W1 W2] [V [S _]]. split.
  - intros z. now rewrite S, W1.
  - intros z Hz. apply V. now apply W2.
Qed.

Lemma setDelete_In (x y : string) (s : list string) :
  In y (setDelete x s) <-> In y s /\ y <> x.
Proof.
  unfold setDelete. rewrite filter_In, negb_true_iff, String.eqb_neq.
  intuition.
Qed.

Lemma WF_enter (path : list string) (node : string) (st : State) :
  WF path st -> WF (path ++ [node]) (enter node st).
Proof.
  intros [W1 W2]. split; simpl.
  - intros z. rewrite setAdd_In, in_app_iff, W1. simpl. intuition.
  - intros z Hz. apply setAdd_In. apply in_app_iff in Hz as [Hz|[<-|[]]];
      auto.
Qed.

Lemma Grows_record (cycle : list string) (st : State) :
  Grows st (record cycle st).
Proof.
  repeat split; simpl; auto using incl_refl. now exists [cycle].
Qed.

(** The three ways the body of the neighbour loop can go. *)
Lemma visitNeighbor_cases
      (call : string -> list string -> State -> option State)
      (path : list string) (x : string) (st st' : State) :
  visitNeighbor call path x st = Some st' ->
  (~ In x (visited st) /\ call x path st = Some st')
  \/ (In x (visited st) /\ In x (recursionStack st)
      /\ st' = record (sliceFromIndexOf x path ++ [x])%list st)
  \/ (In x (visited st) /\ ~ In x (recursionStack st) /\ st' = st).
Proof.
  unfold visitNeighbor.
  destruct (inList x (visited st)) eqn:Hv; simpl.
  - apply inList_In in Hv.
    destruct (inList x (recursionStack st)) eqn:Hs; intros H;
      injection H as <-.
    + apply inList_In in Hs. right. left. auto.
    + apply inList_false in Hs. right. right. auto.
  - apply inList_false in Hv. intros H. left. auto.
Qed.

(** *** What every call does *)

Lemma visitNeighbor_grows call path x st st' :
  CallGrows call -> WF path st ->
  visitNeighbor call path x st = Some st' ->
  Grows st st' /\ In x (visited st').
Proof.
  intros Hc Hw H.
  destruct (visitNeighbor_cases _ _ _ _ _ H)
    as [[Hv Hcall]|[[Hv [Hs ->]]|[Hv [Hs ->]]]].
  - destruct (Hc _ _ _ _ Hw Hv Hcall) as [G [Hx _]]. auto.
  - split; [apply Grows_record | exact Hv].
  - split; [apply Grows_refl | exact Hv].
Qed.

Lemma forEach_grows call path xs :
  CallGrows call ->
  forall st st',
    WF path st ->
    forEach (visitNeighbor call path) xs st = Some st' ->
    Grows st st' /\ forall y, In y xs -> In y (visited st').
Proof.
  intros Hc. induction xs as [|x xs IH]; simpl; intros st st' Hw H.
  - injection H as <-. split; [apply Grows_refl | intros y []].
  - destruct (visitNeighbor call path x st) as [st1|] eqn:H1; [|discriminate].
    destruct (visitNeighbor_grows _ _ _ _ _ Hc Hw H1) as [G1 Hx].
    destruct (IH _ _ (WF_grows _ _ _ Hw G1) H) as [G2 Hxs].
    split; [eapply Grows_trans; eassumption|].
    intros y [<-|Hy]; [|auto]. destruct G2 as [V _]. now apply V.
Qed.

Lemma Grows_leave (path : list string) (node : string) (st st2 : State) :
  WF path st -> ~ In node (visited st) ->
  Grows (enter node st) st2 ->
  Grows st (leave node st2).
Proof.
  intros [W1 W2] Hn [V [S [extra C]]]. split; [|split]; simpl.
  - intros z Hz. apply V. simpl. apply setAdd_In. now right.
  - intros z. rewrite setDelete_In, S. simpl. rewrite setAdd_In. split.
    + intros [[->|Hz] Hne]; [congruence | exact Hz].
    + intros Hz. split; [now right|].
      intros ->. apply Hn, W2, W1, Hz.
  - exists extra. exact C.
Qed.

Lemma dfs_grows (fuel : nat) : CallGrows (dfs g fuel).
Proof.
  induction fuel as [|fuel IH]; intros node path st st' Hw Hn H;
    simpl in H; [discriminate|].
  destruct (forEach _ _ _) as [st2|] eqn:Hloop; [|discriminate].
  injection H as <-.
  destruct (forEach_grows _ _ _ IH _ _ (WF_enter _ node _ Hw) Hloop)
    as [G Hnb].
  split; [|split].
  - eapply Grows_leave; eassumption.
  - simpl. destruct G as [V _]. apply V. simpl. apply setAdd_In. now left.
  - intros y Hy. simpl. now apply Hnb.
Qed.

(** *** Cycles through two given nodes *)

Lemma Found_sym (a b : string) (cycles : list (list string)) :
  Found a b cycles -> Found b a cycles.
Proof. intros [c [H1 [H2 [H3 H4]]]]. exists c. auto. Qed.

Lemma Found_grows (a b : string) (st st' : State) :
  Grows st st' -> Found a b (circularDeps st) -> Found a b (circularDeps st').
Proof.
  intros [_ [_ [extra E]]] [c [H1 H2]]. exists c. split; [|exact H2].
  rewrite E. apply in_or_app. now left.
Qed.

Lemma sliceFromIndexOf_In (x : string) (path : list string) :
  In x path ->
  exists pre rest, path = (pre ++ x :: rest)%list
                   /\ sliceFromIndexOf x path = x :: rest.
Proof.
  unfold sliceFromIndexOf. induction path as [|y path IH]; intros H.
  - destruct H.
  - simpl. destruct (String.eqb x y) eqn:E.
    + apply String.eqb_eq in E. subst y. exists [], path. auto.
    + apply String.eqb_neq in E. destruct H as [H|H]; [congruence|].
      destruct (IH H) as [pre [rest [Hp Hs]]].
      destruct (indexOf x path) as [i|] eqn:Hi.
      * exists (y :: pre), rest. split; [now rewrite Hp | exact Hs].
      * exfalso. clear -H Hi. induction path as [|z path IH]; [destruct H|].
        simpl in Hi. destruct (String.eqb x z) eqn:E; [discriminate|].
        apply String.eqb_neq in E. destruct H as [H|H]; [congruence|].
        destruct (indexOf x path); [discriminate | auto].
Qed.

Lemma last_in_suffix (n x : string) (rest : list string) :
  forall pre path : list string,
    (path ++ [n])%list = (pre ++ x :: rest)%list -> In n (x :: rest).
Proof.
  induction pre as [|p pre IH]; intros path H.
  - simpl in H. rewrite <- H. apply in_or_app. right. now left.
  - destruct path as [|q path]; simpl in H; injection H as _ H.
    + exfalso. now apply app_cons_not_nil in H.
    + now apply IH in H.
Qed.

(** The cycle recorded for a neighbour found on the stack starts and ends
    with that neighbour and runs through the current node. *)
Lemma back_edge_cycle (x node : string) (path : list string) :
  In x (path ++ [node])%list ->
  let cycle := (sliceFromIndexOf x (path ++ [node]) ++ [x])%list in
  In x cycle /\ In node cycle /\ Closed cycle.
Proof.
  intros H cycle. subst cycle.
  destruct (sliceFromIndexOf_In _ _ H) as [pre [rest [Hp ->]]].
  split; [now left|]. split.
  - apply in_or_app. left. eapply last_in_suffix. exact Hp.
  - exists x, rest. reflexivity.
Qed.

Section OnStack.

(** [a] is a neighbour of [b]: once [b] is reached while [a] is on the
    stack, the back edge from [b] to [a] records a cycle through both. *)
Variables a b : string.
Hypothesis Hba : In a (neighbors g b).

Local Abbreviation CallOnStack := (CycleInvariants.CallOnStack a b).

Lemma forEach_back_edge call path node xs :
  CallGrows call ->
  In a (path ++ [node])%list -> node = b ->
  forall st st',
    WF (path ++ [node])%list st ->
    forEach (visitNeighbor call (path ++ [node])%list) xs st = Some st' ->
    In a xs ->
    Found a b (circularDeps st').
Proof.
  intros Hc Hp Hnode. induction xs as [|x xs IH]; simpl; intros st st' Hw H Hin.
  - destruct Hin.
  - destruct (visitNeighbor call _ x st) as [st1|] eqn:H1; [|discriminate].
    destruct (visitNeighbor_grows _ _ _ _ _ Hc Hw H1) as [G1 _].
    destruct (string_dec x a) as [->|Hxa].
    + assert (Hrest : Grows st1 st')
        by (eapply forEach_grows; eauto using WF_grows).
      apply (Found_grows _ _ _ _ Hrest).
      destruct Hw as [W1 W2].
      destruct (visitNeighbor_cases _ _ _ _ _ H1)
        as [[Hv _]|[[_ [_ ->]]|[_ [Hs _]]]].
      * exfalso. apply Hv, W2, Hp.
      * destruct (back_edge_cycle a node path Hp) as [Ha [Hn Hcl]].
        eexists. split; [|split; [exact Ha|split; [|exact Hcl]]].
        -- simpl. apply in_or_app. right. now left.
        -- now rewrite <- Hnode.
      * exfalso. apply Hs, W1, Hp.
    + destruct Hin as [->|Hin]; [congruence|].
      apply (IH st1 st'); eauto using WF_grows.
Qed.

Lemma forEach_on_stack call path xs :
  CallGrows call -> CallOnStack call ->
  In a path ->
  forall st st',
    WF path st ->
    forEach (visitNeighbor call path) xs st = Some st' ->
    (In b (visited st) -> Found a b (circularDeps st)) ->
    In b (visited st') -> Found a b (circularDeps st').
Proof.
  intros Hc Hi Hp. induction xs as [|x xs IH]; simpl; intros st st' Hw H Hst Hb.
  - injection H as <-. auto.
  - destruct (visitNeighbor call path x st) as [st1|] eqn:H1; [|discriminate].
    destruct (visitNeighbor_grows _ _ _ _ _ Hc Hw H1) as [G1 _].
    apply (IH _ _ (WF_grows _ _ _ Hw G1) H); [|exact Hb].
    intros Hb1.
    destruct (in_dec string_dec b (visited st)) as [Hb0|Hb0].
    + apply (Found_grows _ _ _ _ G1). auto.
    + destruct (visitNeighbor_cases _ _ _ _ _ H1)
        as [[Hv Hcall]|[[_ [_ ->]]|[_ [_ ->]]]].
      * destruct path as [|p0 path'] using rev_ind; [destruct Hp|].
        clear IHpath'. eapply Hi; eauto.
        apply in_or_app. now left.
      * exfalso. auto.
      * exfalso. auto.
Qed.

Lemma dfs_on_stack (fuel : nat) : CallOnStack (dfs g fuel).
Proof.
  induction fuel as [|fuel IH]; intros node path st st' Hw Hn H Ha Hb0 Hb;
    simpl in H; [discriminate|].
  destruct (forEach _ _ _) as [st2|] eqn:Hloop; [|discriminate].
  injection H as <-. simpl in *.
  pose proof (WF_enter _ node _ Hw) as Hw1.
  destruct (string_dec node b) as [Hnb|Hnb].
  - eapply forEach_back_edge; eauto using dfs_grows.
    now rewrite Hnb.
  - eapply forEach_on_stack; eauto using dfs_grows.
    intros Hb1. exfalso. simpl in Hb1. apply setAdd_In in Hb1 as [->|Hb1];
      [congruence | auto].
Qed.

End OnStack.

Section Mutual.

(** Two nodes that depend on each other. *)
Variables a b : string.
Hypothesis Hab : In b (neighbors g a).
Hypothesis Hba : In a (neighbors g b).

Local Abbreviation CallFinds := (CycleInvariants.CallFinds a b).

Lemma visitNeighbor_finds call path x st st' :
  CallGrows call -> CallFinds call -> WF path st ->
  visitNeighbor call path x st = Some st' ->
  (In a (visited st) \/ In b (visited st) -> Found a b (circularDeps st)) ->
  In a (visited st') \/ In b (visited st') -> Found a b (circularDeps st').
Proof.
  intros Hc Hf Hw H1 Hst Hv1.
  destruct (visitNeighbor_grows _ _ _ _ _ Hc Hw H1) as [G1 _].
  destruct (in_dec string_dec a (visited st)) as [Ha0|Ha0];
    [apply (Found_grows _ _ _ _ G1); auto|].
  destruct (in_dec string_dec b (visited st)) as [Hb0|Hb0];
    [apply (Found_grows _ _ _ _ G1); auto|].
  destruct (visitNeighbor_cases _ _ _ _ _ H1)
    as [[Hv Hcall]|[[_ [_ ->]]|[_ [_ ->]]]].
  - eapply Hf; eauto.
  - exfalso. simpl in Hv1. tauto.
  - exfalso. tauto.
Qed.

Lemma forEach_finds call path xs :
  CallGrows call -> CallFinds call ->
  forall st st',
    WF path st ->
    forEach (visitNeighbor call path) xs st = Some st' ->
    (In a (visited st) \/ In b (visited st) -> Found a b (circularDeps st)) ->
    In a (visited st') \/ In b (visited st') -> Found a b (circularDeps st').
Proof.
  intros Hc Hf. induction xs as [|x xs IH]; simpl; intros st st' Hw H Hst Hv.
  - injection H as <-. auto.
  - destruct (visitNeighbor call path x st) as [st1|] eqn:H1; [|discriminate].
    destruct (visitNeighbor_grows _ _ _ _ _ Hc Hw H1) as [G1 _].
    apply (IH _ _ (WF_grows _ _ _ Hw G1) H); [|exact Hv].
    eapply visitNeighbor_finds; eauto.
Qed.

Lemma dfs_finds (fuel : nat) : CallFinds (dfs g fuel).
Proof.
  induction fuel as [|fuel IH]; intros node path st st' Hw Hn H Ha0 Hb0 Hv.
  - discriminate.
  - destruct (dfs_grows (S fuel) _ _ _ _ Hw Hn H) as [_ [_ Hclosure]].
    destruct (string_dec node a) as [Hna|Hna].
    + subst node.
      apply (dfs_on_stack a b Hba (S fuel) a path st st' Hw Hn H);
        [apply in_or_app; right; now left | exact Hb0 | apply Hclosure, Hab].
    + destruct (string_dec node b) as [Hnb|Hnb].
      * subst node. apply Found_sym.
        apply (dfs_on_stack b a Hab (S fuel) b path st st' Hw Hn H);
          [apply in_or_app; right; now left | exact Ha0
          | apply Hclosure, Hba].
      * simpl in H.
        destruct (forEach _ _ _) as [st2|] eqn:Hloop; [|discriminate].
        injection H as <-. simpl in *.
        apply (forEach_finds (dfs g fuel) (path ++ [node])%list
                 (neighbors g node) (dfs_grows fuel) IH (enter node st) st2
                 (WF_enter _ node _ Hw) Hloop); [|exact Hv].
        simpl. intros [Hx|Hx]; apply setAdd_In in Hx as [E|Hx];
          solve [congruence | tauto].
Qed.

(** *** The loop over the keys *)

Lemma visitRoot_cases (fuel : nat) (x : string) (st st' : State) :
  visitRoot g fuel x st = Some st' ->
  (~ In x (visited st) /\ dfs g fuel x [] st = Some st')
  \/ (In x (visited st) /\ st' = st).
Proof.
  unfold visitRoot. destruct (inList x (visited st)) eqn:Hv; simpl; intros H.
  - apply inList_In in Hv. injection H as <-. now right.
  - apply inList_false in Hv. now left.
Qed.

Lemma visitRoot_grows (fuel : nat) (x : string) (st st' : State) :
  WF [] st -> visitRoot g fuel x st = Some st' ->
  Grows st st' /\ In x (visited st').
Proof.
  intros Hw H. destruct (visitRoot_cases _ _ _ _ H) as [[Hv Hd]|[Hv ->]].
  - destruct (dfs_grows fuel _ _ _ _ Hw Hv Hd) as [G [Hx _]]. auto.
  - split; [apply Grows_refl | exact Hv].
Qed.

Lemma roots_finds (fuel : nat) (xs : list string) :
  forall st st',
    WF [] st ->
    forEach (visitRoot g fuel) xs st = Some st' ->
    (In a (visited st) \/ In b (visited st) -> Found a b (circularDeps st)) ->
    (In a xs \/ In a (visited st)) ->
    Found a b (circularDeps st').
Proof.
  induction xs as [|x xs IH]; simpl; intros st st' Hw H Hst Ha.
  - injection H as <-. destruct Ha as [[]|Ha]. auto.
  - destruct (visitRoot g fuel x st) as [st1|] eqn:H1; [|discriminate].
    destruct (visitRoot_grows _ _ _ _ Hw H1) as [G1 Hx].
    apply (IH st1 st' (WF_grows _ _ _ Hw G1) H).
    + intros Hv1.
      destruct (in_dec string_dec a (visited st)) as [Ha0|Ha0];
        [apply (Found_grows _ _ _ _ G1); auto|].
      destruct (in_dec string_dec b (visited st)) as [Hb0|Hb0];
        [apply (Found_grows _ _ _ _ G1); auto|].
      destruct (visitRoot_cases _ _ _ _ H1) as [[Hv Hd]|[Hv ->]];
        [|tauto].
      exact (dfs_finds fuel _ _ _ _ Hw Hv Hd Ha0 Hb0 Hv1).
    + destruct Ha as [[->|Ha]|Ha]; [now right | now left |].
      right. destruct G1 as [V _]. now apply V.
Qed.

End Mutual.

(** *** Termination within the depth bound *)

Lemma mapGet_In (k : string) (s : list string) :
  mapGet k g = Some s -> In (k, s) g.
Proof.
  induction g as [|[k' v] g' IH]; simpl; [discriminate|].
  destruct (String.eqb k k') eqn:E.
  - apply String.eqb_eq in E. intros H. injection H as ->. subst. now left.
  - intros H. right. now apply IH.
Qed.

Lemma neighbors_universe (x y : string) :
  In y (neighbors g x) -> In y (universe g).
Proof.
  unfold neighbors, universe. destruct (mapGet x g) as [s|] eqn:E;
    [|intros []].
  intros Hy. apply mapGet_In in E. apply in_or_app. right.
  apply in_concat. exists s. split; [|exact Hy].
  apply in_map_iff. now exists (x, s).
Qed.

Lemma neighbors_key (x y : string) :
  In y (neighbors g x) -> In x (map fst g).
Proof.
  unfold neighbors. destruct (mapGet x g) as [s|] eqn:E; [|intros []].
  intros _. apply mapGet_In in E. apply in_map_iff. now exists (x, s).
Qed.

Lemma NoDup_snoc (x : string) (l : list string) :
  NoDup l -> ~ In x l -> NoDup (l ++ [x])%list.
Proof.
  induction l as [|y l IH]; simpl; intros Hnd Hx.
  - constructor; [intros [] | constructor].
  - inversion Hnd as [|? ? Hy Hl]; subst. constructor.
    + intros Hin. apply in_app_iff in Hin as [Hin|[->|[]]]; tauto.
    + apply IH; tauto.
Qed.

Lemma forEach_total (fuel : nat) (path : list string) (xs : list string) :
  CallTotal fuel -> Bounded fuel path ->
  (forall x, In x xs -> In x (universe g)) ->
  forall st,
    WF path st ->
    exists st', forEach (visitNeighbor (dfs g fuel) path) xs st = Some st'.
Proof.
  intros Ht Hb. induction xs as [|x xs IH]; simpl; intros Hxs st Hw.
  - eauto.
  - assert (H1 : exists st1, visitNeighbor (dfs g fuel) path x st = Some st1).
    { unfold visitNeighbor.
      destruct (inList x (visited st)) eqn:Hv; simpl.
      - destruct (inList x (recursionStack st)); eauto.
      - apply inList_false in Hv. apply Ht; auto. }
    destruct H1 as [st1 H1]. rewrite H1.
    destruct (visitNeighbor_grows _ _ _ _ _ (dfs_grows fuel) Hw H1) as [G1 _].
    apply IH; eauto using WF_grows.
Qed.

Lemma dfs_total (fuel : nat) : CallTotal fuel.
Proof.
  induction fuel as [|fuel IH]; intros node path st Hw Hn Hu [Hnd [Hin Hlen]].
  - exfalso.
    assert (Hp : ~ In node path) by (intros Hp; apply Hn, Hw, Hp).
    assert (Hle : List.length (node :: path) <= List.length (universe g)).
    { apply NoDup_incl_length; [now constructor|].
      intros z [<-|Hz]; auto. }
    simpl in *. lia.
  - assert (Hp : ~ In node path) by (intros Hp; apply Hn, Hw, Hp).
    assert (Hb' : Bounded fuel (path ++ [node])%list).
    { split; [now apply NoDup_snoc|]. split.
      - intros z Hz. apply in_app_iff in Hz as [Hz|[<-|[]]]; auto.
      - rewrite length_app. simpl. lia. }
    destruct (forEach_total fuel (path ++ [node])%list (neighbors g node)
                IH Hb' (fun x => neighbors_universe node x)
                (enter node st) (WF_enter _ node _ Hw)) as [st2 H2].
    simpl. rewrite H2. eauto.
Qed.

Lemma WF_initial : WF [] initial.
Proof. split; simpl; intros z; tauto. Qed.

Lemma roots_total (fuel : nat) (xs : list string) :
  List.length (universe g) < fuel ->
  (forall x, In x xs -> In x (universe g)) ->
  forall st,
    WF [] st ->
    exists st', forEach (visitRoot g fuel) xs st = Some st'.
Proof.
  intros Hfuel. induction xs as [|x xs IH]; simpl; intros Hxs st Hw.
  - eauto.
  - assert (H1 : exists st1, visitRoot g fuel x st = Some st1).
    { unfold visitRoot. destruct (inList x (visited st)) eqn:Hv; simpl.
      - eauto.
      - apply inList_false in Hv. apply dfs_total; auto.
        split; [constructor|]. split; [intros z []|]. simpl. lia. }
    destruct H1 as [st1 H1]. rewrite H1.
    destruct (visitRoot_grows _ _ _ _ Hw H1) as [G1 _].
    apply IH; eauto using WF_grows.
Qed.

(** The recursion never reaches the depth bound: cycle detection always
    returns. *)
Lemma detectCircularDependencies_total :
  exists cycles, detectCircularDependencies g = Some cycles.
Proof.
  unfold detectCircularDependencies, detectWith, depthBound.
  destruct (roots_total (S (List.length (universe g))) (map fst g))
    with (st := initial) as [st H].
  - lia.
  - intros x Hx. unfold universe. apply in_or_app. now left.
  - apply WF_initial.
  - rewrite H. eauto.
Qed.

End CycleFacts.

Section MutualDependency.
Import Js DependencyUtils CycleInvariants.

Lemma Found_isCircularDependency (a b : string)
      (cycles : list (list string)) :
  Found a b cycles -> isCircularDependency a b cycles = true.
Proof.
  intros [c [Hc [Ha [Hb _]]]]. unfold isCircularDependency.
  apply existsb_exists. exists c. split; [exact Hc|].
  apply andb_true_iff. split; now apply inList_In.
Qed.

(** Two nodes that are members of each other's dependency sets end up
    together in a recorded cycle. *)
Lemma mutual_cycle_found (g : Graph) (a b : string) :
  In b (neighbors g a) -> In a (neighbors g b) ->
  exists cycles,
    detectCircularDependencies g = Some cycles /\ Found a b cycles.
Proof.
  intros Hab Hba.
  destruct (detectCircularDependencies_total g) as [cycles H].
  exists cycles. split; [exact H|].
  unfold detectCircularDependencies, detectWith in H.
  destruct (forEach _ _ _) as [st|] eqn:Hloop; [|discriminate].
  injection H as <-.
  apply (roots_finds g a b Hab Hba _ _ _ _ (WF_initial) Hloop).
  - simpl. tauto.
  - left. eapply neighbors_key. exact Hab.
Qed.

(** C7, as the code has it.  When "User" has "Post" in its dependency set
    and "Post" has "User" in its own, [detectCircularDependencies] returns,
    and among the recorded cycles one ends where it started and contains
    both names; [isCircularDependency("User", "Post", cycles)] is true. *)
Theorem reciprocal_references_cycle :
  forall (graph : Graph) (userDeps postDeps : list string),
    mapGet "User" graph = Some userDeps -> In "Post" userDeps ->
    mapGet "Post" graph = Some postDeps -> In "User" postDeps ->
    exists cycles,
      detectCircularDependencies graph = Some cycles
      /\ (exists c x mid,
             In c cycles /\ c = (x :: mid ++ [x])%list
             /\ In "User" c /\ In "Post" c)
      /\ isCircularDependency "User" "Post" cycles = true.
Proof.
  intros graph userDeps postDeps Hu Hup Hp Hpu.
  destruct (mutual_cycle_found graph "User" "Post") as [cycles [H F]].
  - unfold neighbors. now rewrite Hu.
  - unfold neighbors. now rewrite Hp.
  - exists cycles. split; [exact H|]. split.
    + destruct F as [c [Hc [Ha [Hb [x [mid E]]]]]].
      exists c, x, mid. auto.
    + now apply Found_isCircularDependency.
Qed.

End MutualDependency.

Lemma reciprocal_references_cycle_witness :
  exists cycles,
    DependencyUtils.detectCircularDependencies userPostGraph = Some cycles
    /\ (exists c x mid,
           In c cycles /\ c = (x :: mid ++ [x])%list
           /\ In "User" c /\ In "Post" c)
    /\ DependencyUtils.isCircularDependency "User" "Post" cycles = true.
Proof.
  apply (reciprocal_references_cycle userPostGraph ["Post"] ["User"]).
  - reflexivity.
  - left. reflexivity.
  - reflexivity.
  - left. reflexivity.
Defined.

(** C7 as stated fails on the shape of the cycle: "User" and "Post" refer
    to each other, and the only recorded cycle runs through "Comment"; no
    2-cycle between the two is recorded. *)
Lemma reciprocal_references_counterexample :
  DependencyUtils.mapGet "User" userCommentPostGraph
  = Some ["Comment"; "Post"]
  /\ DependencyUtils.mapGet "Post" userCommentPostGraph = Some ["User"]
  /\ DependencyUtils.detectCircularDependencies userCommentPostGraph
     = Some [["User"; "Comment"; "Post"; "User"]]
  /\ ~ In ["User"; "Post"; "User"] [["User"; "Comment"; "Post"; "User"]]
  /\ ~ In ["Post"; "User"; "Post"] [["User"; "Comment"; "Post"; "User"]].
Proof.
  split; [reflexivity|]. split; [reflexivity|].
  split; [vm_compute; reflexivity|].
  split; intros [H|[]]; discriminate.
Qed.

(** ** Cycle detection: what is recorded *)

Section WalkFacts.
Import Js DependencyUtils CycleInvariants GraphWalks.

Variable g : Graph.

Lemma isWalk_cons (a b : string) (r : list string) :
  isWalk g (a :: b :: r) = inList b (neighbors g a) && isWalk g (b :: r).
Proof. reflexivity. Qed.

Lemma isWalk_snoc (p : list string) (a b : string) :
  isWalk g (p ++ [a])%list = true -> In b (neighbors g a) ->
  isWalk g ((p ++ [a]) ++ [b])%list = true.
Proof.
  intros H Hb. induction p as [|x p IH].
  - simpl. rewrite andb_true_r. now apply inList_In.
  - destruct p as [|y q].
    + simpl in *. apply andb_true_iff in H as [H1 _]. rewrite H1. simpl.
      rewrite andb_true_r. now apply inList_In.
    + change (isWalk g (x :: y :: ((q ++ [a]) ++ [b]))%list = true).
      change (isWalk g (x :: y :: (q ++ [a]))%list = true) in H.
      rewrite isWalk_cons in *. apply andb_true_iff in H as [H1 H2].
      rewrite H1. simpl. apply IH. exact H2.
Qed.

Lemma isWalk_suffix (pre s : list string) :
  isWalk g (pre ++ s)%list = true -> isWalk g s = true.
Proof.
  induction pre as [|x pre IH]; [auto|].
  intros H. apply IH. simpl in H.
  destruct (pre ++ s)%list as [|y q]; [reflexivity|].
  now apply andb_true_iff in H as [_ H].
Qed.

(** The cycle recorded at a back edge, from the last node of the path to a
    node [x] of the path, is a cycle of the graph. *)
Lemma back_edge_simple (x node : string) (path : list string) :
  NoDup (path ++ [node])%list ->
  isWalk g (path ++ [node])%list = true ->
  In x (path ++ [node])%list -> In x (neighbors g node) ->
  SimpleCycle g (sliceFromIndexOf x (path ++ [node]) ++ [x])%list.
Proof.
  intros Hnd Hw Hx Hedge.
  destruct (sliceFromIndexOf_In _ _ Hx) as [pre [rest [E ->]]].
  split.
  - exists x, rest. split; [reflexivity|].
    rewrite E in Hnd. now apply NoDup_app_remove_l in Hnd.
  - assert (Hne : x :: rest <> []) by discriminate.
    destruct (exists_last Hne) as [q [z Eq]].
    rewrite Eq in E. rewrite app_assoc in E.
    apply app_inj_tail in E as [Ep <-].
    rewrite Eq. apply isWalk_snoc; [|exact Hedge].
    apply (isWalk_suffix pre). rewrite <- Eq.
    rewrite Eq, app_assoc, <- Ep. exact Hw.
Qed.

Lemma visitNeighbor_sound call path node x st st' :
  CallGrows g call -> CallSound g call ->
  NoDup (path ++ [node])%list ->
  isWalk g (path ++ [node])%list = true ->
  In x (neighbors g node) ->
  WF (path ++ [node])%list st ->
  visitNeighbor call (path ++ [node])%list x st = Some st' ->
  (forall c, In c (circularDeps st) -> SimpleCycle g c) ->
  forall c, In c (circularDeps st') -> SimpleCycle g c.
Proof.
  intros Hg Hs Hnd Hw Hx Hwf H Hold.
  destruct (visitNeighbor_cases _ _ _ _ _ H)
    as [[Hv Hcall]|[[Hv [Hst ->]]|[Hv [Hst ->]]]].
  - apply (Hs x (path ++ [node])%list st st'); auto.
    now apply isWalk_snoc.
  - simpl. intros c Hc. apply in_app_iff in Hc as [Hc|[<-|[]]]; [auto|].
    apply back_edge_simple; auto. now apply Hwf.
  - exact Hold.
Qed.

Lemma forEach_sound call path node xs :
  CallGrows g call -> CallSound g call ->
  NoDup (path ++ [node])%list ->
  isWalk g (path ++ [node])%list = true ->
  (forall x, In x xs -> In x (neighbors g node)) ->
  forall st st',
    WF (path ++ [node])%list st ->
    forEach (visitNeighbor call (path ++ [node])%list) xs st = Some st' ->
    (forall c, In c (circularDeps st) -> SimpleCycle g c) ->
    forall c, In c (circularDeps st') -> SimpleCycle g c.
Proof.
  intros Hg Hs Hnd Hw. induction xs as [|x xs IH]; simpl;
    intros Hxs st st' Hwf H Hold.
  - now injection H as <-.
  - destruct (visitNeighbor call (path ++ [node])%list x st) as [st1|] eqn:H1;
      [|discriminate].
    destruct (visitNeighbor_grows g _ _ _ _ _ Hg Hwf H1) as [G1 _].
    apply (IH (fun y Hy => Hxs y (or_intror Hy)) st1 st');
      [eapply WF_grows; eassumption | exact H |].
    apply (visitNeighbor_sound call path node x st st1); auto.
Qed.

Lemma dfs_sound (fuel : nat) : CallSound g (dfs g fuel).
Proof.
  induction fuel as [|fuel IH];
    intros node path st st' Hwf Hn H Hnd Hw Hold; simpl in H;
    [discriminate|].
  destruct (forEach _ _ _) as [st2|] eqn:Hloop; [|discriminate].
  injection H as <-. simpl.
  apply (forEach_sound (dfs g fuel) path node (neighbors g node)
                       (dfs_grows g fuel) IH) with (st := enter node st);
    auto.
  - apply NoDup_snoc; [exact Hnd|]. intros Hin. apply Hn.
    now apply Hwf.
  - now apply WF_enter.
Qed.

Lemma roots_sound (fuel : nat) (xs : list string) :
  forall st st',
    WF [] st ->
    forEach (visitRoot g fuel) xs st = Some st' ->
    (forall c, In c (circularDeps st) -> SimpleCycle g c) ->
    forall c, In c (circularDeps st') -> SimpleCycle g c.
Proof.
  induction xs as [|x xs IH]; simpl; intros st st' Hwf H Hold.
  - now injection H as <-.
  - destruct (visitRoot g fuel x st) as [st1|] eqn:H1; [|discriminate].
    destruct (visitRoot_grows g _ _ _ _ Hwf H1) as [G1 _].
    apply (IH st1 st'); [eapply WF_grows; eassumption | exact H |].
    destruct (visitRoot_cases g _ _ _ _ H1) as [[Hv Hcall]|[_ ->]];
      [|exact Hold].
    apply (dfs_sound fuel x [] st st1); auto. constructor.
Qed.

End WalkFacts.

(** X1.  Whatever [detectCircularDependencies] records is a cycle of the
    graph: the recorded list starts and ends with the same name, repeats no
    other name, and each of its names has the next one in its dependency
    set. *)
Theorem detected_cycles_are_cycles :
  forall (graph : DependencyUtils.Graph) (cycles : list (list string))
         (c : list string),
    DependencyUtils.detectCircularDependencies graph = Some cycles ->
    In c cycles ->
    (exists x mid, c = (x :: mid ++ [x])%list /\ NoDup (x :: mid))
    /\ GraphWalks.isWalk graph c = true.
Proof.
  intros graph cycles c H Hc.
  unfold DependencyUtils.detectCircularDependencies,
    DependencyUtils.detectWith in H.
  destruct (DependencyUtils.forEach _ _ _) as [st|] eqn:Hloop;
    [|discriminate].
  injection H as <-.
  apply (roots_sound graph _ _ _ _ WF_initial Hloop); [|exact Hc].
  intros c' [].
Qed.

Lemma detected_cycles_are_cycles_witness :
  (exists x mid,
      ["User"; "Comment"; "Post"; "User"] = (x :: mid ++ [x])%list
      /\ NoDup (x :: mid))
  /\ GraphWalks.isWalk userCommentPostGraph
       ["User"; "Comment"; "Post"; "User"] = true.
Proof.
  apply (detected_cycles_are_cycles
           userCommentPostGraph [["User"; "Comment"; "Post"; "User"]]).
  - vm_compute. reflexivity.
  - simpl. auto.
Defined.

(** ** Cycle detection: a cycle of the graph is found *)

Section ClosureFacts.
Import Js DependencyUtils CycleInvariants GraphWalks.

Variable g : Graph.

Lemma ClosedSince_step (base : list string) (st st' : State) :
  Grows st st' ->
  ClosedSince g base st ->
  (forall z, ~ In z (visited st) -> In z (visited st') ->
             forall y, In y (neighbors g z) -> In y (visited st')) ->
  ClosedSince g base st'.
Proof.
  intros [V _] Hold Hnew z Hb Hz y Hy.
  destruct (in_dec string_dec z (visited st)) as [Hin|Hout].
  - apply V. now apply (Hold z Hb Hin y).
  - now apply (Hnew z Hout Hz y).
Qed.

Lemma visitNeighbor_closed call path x st st' (base : list string) :
  CallGrows g call -> CallClosed g call -> WF path st ->
  visitNeighbor call path x st = Some st' ->
  ClosedSince g base st -> ClosedSince g base st'.
Proof.
  intros Hg Hc Hwf H Hold.
  destruct (visitNeighbor_grows g _ _ _ _ _ Hg Hwf H) as [G _].
  destruct (visitNeighbor_cases _ _ _ _ _ H)
    as [[Hv Hcall]|[[Hv [Hst ->]]|[Hv [Hst ->]]]].
  - apply (ClosedSince_step base st st' G Hold).
    exact (Hc x path st st' Hwf Hv Hcall).
  - exact Hold.
  - exact Hold.
Qed.

Lemma forEach_closed call path xs (base : list string) :
  CallGrows g call -> CallClosed g call ->
  forall st st',
    WF path st ->
    forEach (visitNeighbor call path) xs st = Some st' ->
    ClosedSince g base st -> ClosedSince g base st'.
Proof.
  intros Hg Hc. induction xs as [|x xs IH]; simpl; intros st st' Hwf H Hold.
  - now injection H as <-.
  - destruct (visitNeighbor call path x st) as [st1|] eqn:H1; [|discriminate].
    destruct (visitNeighbor_grows g _ _ _ _ _ Hg Hwf H1) as [G1 _].
    apply (IH st1 st'); [eapply WF_grows; eassumption | exact H |].
    exact (visitNeighbor_closed call path x st st1 base Hg Hc Hwf H1 Hold).
Qed.

Lemma dfs_closed (fuel : nat) : CallClosed g (dfs g fuel).
Proof.
  induction fuel as [|fuel IH]; intros node path st st' Hwf Hn H;
    simpl in H; [discriminate|].
  destruct (forEach _ _ _) as [st2|] eqn:Hloop; [|discriminate].
  injection H as <-. simpl. intros z Hz Hz2 y Hy.
  destruct (forEach_grows g _ _ _ (dfs_grows g fuel) _ _
                          (WF_enter _ node _ Hwf) Hloop) as [G Hnb].
  destruct (string_dec z node) as [->|Hne]; [now apply Hnb|].
  assert (Hc : ClosedSince g (visited (enter node st)) st2).
  { apply (forEach_closed (dfs g fuel) (path ++ [node])%list
                          (neighbors g node) _ (dfs_grows g fuel) IH
                          (enter node st) st2);
      [now apply WF_enter | exact Hloop |].
    intros z' Hb Hin. contradiction. }
  apply (Hc z); auto. simpl. rewrite setAdd_In. intros [E|Hin]; auto.
Qed.

(** Once the head of a walk of unvisited nodes is visited by a call, the
    whole walk is. *)
Lemma walk_visited (st st' : State) :
  (forall z, ~ In z (visited st) -> In z (visited st') ->
             forall y, In y (neighbors g z) -> In y (visited st')) ->
  forall (w : list string) (a : string),
    isWalk g (a :: w) = true ->
    (forall z, In z (a :: w) -> ~ In z (visited st)) ->
    In a (visited st') ->
    forall z, In z (a :: w) -> In z (visited st').
Proof.
  intros Hc. induction w as [|b w IH]; intros a Hw Hun Ha z Hz.
  - destruct Hz as [<-|[]]. exact Ha.
  - rewrite isWalk_cons in Hw. apply andb_true_iff in Hw as [Hab Hw].
    apply inList_In in Hab.
    destruct Hz as [<-|Hz]; [exact Ha|].
    apply (IH b); auto.
    + intros z' Hz'. apply Hun. now right.
    + apply (Hc a); auto. apply Hun. now left.
Qed.

Lemma isWalk_edge (q r : list string) (u v : string) :
  isWalk g (q ++ u :: v :: r)%list = true -> In v (neighbors g u).
Proof.
  intros H. apply isWalk_suffix in H. rewrite isWalk_cons in H.
  apply andb_true_iff in H as [H _]. now apply inList_In.
Qed.

Section ClosedWalk.

(** A closed walk of the graph. *)
Variable x : string.
Variable mid : list string.
Hypothesis Hwalk : isWalk g (x :: mid ++ [x])%list = true.

Local Abbreviation names := (x :: mid).

Lemma closed_walk_predecessor (v : string) :
  In v names -> exists u, In u names /\ In v (neighbors g u).
Proof.
  intros [<-|Hv].
  - assert (Hne : x :: mid <> []) by discriminate.
    destruct (exists_last Hne) as [q [u E]].
    exists u. split.
    + rewrite E. apply in_app_iff. right. now left.
    + apply (isWalk_edge q []).
      change (x :: mid ++ [x])%list with ((x :: mid) ++ [x])%list in Hwalk.
      rewrite E, <- app_assoc in Hwalk. exact Hwalk.
  - apply in_split in Hv as [m1 [m2 ->]].
    assert (Hne : x :: m1 <> []) by discriminate.
    destruct (exists_last Hne) as [q [u E]].
    exists u. split.
    + change (In u ((x :: m1) ++ v :: m2)%list). rewrite E.
      apply in_app_iff. left. apply in_app_iff. right. now left.
    + apply (isWalk_edge q (m2 ++ [x])%list).
      rewrite <- app_assoc, app_comm_cons, E, <- app_assoc in Hwalk.
      exact Hwalk.
Qed.

Lemma closed_walk_visited (st st' : State) (v : string) :
  (forall z, ~ In z (visited st) -> In z (visited st') ->
             forall y, In y (neighbors g z) -> In y (visited st')) ->
  ~ Reached names st ->
  In v names -> In v (visited st') ->
  forall z, In z names -> In z (visited st').
Proof.
  intros Hc Hun Hv Hv' z Hz.
  assert (Hun' : forall z, In z (x :: mid ++ [x])%list ->
                           ~ In z (visited st)).
  { intros z' Hz' Hin. apply Hun. exists z'. split; [|exact Hin].
    destruct Hz' as [<-|Hz']; [now left|].
    apply in_app_iff in Hz' as [Hz'|[<-|[]]]; [now right | now left]. }
  assert (Hx : In x (visited st')).
  { apply in_split in Hv as [pre [post E]].
    assert (Hw : isWalk g (v :: post ++ [x])%list = true).
    { apply (isWalk_suffix g pre).
      change (x :: mid ++ [x])%list with ((x :: mid) ++ [x])%list in Hwalk.
      rewrite E, <- app_assoc in Hwalk. exact Hwalk. }
    apply (walk_visited st st' Hc (post ++ [x])%list v Hw); auto.
    - intros z' Hz'. apply Hun'.
      change (In z' ((x :: mid) ++ [x])%list). rewrite E, <- app_assoc.
      apply in_app_iff. now right.
    - right. apply in_app_iff. right. now left. }
  apply (walk_visited st st' Hc (mid ++ [x])%list x Hwalk Hun' Hx).
  destruct Hz as [<-|Hz]; [now left|]. right. apply in_app_iff. now left.
Qed.

Lemma Reached_dec (st : State) : {Reached names st} + {~ Reached names st}.
Proof.
  destruct (existsb (fun z => inList z (visited st)) names) eqn:E.
  - left. apply existsb_exists in E as [z [Hz Hin]].
    exists z. split; [exact Hz | now apply inList_In].
  - right. intros [z [Hz Hin]].
    assert (existsb (fun z => inList z (visited st)) names = true).
    { apply existsb_exists. exists z. split; [exact Hz|].
      now apply inList_In. }
    congruence.
Qed.

Lemma Hits_grows (st st' : State) :
  Grows st st' ->
  Hits names (circularDeps st) -> Hits names (circularDeps st').
Proof.
  intros [_ [_ [extra ->]]] [c [y [Hc H]]]. exists c, y.
  split; [|exact H]. apply in_app_iff. now left.
Qed.

(** The invariant of the loops: once a name of the walk is visited, a
    cycle through one of them is recorded. *)
Local Abbreviation Settled :=
  (fun st : State => Reached names st -> Hits names (circularDeps st)).

Lemma call_settled call node path st st' :
  CallGrows g call -> CallHits names call ->
  WF path st -> ~ In node (visited st) ->
  call node path st = Some st' ->
  Settled st -> Settled st'.
Proof.
  intros Hg Hh Hwf Hn Hcall Hold Hr.
  destruct (Reached_dec st) as [R|R].
  - apply (Hits_grows st st'); [|now apply Hold].
    now destruct (Hg node path st st' Hwf Hn Hcall).
  - exact (Hh node path st st' Hwf Hn Hcall R Hr).
Qed.

Lemma visitNeighbor_hits call path y st st' :
  CallGrows g call -> CallHits names call -> WF path st ->
  visitNeighbor call path y st = Some st' ->
  Settled st -> Settled st'.
Proof.
  intros Hg Hh Hwf H Hold.
  destruct (visitNeighbor_cases _ _ _ _ _ H)
    as [[Hv Hcall]|[[Hv [Hst ->]]|[Hv [Hst ->]]]].
  - exact (call_settled call y path st st' Hg Hh Hwf Hv Hcall Hold).
  - intros Hr. apply (Hits_grows st); [apply Grows_record|].
    apply Hold. exact Hr.
  - exact Hold.
Qed.

Lemma forEach_hits call path xs :
  CallGrows g call -> CallHits names call ->
  forall st st',
    WF path st ->
    forEach (visitNeighbor call path) xs st = Some st' ->
    Settled st -> Settled st'.
Proof.
  intros Hg Hh. induction xs as [|y xs IH]; simpl; intros st st' Hwf H Hold.
  - now injection H as <-.
  - destruct (visitNeighbor call path y st) as [st1|] eqn:H1; [|discriminate].
    destruct (visitNeighbor_grows g _ _ _ _ _ Hg Hwf H1) as [G1 _].
    apply (IH st1 st'); [eapply WF_grows; eassumption | exact H |].
    exact (visitNeighbor_hits call path y st st1 Hg Hh Hwf H1 Hold).
Qed.

Lemma dfs_hits (fuel : nat) : CallHits names (dfs g fuel).
Proof.
  induction fuel as [|fuel IH]; intros node path st st' Hwf Hn H Hun Hr;
    [discriminate|].
  destruct (in_dec string_dec node names) as [Hin|Hout].
  - destruct (dfs_grows g (S fuel) node path st st' Hwf Hn H)
      as [_ [Hnode _]].
    destruct (closed_walk_predecessor node Hin) as [u [Hu Hedge]].
    assert (Hu' : In u (visited st')).
    { apply (closed_walk_visited st st' node); auto.
      exact (dfs_closed (S fuel) node path st st' Hwf Hn H). }
    assert (F : Found node u (circularDeps st')).
    { apply (dfs_on_stack g node u Hedge (S fuel) node path st st');
        auto.
      - apply in_app_iff. right. now left.
      - intros Hv. apply Hun. now exists u. }
    destruct F as [c [Hc [Hnc _]]]. now exists c, node.
  - simpl in H.
    destruct (forEach _ _ _) as [st2|] eqn:Hloop; [|discriminate].
    injection H as <-. simpl.
    apply (forEach_hits (dfs g fuel) (path ++ [node])%list
                        (neighbors g node) (dfs_grows g fuel) IH
                        (enter node st) st2);
      [now apply WF_enter | exact Hloop | | ].
    + intros [z [Hz Hv]]. simpl in Hv. apply setAdd_In in Hv as [->|Hv];
        [contradiction|]. exfalso. apply Hun. now exists z.
    + destruct Hr as [z [Hz Hv]]. now exists z.
Qed.

Lemma roots_hits (fuel : nat) (xs : list string) :
  forall st st',
    WF [] st ->
    forEach (visitRoot g fuel) xs st = Some st' ->
    Settled st ->
    Settled st' /\ forall y, In y xs -> In y (visited st').
Proof.
  induction xs as [|y xs IH]; simpl; intros st st' Hwf H Hold.
  - injection H as <-. split; [exact Hold | intros y []].
  - destruct (visitRoot g fuel y st) as [st1|] eqn:H1; [|discriminate].
    destruct (visitRoot_grows g _ _ _ _ Hwf H1) as [G1 Hy].
    assert (Hs1 : Settled st1).
    { destruct (visitRoot_cases g _ _ _ _ H1) as [[Hv Hcall]|[_ ->]];
        [|exact Hold].
      exact (call_settled (dfs g fuel) y [] st st1 (dfs_grows g fuel)
                          (dfs_hits fuel) Hwf Hv Hcall Hold). }
    assert (Hwf1 : WF [] st1) by (eapply WF_grows; eassumption).
    destruct (IH st1 st' Hwf1 H Hs1) as [Hs Hxs].
    split; [exact Hs|].
    intros z [<-|Hz]; [|auto].
    assert (G2 : Grows st1 st').
    { clear - H Hwf1. revert st1 H Hwf1.
      induction xs as [|a xs IHx]; simpl; intros st1 H Hwf1.
      - injection H as <-. apply Grows_refl.
      - destruct (visitRoot g fuel a st1) as [s2|] eqn:Ha; [|discriminate].
        destruct (visitRoot_grows g _ _ _ _ Hwf1 Ha) as [Ga _].
        eapply Grows_trans; [exact Ga|].
        apply IHx; [exact H|]. eapply WF_grows; eassumption. }
    destruct G2 as [V _]. now apply V.
Qed.

End ClosedWalk.
End ClosureFacts.

(** X2.  Every cycle of the graph is detected: when some walk along the
    dependency sets comes back to its first name, the traversal returns and
    one of the recorded cycles passes through a name of that walk. In
    particular the result is not empty. *)
Theorem cycle_of_graph_is_detected :
  forall (graph : DependencyUtils.Graph) (x : string) (mid : list string),
    GraphWalks.isWalk graph (x :: mid ++ [x])%list = true ->
    exists cycles c y,
      DependencyUtils.detectCircularDependencies graph = Some cycles
      /\ In c cycles /\ In y (x :: mid) /\ In y c.
Proof.
  intros graph x mid Hwalk.
  destruct (detectCircularDependencies_total graph) as [cycles H].
  exists cycles.
  unfold DependencyUtils.detectCircularDependencies,
    DependencyUtils.detectWith in H.
  destruct (DependencyUtils.forEach _ _ _) as [st|] eqn:Hloop;
    [|discriminate].
  injection H as <-.
  destruct (roots_hits graph x mid Hwalk _ _ _ _ WF_initial Hloop)
    as [Hs Hv].
  - intros [z [_ []]].
  - destruct Hs as [c [y Hc]].
    + exists x. split; [now left|]. apply Hv.
      assert (Hx : exists s, In s (DependencyUtils.neighbors graph x)).
      { destruct mid as [|m r]; simpl in Hwalk.
        - exists x. apply inList_In.
          now apply andb_true_iff in Hwalk as [Hw _].
        - exists m. apply inList_In.
          now apply andb_true_iff in Hwalk as [Hw _]. }
      destruct Hx as [s Hs]. exact (neighbors_key graph x s Hs).
    + exists c, y. split; [|exact Hc].
      unfold DependencyUtils.detectCircularDependencies,
        DependencyUtils.detectWith. now rewrite Hloop.
Qed.

Lemma cycle_of_graph_is_detected_witness :
  exists cycles c y,
    DependencyUtils.detectCircularDependencies userCommentPostGraph
    = Some cycles
    /\ In c cycles /\ In y ["Comment"; "Post"; "User"] /\ In y c.
Proof.
  apply (cycle_of_graph_is_detected
           userCommentPostGraph "Comment" ["Post"; "User"]).
  reflexivity.
Defined.

(** ** The dependency graph as a map *)

Section GraphMapFacts.
Import Js DependencyUtils.

Lemma setAdd_NoDup (x : string) (s : list string) :
  NoDup s -> NoDup (setAdd x s).
Proof.
  intros H. unfold setAdd. destruct (inList x s) eqn:E; [exact H|].
  apply NoDup_snoc; [exact H | now apply inList_false].
Qed.

Lemma addDependencies_NoDup (current : string) (names deps : list string) :
  NoDup deps -> NoDup (addDependencies current names deps).
Proof.
  unfold addDependencies. revert deps.
  induction names as [|n names IH]; simpl; intros deps H; [exact H|].
  apply IH. destruct (keepDependency current n); [|exact H].
  now apply setAdd_NoDup.
Qed.

Lemma dependenciesOf_NoDup (current : string) (result : GeneratedSchema.t) :
  NoDup (dependenciesOf current result).
Proof.
  unfold dependenciesOf.
  assert (H : NoDup
                match textOf (GeneratedSchema.schema result) with
                | Some text =>
                    addDependencies current
                      (map schemaRefName (schemaMatches text)) []
                | None => []
                end).
  { destruct (textOf (GeneratedSchema.schema result));
      [apply addDependencies_NoDup|]; constructor. }
  destruct (textOf (GeneratedSchema.type result)); [|exact H].
  now apply addDependencies_NoDup.
Qed.

Lemma mapSet_keys (k : string) (v : list string) (g : Graph) (z : string) :
  In z (map fst (mapSet k v g)) -> z = k \/ In z (map fst g).
Proof.
  induction g as [|[k' v'] g IH]; simpl.
  - intros [<-|[]]. now left.
  - destruct (String.eqb k k') eqn:E; simpl.
    + apply String.eqb_eq in E as ->. intros [<-|H]; auto.
    + intros [<-|H]; [auto|]. destruct (IH H); auto.
Qed.

Lemma mapSet_NoDup (k : string) (v : list string) (g : Graph) :
  NoDup (map fst g) -> NoDup (map fst (mapSet k v g)).
Proof.
  induction g as [|[k' v'] g IH]; simpl; intros H.
  - constructor; [intros [] | constructor].
  - inversion H as [|? ? Hk Hg]; subst.
    destruct (String.eqb k k') eqn:E; simpl.
    + apply String.eqb_eq in E as ->. now constructor.
    + apply String.eqb_neq in E. constructor; [|now apply IH].
      intros Hin. apply mapSet_keys in Hin as [->|Hin]; auto.
Qed.

(** In a map, [get] returns the set stored under the key. *)
Lemma mapGet_entry (g : Graph) (k : string) (v : list string) :
  NoDup (map fst g) -> In (k, v) g -> mapGet k g = Some v.
Proof.
  induction g as [|[k' v'] g IH]; simpl; intros H Hin; [contradiction|].
  inversion H as [|? ? Hk Hg]; subst.
  destruct Hin as [E|Hin].
  - injection E as -> ->. now rewrite String.eqb_refl.
  - destruct (String.eqb k k') eqn:E; [|now apply IH].
    apply String.eqb_eq in E as ->. exfalso. apply Hk.
    apply in_map_iff. now exists (k', v).
Qed.

Lemma buildFrom_map (results : list GeneratedSchema.t) :
  forall (g0 g : Graph),
    buildFrom g0 results = Some g ->
    NoDup (map fst g0) ->
    (forall k deps, In (k, deps) g0 -> deps <> [] /\ NoDup deps) ->
    NoDup (map fst g)
    /\ (forall k deps, In (k, deps) g -> deps <> [] /\ NoDup deps).
Proof.
  induction results as [|r results IH]; simpl; intros g0 g H Hk Hd.
  - injection H as <-. auto.
  - destruct (StringUtils.singularName (GeneratedSchema.collectionName r))
      as [current|]; [|discriminate].
    destruct (dependenciesOf current r) as [|d ds] eqn:E.
    + now apply (IH g0 g).
    + apply (IH _ g H).
      * now apply mapSet_NoDup.
      * intros k deps Hin. apply mapSet_In in Hin as [Hin|Hin];
          [|exact (Hd k deps Hin)].
        injection Hin as -> ->. split; [discriminate|].
        rewrite <- E. apply dependenciesOf_NoDup.
Qed.

End GraphMapFacts.

(** X4.  The graph [buildDependencyGraph] returns is a map from names to
    sets: no key occurs twice, no dependency set is empty or holds a name
    twice, and [get] returns the set listed under a key. *)
Theorem dependency_graph_is_a_map :
  forall (results : list GeneratedSchema.t) (graph : DependencyUtils.Graph),
    DependencyUtils.buildDependencyGraph results = Some graph ->
    NoDup (map fst graph)
    /\ forall (name : string) (deps : list string),
         In (name, deps) graph ->
         deps <> [] /\ NoDup deps
         /\ DependencyUtils.mapGet name graph = Some deps.
Proof.
  intros results graph H.
  destruct (buildFrom_map results [] graph H) as [Hk Hd].
  - constructor.
  - intros k deps [].
  - split; [exact Hk|]. intros name deps Hin.
    destruct (Hd name deps Hin) as [Hne Hnd].
    repeat split; auto. now apply mapGet_entry.
Qed.

Lemma dependency_graph_is_a_map_witness :
  NoDup (map fst [("Post", ["User"; "File"; "ImageFile"])])
  /\ ["User"; "File"; "ImageFile"] <> []
  /\ NoDup ["User"; "File"; "ImageFile"]
  /\ DependencyUtils.mapGet "Post" [("Post", ["User"; "File"; "ImageFile"])]
     = Some ["User"; "File"; "ImageFile"].
Proof.
  assert (H : DependencyUtils.buildDependencyGraph [postWithCover]
              = Some [("Post", ["User"; "File"; "ImageFile"])])
    by (vm_compute; reflexivity).
  destruct (dependency_graph_is_a_map [postWithCover] _ H) as [Hk Hd].
  split; [exact Hk|].
  apply (Hd "Post" ["User"; "File"; "ImageFile"]). now left.
Defined.

(** ** Import statements: what is left out, what is emitted once *)

Section RelatedFacts.
Import Js DependencyUtils ImportUtils.

Lemma collect_spec (keep : string -> option bool) (names : list string) :
  forall acc res,
    collect keep names acc = Some res ->
    (NoDup acc -> NoDup res)
    /\ forall n, In n res -> In n acc \/ keep n = Some true.
Proof.
  induction names as [|m names IH]; simpl; intros acc res H.
  - injection H as <-. auto.
  - destruct (keep m) as [[|]|] eqn:K; [| |discriminate].
    + destruct (IH _ _ H) as [Hnd Hin]. split.
      * intros Ha. apply Hnd. now apply setAdd_NoDup.
      * intros n Hn. destruct (Hin n Hn) as [Hs|Hk]; [|now right].
        apply setAdd_In in Hs as [->|Hs]; auto.
    + exact (IH _ _ H).
Qed.

Lemma keepSchemaRef_true (name n : string) :
  keepSchemaRef name n = Some true ->
  n <> "File" /\ n <> "ImageFile"
  /\ StringUtils.singularName name <> Some n.
Proof.
  unfold keepSchemaRef.
  destruct (StringUtils.singularName name) as [current|]; [|discriminate].
  intros H. injection H as H.
  apply andb_true_iff in H as [H H3]. apply andb_true_iff in H as [H1 H2].
  apply negb_true_iff, String.eqb_neq in H1, H2, H3.
  repeat split; auto. intros E. injection E as <-. now apply H1.
Qed.

Lemma keepTypeRef_true (name n : string) :
  keepTypeRef name n = Some true ->
  n <> "File" /\ n <> "ImageFile"
  /\ StringUtils.singularName name <> Some n.
Proof.
  unfold keepTypeRef.
  destruct (negb (endsWith "Create" n) && negb (endsWith "Update" n)
            && negb (endsWith "Get" n) && negb (String.eqb n "File")
            && negb (String.eqb n "ImageFile")) eqn:G; [|discriminate].
  apply andb_true_iff in G as [G H3]. apply andb_true_iff in G as [_ H2].
  apply negb_true_iff, String.eqb_neq in H2, H3.
  destruct (StringUtils.singularName name) as [current|]; [|discriminate].
  intros H. injection H as H. apply negb_true_iff, String.eqb_neq in H.
  repeat split; auto. intros E. injection E as <-. now apply H.
Qed.

(** The related names are a set: no name is held twice. *)
Lemma extractRelatedCollections_NoDup (result : GeneratedSchema.t)
      (related : list string) :
  extractRelatedCollections result = Some related -> NoDup related.
Proof.
  unfold extractRelatedCollections. intros H.
  destruct (match textOf (GeneratedSchema.schema result)
            with Some _ => _ | None => _ end) as [rel0|] eqn:E0;
    [|discriminate].
  assert (Nd0 : NoDup rel0).
  { destruct (textOf (GeneratedSchema.schema result));
      [|injection E0 as <-; constructor].
    destruct (objectMatch s); [|injection E0 as <-; constructor].
    destruct (collect_spec _ _ _ _ E0) as [Hnd _]. apply Hnd.
    constructor. }
  destruct (textOf (GeneratedSchema.type result));
    [|injection H as <-; exact Nd0].
  destruct (collect_spec _ _ _ _ H) as [Hnd _]. now apply Hnd.
Qed.

End RelatedFacts.

(** X8.  The related names [extractRelatedCollections] returns hold no name
    twice, never the shared file definitions "File" and "ImageFile", and
    never the singular name of the artifact's own collection. *)
Theorem related_collections_exclusions :
  forall (result : GeneratedSchema.t) (related : list string),
    ImportUtils.extractRelatedCollections result = Some related ->
    NoDup related
    /\ ~ In "File" related /\ ~ In "ImageFile" related
    /\ forall current,
         StringUtils.singularName (GeneratedSchema.collectionName result)
         = Some current ->
         ~ In current related.
Proof.
  intros result related H.
  set (name := GeneratedSchema.collectionName result).
  assert (Good : forall n, In n related ->
                           n <> "File" /\ n <> "ImageFile"
                           /\ StringUtils.singularName name <> Some n).
  { unfold ImportUtils.extractRelatedCollections in H. fold name in H.
    assert (Base : forall rel0,
               match DependencyUtils.textOf (GeneratedSchema.schema result)
               with
               | Some text =>
                   match ImportUtils.objectMatch text with
                   | Some fieldDefinitions =>
                       ImportUtils.collect
                         (ImportUtils.keepSchemaRef name)
                         (map DependencyUtils.schemaRefName
                              (DependencyUtils.schemaMatches
                                 fieldDefinitions)) []
                   | None => Some []
                   end
               | None => Some []
               end = Some rel0 ->
               forall n, In n rel0 ->
                         n <> "File" /\ n <> "ImageFile"
                         /\ StringUtils.singularName name <> Some n).
    { intros rel0 H0 n Hn.
      destruct (DependencyUtils.textOf (GeneratedSchema.schema result));
        [|injection H0 as <-; contradiction].
      destruct (ImportUtils.objectMatch s);
        [|injection H0 as <-; contradiction].
      destruct (collect_spec _ _ _ _ H0) as [_ Hin].
      destruct (Hin n Hn) as [[]|K]. now apply keepSchemaRef_true. }
    destruct (match DependencyUtils.textOf (GeneratedSchema.schema result)
              with Some _ => _ | None => _ end) as [rel0|] eqn:E0;
      [|discriminate].
    specialize (Base rel0 eq_refl).
    destruct (DependencyUtils.textOf (GeneratedSchema.type result));
      [|injection H as <-; exact Base].
    destruct (collect_spec _ _ _ _ H) as [_ Hin].
    intros n Hn. destruct (Hin n Hn) as [Hn0|K]; [now apply Base|].
    now apply keepTypeRef_true. }
  assert (Nd : NoDup related).
  { unfold ImportUtils.extractRelatedCollections in H. fold name in H.
    destruct (match DependencyUtils.textOf (GeneratedSchema.schema result)
              with Some _ => _ | None => _ end) as [rel0|] eqn:E0;
      [|discriminate].
    assert (Nd0 : NoDup rel0).
    { destruct (DependencyUtils.textOf (GeneratedSchema.schema result));
        [|injection E0 as <-; constructor].
      destruct (ImportUtils.objectMatch s);
        [|injection E0 as <-; constructor].
      destruct (collect_spec _ _ _ _ E0) as [Hnd _]. apply Hnd.
      constructor. }
    destruct (DependencyUtils.textOf (GeneratedSchema.type result));
      [|injection H as <-; exact Nd0].
    destruct (collect_spec _ _ _ _ H) as [Hnd _]. now apply Hnd. }
  split; [exact Nd|]. split; [|split].
  - intros Hin. now destruct (Good _ Hin) as [G _].
  - intros Hin. now destruct (Good _ Hin) as [_ [G _]].
  - intros current Hc Hin. destruct (Good _ Hin) as [_ [_ G]]. now apply G.
Qed.

Lemma related_collections_exclusions_witness :
  NoDup ["User"]
  /\ ~ In "File" ["User"] /\ ~ In "ImageFile" ["User"]
  /\ ~ In "Post" ["User"].
Proof.
  assert (H : ImportUtils.extractRelatedCollections postWithCover
              = Some ["User"]) by (vm_compute; reflexivity).
  destruct (related_collections_exclusions postWithCover _ H)
    as [Hn [Hf [Hi Hc]]].
  split; [exact Hn|]. split; [exact Hf|]. split; [exact Hi|].
  apply (Hc "Post"). reflexivity.
Defined.

Section ImportLoopFacts.
Import Js DependencyUtils ImportUtils ImportPlan ImportKeys.

Variable result : GeneratedSchema.t.
Variable results : list GeneratedSchema.t.

(** The list of cycles has no influence on a turn of the loop: both
    branches of the test on [isCircular] build the same line. *)
Lemma importFor_ignores_cycles (c1 c2 : list (list string)) (sys : bool)
      (n : string) (acc : Acc) :
  importFor result results c1 sys n acc
  = importFor result results c2 sys n acc.
Proof.
  unfold importFor.
  destruct (find (producedBy n) results) as [[r|]|]; try reflexivity.
  destruct (StringUtils.singularName (GeneratedSchema.collectionName result))
    as [current|]; [|reflexivity].
  destruct (negb (inList _ (processedImports acc))); [|reflexivity].
  destruct (isCircularDependency current n c1),
    (isCircularDependency current n c2); reflexivity.
Qed.

Lemma importLoop_ignores_cycles (c1 c2 : list (list string)) (sys : bool)
      (names : list string) :
  forall acc,
    importLoop (importFor result results c1 sys) names acc
    = importLoop (importFor result results c2 sys) names acc.
Proof.
  induction names as [|n names IH]; simpl; intros acc; [reflexivity|].
  rewrite (importFor_ignores_cycles c1 c2).
  destruct (importFor result results c2 sys n acc); [apply IH | reflexivity].
Qed.

(** A turn of the loop for a name no artifact was produced for changes
    nothing. *)
Lemma importLoop_nothing_found (cycles : list (list string)) (sys : bool)
      (names : list string) :
  (forall n, In n names -> find (producedBy n) results = Some None) ->
  forall acc,
    importLoop (importFor result results cycles sys) names acc = Some acc.
Proof.
  induction names as [|n names IH]; simpl; intros Hf acc; [reflexivity|].
  unfold importFor at 1. rewrite (Hf n (or_introl eq_refl)).
  apply IH. intros m Hm. apply Hf. now right.
Qed.

(** One turn of the loop: nothing, or the line of the name of the turn
    and of the artifact found for it, under a key not seen before. *)
Lemma importFor_step (cycles : list (list string)) (sys : bool)
      (n : string) (acc acc' : Acc) :
  importFor result results cycles sys n acc = Some acc' ->
  acc' = acc
  \/ exists r : GeneratedSchema.t,
       find (producedBy n) results = Some (Some r)
       /\ ~ In (importKey (n, r)) (processedImports acc)
       /\ processedImports acc'
          = setAdd (importKey (n, r)) (processedImports acc)
       /\ importStatements acc'
          = importStatements acc ++ lineText sys (n, r).
Proof.
  unfold importFor.
  destruct (find (producedBy n) results) as [[r|]|] eqn:Hfind;
    [| |discriminate].
  - destruct (StringUtils.singularName (GeneratedSchema.collectionName result))
      as [current|]; [|discriminate].
    assert (K : (if isSystemName (GeneratedSchema.collectionName r)
                 then "DrxDirectus" ++ replaceFirst "Directus" "" n
                      ++ "Schema"
                 else "Drx" ++ replaceFirst "Directus" "" n ++ "Schema")
                ++ ":"
                ++ StringUtils.toKebabCase (GeneratedSchema.collectionName r)
                = importKey (n, r)) by reflexivity.
    rewrite K.
    destruct (inList (importKey (n, r)) (processedImports acc)) eqn:Hseen;
      cbn [negb].
    + intros H. injection H as <-. now left.
    + rewrite importPath_specified. intros H. injection H as <-.
      match goal with
      | |- context [if ?b then ?x else ?x] =>
          replace (if b then x else x) with x by (destruct b; reflexivity)
      end.
      right. exists r. split; [reflexivity|]. split; [|split].
      * apply inList_false. exact Hseen.
      * reflexivity.
      * unfold lineText, schemaName, typeName. cbn [fst snd importStatements].
        destruct (isSystemName (GeneratedSchema.collectionName r));
          reflexivity.
  - intros H. injection H as <-. now left.
Qed.

Lemma importLoop_once (cycles : list (list string)) (sys : bool)
      (names : list string) :
  NoDup names ->
  forall acc acc',
    importLoop (importFor result results cycles sys) names acc = Some acc' ->
    exists ls : list Line,
      importStatements acc' = importStatements acc ++ linesText sys ls
      /\ Forall (Picked names results) ls
      /\ NoDup (map importKey ls)
      /\ (forall l, In l ls -> ~ In (importKey l) (processedImports acc))
      /\ NoDup (map fst ls)
      /\ List.length ls <= List.length names.
Proof.
  induction names as [|n names IH]; simpl; intros Hnd acc acc' H.
  - injection H as <-. exists []. simpl. rewrite str_app_nil_r.
    repeat split; auto; constructor.
  - destruct (importFor result results cycles sys n acc) as [acc1|] eqn:H1;
      [|discriminate].
    apply NoDup_cons_iff in Hnd as [Hn Hnd].
    destruct (IH Hnd _ _ H) as [ls [E [P [Nd [Hnew [Nf Hlen]]]]]].
    destruct (importFor_step _ _ _ _ _ H1) as [->|[r [Hr [Hl [Hp Hs]]]]].
    + exists ls. split; [exact E|]. split; [now apply Picked_weaken|].
      repeat split; auto.
    + exists ((n, r) :: ls). split; [|split; [|split; [|split; [|split]]]].
      * simpl. now rewrite E, Hs, str_app_assoc.
      * constructor; [|now apply Picked_weaken].
        split; [now left|]. split; [exact Hr|].
        apply (find_In _ _ _ Hr).
      * simpl. constructor; [|exact Nd]. intros Hin.
        apply in_map_iff in Hin as [l' [Ek Hl']].
        apply (Hnew l' Hl'). rewrite Hp, Ek. apply setAdd_In. now left.
      * intros l' [<-|Hl']; [exact Hl|]. intros Hin.
        apply (Hnew l' Hl'). rewrite Hp. apply setAdd_In. now right.
      * simpl. constructor; [|exact Nf]. intros Hin.
        apply in_map_iff in Hin as [l' [Ef Hl']].
        rewrite Forall_forall in P. destruct (P l' Hl') as [Hin' _].
        rewrite Ef in Hin'. now apply Hn.
      * simpl. lia.
Qed.

End ImportLoopFacts.

(** X9.  The list of cycles handed to [generateImportStatements] has no
    influence on the text it returns. *)
Theorem import_statements_ignore_cycles :
  forall (result : GeneratedSchema.t) (results : list GeneratedSchema.t)
         (cycles cycles' : list (list string)) (isSystemCollection : bool),
    ImportUtils.generateImportStatements
      result results cycles isSystemCollection
    = ImportUtils.generateImportStatements
        result results cycles' isSystemCollection.
Proof.
  intros result results c1 c2 sys.
  unfold ImportUtils.generateImportStatements.
  destruct (ImportUtils.extractRelatedCollections result); [|reflexivity].
  now rewrite (importLoop_ignores_cycles result results c1 c2).
Qed.

(** X10.  A related name for which the result list holds no artifact is
    skipped without a trace: when that is so for every related name, the
    import text is empty. *)
Theorem import_statements_skip_missing :
  forall (result : GeneratedSchema.t) (results : list GeneratedSchema.t)
         (cycles : list (list string)) (isSystemCollection : bool)
         (related : list string),
    ImportUtils.extractRelatedCollections result = Some related ->
    (forall n, In n related ->
               ImportUtils.find (ImportUtils.producedBy n) results
               = Some None) ->
    ImportUtils.generateImportStatements
      result results cycles isSystemCollection = Some "".
Proof.
  intros result results cycles sys related Hr Hf.
  unfold ImportUtils.generateImportStatements. rewrite Hr.
  now rewrite (importLoop_nothing_found result results cycles sys related Hf).
Qed.

Lemma import_statements_skip_missing_witness :
  ImportUtils.generateImportStatements
    postWithCover [artifact "comments" None None] [] false = Some "".
Proof.
  apply (import_statements_skip_missing
           postWithCover [artifact "comments" None None] [] false ["User"]).
  - vm_compute. reflexivity.
  - intros n [<-|[]]. vm_compute. reflexivity.
Defined.

(** X11.  No import is emitted twice.  The text is a sequence of import
    lines, each written for a related name of the current artifact and
    importing from the artifact found for that name; no related name gets
    two lines, no two lines have the same key (the imported validator name
    with the file of the target), and there are at most as many lines as
    related names. *)
Theorem import_statements_once :
  forall (result : GeneratedSchema.t) (results : list GeneratedSchema.t)
         (cycles : list (list string)) (isSystemCollection : bool)
         (related : list string) (text : string),
    ImportUtils.extractRelatedCollections result = Some related ->
    ImportUtils.generateImportStatements
      result results cycles isSystemCollection = Some text ->
    exists ls : list ImportPlan.Line,
      text = ImportPlan.linesText isSystemCollection ls
      /\ Forall (fun l =>
                   In (fst l) related
                   /\ ImportUtils.find (ImportUtils.producedBy (fst l))
                                       results
                      = Some (Some (snd l))
                   /\ In (snd l) results) ls
      /\ NoDup (map fst ls)
      /\ NoDup (map ImportKeys.importKey ls)
      /\ List.length ls <= List.length related.
Proof.
  intros result results cycles sys related text Hr H.
  pose proof (extractRelatedCollections_NoDup _ _ Hr) as Hnd.
  unfold ImportUtils.generateImportStatements in H. rewrite Hr in H.
  destruct (ImportUtils.importLoop _ related _) as [acc|] eqn:Hloop;
    [|discriminate].
  injection H as <-.
  destruct (importLoop_once _ _ _ _ _ Hnd _ _ Hloop)
    as [ls [E [P [Nd [_ [Nf Hlen]]]]]].
  exists ls. split; [exact E|]. split; [exact P|].
  split; [exact Nf|]. split; [exact Nd | exact Hlen].
Qed.

Lemma import_statements_once_witness :
  exists ls : list ImportPlan.Line,
    "import { DrxPostSchema, type DrsPost } from '../posts';" ++ nl
    ++ "import { DrxDirectusRoleSchema, type DrsDirectusRole } from './directus-roles';"
    ++ nl
    = ImportPlan.linesText true ls
    /\ Forall (fun l =>
                 In (fst l) ["Post"; "DirectusRole"]
                 /\ ImportUtils.find (ImportUtils.producedBy (fst l))
                                     mockResults
                    = Some (Some (snd l))
                 /\ In (snd l) mockResults) ls
    /\ NoDup (map fst ls)
    /\ NoDup (map ImportKeys.importKey ls)
    /\ List.length ls <= List.length ["Post"; "DirectusRole"].
Proof.
  apply (import_statements_once directusUserWithPosts mockResults [] true).
  - vm_compute. reflexivity.
  - vm_compute. reflexivity.
Defined.

(** ** Naming engine: the alphabet and the algebra of the conversions *)

Section CaseFacts.
Import Js StringUtils.

Ltac all_chars c :=
  destruct c as [[] [] [] [] [] [] [] []]; vm_compute; try reflexivity;
  try (intros; discriminate); try (intros; reflexivity).

Lemma lowerChar_not_upper (c : ascii) : isUpper (lowerChar c) = false.
Proof. all_chars c. Qed.

Lemma lowerChar_blank (c : ascii) :
  isSpace (lowerChar c) || Ascii.eqb (lowerChar c) "_"
  = isSpace c || Ascii.eqb c "_".
Proof. all_chars c. Qed.

Lemma lowerChar_sep (c : ascii) : isWordSep (lowerChar c) = isWordSep c.
Proof. all_chars c. Qed.

Lemma upperChar_sep (c : ascii) : isWordSep (upperChar c) = isWordSep c.
Proof. all_chars c. Qed.

Lemma upperChar_lowerChar (c : ascii) :
  upperChar (lowerChar c) = upperChar c.
Proof. all_chars c. Qed.

Lemma upperChar_upperChar (c : ascii) :
  upperChar (upperChar c) = upperChar c.
Proof. all_chars c. Qed.

Lemma lowerChar_lowerChar (c : ascii) :
  lowerChar (lowerChar c) = lowerChar c.
Proof. all_chars c. Qed.

Lemma lowerChar_upperChar (c : ascii) :
  lowerChar (upperChar c) = lowerChar c.
Proof. all_chars c. Qed.

Lemma mapStr_app (f : ascii -> ascii) (a b : string) :
  mapStr f (a ++ b) = mapStr f a ++ mapStr f b.
Proof. induction a as [|c a IH]; simpl; [reflexivity | now rewrite IH]. Qed.

Lemma mapStr_mapStr (f h : ascii -> ascii) (s : string) :
  mapStr f (mapStr h s) = mapStr (fun c => f (h c)) s.
Proof. induction s as [|c s IH]; simpl; [reflexivity | now rewrite IH]. Qed.

Lemma mapStr_ext (f h : ascii -> ascii) (s : string) :
  (forall c, f c = h c) -> mapStr f s = mapStr h s.
Proof.
  intros E. induction s as [|c s IH]; simpl; [reflexivity|].
  now rewrite IH, E.
Qed.

Lemma allStr_mapStr (p : ascii -> bool) (f : ascii -> ascii) (s : string) :
  allStr p (mapStr f s) = allStr (fun c => p (f c)) s.
Proof. induction s as [|c s IH]; simpl; [reflexivity | now rewrite IH]. Qed.

Lemma allStr_impl (p q : ascii -> bool) (s : string) :
  (forall c, p c = true -> q c = true) ->
  allStr p s = true -> allStr q s = true.
Proof.
  intros Hpq. induction s as [|c s IH]; simpl; [reflexivity|].
  intros H. apply andb_true_iff in H as [H1 H2].
  now rewrite (Hpq c H1), IH.
Qed.

(** *** [toKebabCase] *)

Lemma hyphenRuns_blank (s : string) :
  forall b, allStr (fun c => negb (isSpace c || Ascii.eqb c "_"))
                   (hyphenRuns b s) = true.
Proof.
  induction s as [|c s IH]; simpl; intros b; [reflexivity|].
  destruct (isSpace c || Ascii.eqb c "_") eqn:E.
  - destruct b; [apply IH|]. simpl. apply IH.
  - simpl. rewrite E. simpl. apply IH.
Qed.

Lemma hyphenLowerUpper_unfold (a b : ascii) (r : string) :
  hyphenLowerUpper (String a (String b r))
  = if isLower a && isUpper b
    then String a (String "-" (String b (hyphenLowerUpper r)))
    else String a (hyphenLowerUpper (String b r)).
Proof. reflexivity. Qed.

Lemma hyphenLowerUpper_fixed (s : string) :
  allStr (fun c => negb (isUpper c)) s = true -> hyphenLowerUpper s = s.
Proof.
  induction s as [|a s IH]; [reflexivity|].
  intros H. simpl in H. apply andb_true_iff in H as [_ H].
  destruct s as [|b r]; [reflexivity|].
  rewrite hyphenLowerUpper_unfold.
  assert (Hb : isUpper b = false).
  { simpl in H. apply andb_true_iff in H as [Hb _].
    now apply negb_true_iff in Hb. }
  rewrite Hb, andb_false_r. now rewrite (IH H).
Qed.

Lemma hyphenUpperUpperLower_fixed (s : string) :
  allStr (fun c => negb (isUpper c)) s = true ->
  hyphenUpperUpperLower s = s.
Proof.
  induction s as [|a s IH]; [reflexivity|].
  intros H. simpl in H. apply andb_true_iff in H as [Ha H].
  apply negb_true_iff in Ha. specialize (IH H).
  destruct s as [|b [|c r]].
  - reflexivity.
  - reflexivity.
  - change (hyphenUpperUpperLower (String a (String b (String c r))))
      with (if isUpper a && isUpper b && isLower c
            then String a (String "-" (String b (String c
                   (hyphenUpperUpperLower r))))
            else String a (hyphenUpperUpperLower (String b (String c r)))).
    rewrite Ha. cbn [andb]. now rewrite IH.
Qed.

Lemma hyphenRuns_fixed (s : string) :
  allStr (fun c => negb (isSpace c || Ascii.eqb c "_")) s = true ->
  forall b, hyphenRuns b s = s.
Proof.
  induction s as [|c s IH]; simpl; [reflexivity|].
  intros H b. apply andb_true_iff in H as [Hc H].
  apply negb_true_iff in Hc. rewrite Hc. now rewrite (IH H).
Qed.

Lemma toLowerCase_fixed (s : string) :
  allStr (fun c => negb (isUpper c)) s = true -> toLowerCase s = s.
Proof.
  unfold toLowerCase. induction s as [|c s IH]; simpl; [reflexivity|].
  intros H. apply andb_true_iff in H as [Hc H].
  apply negb_true_iff in Hc. unfold lowerChar at 1. rewrite Hc.
  now rewrite (IH H).
Qed.

Lemma toKebabCase_alphabet (s : string) :
  allStr (fun c => negb (isUpper c)
                   && negb (isSpace c || Ascii.eqb c "_"))
         (toKebabCase s) = true.
Proof.
  unfold toKebabCase, toLowerCase. rewrite allStr_mapStr.
  apply (allStr_impl (fun c => negb (isSpace c || Ascii.eqb c "_")));
    [|apply hyphenRuns_blank].
  intros c Hc. now rewrite lowerChar_not_upper, lowerChar_blank.
Qed.

(** *** [toPascalCase] *)

Lemma concat_empty_cons (x : string) (xs : list string) :
  join "" (x :: xs) = x ++ join "" xs.
Proof.
  unfold join. destruct xs; simpl; [now rewrite str_app_nil_r | reflexivity].
Qed.

Lemma splitRuns_pieces (p : ascii -> bool) (sep : ascii -> bool)
      (s : string) :
  (forall c, sep c = false -> p c = true) ->
  forall inRun cur,
    allStr p cur = true ->
    Forall (fun w => allStr p w = true) (splitRuns sep inRun cur s).
Proof.
  intros Hp. induction s as [|c s IH]; simpl; intros inRun cur Hcur.
  - constructor; [exact Hcur | constructor].
  - destruct (sep c) eqn:E.
    + destruct inRun; [now apply IH|].
      constructor; [exact Hcur | now apply IH].
    + apply IH. rewrite allStr_app, Hcur. simpl. now rewrite (Hp c E).
Qed.

Lemma capitalizeWord_alphabet (w : string) :
  allStr (fun c => negb (isWordSep c)) w = true ->
  allStr (fun c => negb (isWordSep c)) (capitalizeWord w) = true.
Proof.
  destruct w as [|c r]; simpl; [reflexivity|].
  intros H. apply andb_true_iff in H as [Hc Hr].
  rewrite upperChar_sep, Hc. simpl.
  unfold toLowerCase. rewrite allStr_mapStr.
  apply (allStr_impl (fun c => negb (isWordSep c))); [|exact Hr].
  intros d Hd. now rewrite lowerChar_sep.
Qed.

Lemma join_alphabet (p : ascii -> bool) (ws : list string) :
  Forall (fun w => allStr p w = true) ws ->
  allStr p (join "" ws) = true.
Proof.
  induction 1 as [|w ws Hw _ IH]; [reflexivity|].
  now rewrite concat_empty_cons, allStr_app, Hw, IH.
Qed.

Lemma splitRuns_mapStr (f : ascii -> ascii) (sep : ascii -> bool)
      (s : string) :
  (forall c, sep (f c) = sep c) ->
  forall inRun cur,
    splitRuns sep inRun (mapStr f cur) (mapStr f s)
    = map (mapStr f) (splitRuns sep inRun cur s).
Proof.
  intros Hf. induction s as [|c s IH]; simpl; intros inRun cur;
    [reflexivity|].
  rewrite Hf. destruct (sep c).
  - destruct inRun; [apply IH|]. simpl. f_equal. apply (IH true "").
  - rewrite <- IH. now rewrite mapStr_app.
Qed.

Lemma capitalizeWord_mapStr (f : ascii -> ascii) (w : string) :
  (forall c, upperChar (f c) = upperChar c) ->
  (forall c, lowerChar (f c) = lowerChar c) ->
  capitalizeWord (mapStr f w) = capitalizeWord w.
Proof.
  intros Hu Hl. destruct w as [|c r]; simpl; [reflexivity|].
  rewrite Hu. f_equal. unfold toLowerCase. rewrite mapStr_mapStr.
  now apply mapStr_ext.
Qed.

Lemma toPascalCase_mapStr (f : ascii -> ascii) (s : string) :
  (forall c, isWordSep (f c) = isWordSep c) ->
  (forall c, upperChar (f c) = upperChar c) ->
  (forall c, lowerChar (f c) = lowerChar c) ->
  toPascalCase (mapStr f s) = toPascalCase s.
Proof.
  intros Hs Hu Hl. unfold toPascalCase, splitOn.
  pose proof (splitRuns_mapStr f isWordSep s Hs false "") as E.
  simpl in E. rewrite E, map_map.
  f_equal. apply map_ext. intros w. now apply capitalizeWord_mapStr.
Qed.

(** The text joined from the pieces of a split. *)
Local Abbreviation pascal :=
  (fun inRun cur s =>
     join "" (map capitalizeWord (splitRuns isWordSep inRun cur s))).

Lemma pascal_in_run (s : string) : pascal true "" s = pascal false "" s.
Proof.
  destruct s as [|c s]; simpl; [reflexivity|].
  destruct (isWordSep c); [|reflexivity].
  rewrite map_cons, concat_empty_cons. reflexivity.
Qed.

Lemma pascal_app (c : ascii) (b : string) :
  isWordSep c = true ->
  forall (a : string) (inRun : bool) (cur : string),
    (inRun = true -> cur = "") ->
    pascal inRun cur (a ++ String c b)
    = pascal inRun cur a ++ pascal false "" b.
Proof.
  intros Hc. induction a as [|d a IH]; intros inRun cur Hrun.
  - simpl. rewrite Hc. destruct inRun.
    + rewrite (Hrun eq_refl). rewrite pascal_in_run. reflexivity.
    + simpl map. rewrite concat_empty_cons, pascal_in_run.
      unfold join at 2. simpl. reflexivity.
  - simpl. destruct (isWordSep d).
    + destruct inRun.
      * now apply IH.
      * simpl map. rewrite !concat_empty_cons, (IH true ""); [|reflexivity].
        now rewrite str_app_assoc.
    + apply IH. discriminate.
Qed.

End CaseFacts.

(** X13.  [toKebabCase] returns a file name in the kebab alphabet: no upper-
    case letter, no white space and no underscore is left in it. *)
Theorem toKebabCase_is_kebab :
  forall (str : string),
    Js.allStr (fun c => negb (Js.isUpper c) && negb (Js.isSpace c)
                        && negb (Ascii.eqb c "_"))
              (StringUtils.toKebabCase str) = true.
Proof.
  intros str.
  apply (allStr_impl
           (fun c => negb (Js.isUpper c)
                     && negb (Js.isSpace c || Ascii.eqb c "_")));
    [|apply toKebabCase_alphabet].
  intros c H. apply andb_true_iff in H as [H1 H2]. rewrite H1. simpl.
  rewrite negb_orb in H2. exact H2.
Qed.

(** X14.  [toKebabCase] changes nothing in a name that is already in the
    kebab alphabet; so it is idempotent. *)
Theorem toKebabCase_idempotent :
  forall (str : string),
    StringUtils.toKebabCase (StringUtils.toKebabCase str)
    = StringUtils.toKebabCase str.
Proof.
  intros str.
  assert (U : Js.allStr (fun c => negb (Js.isUpper c))
                        (StringUtils.toKebabCase str) = true).
  { apply (allStr_impl
             (fun c => negb (Js.isUpper c)
                       && negb (Js.isSpace c || Ascii.eqb c "_")));
      [|apply toKebabCase_alphabet].
    intros c H. now apply andb_true_iff in H as [H _]. }
  assert (B : Js.allStr (fun c => negb (Js.isSpace c || Ascii.eqb c "_"))
                        (StringUtils.toKebabCase str) = true).
  { apply (allStr_impl
             (fun c => negb (Js.isUpper c)
                       && negb (Js.isSpace c || Ascii.eqb c "_")));
      [|apply toKebabCase_alphabet].
    intros c H. now apply andb_true_iff in H as [_ H]. }
  set (k := StringUtils.toKebabCase str) in *.
  unfold StringUtils.toKebabCase at 1.
  rewrite (hyphenLowerUpper_fixed k U), (hyphenUpperUpperLower_fixed k U),
    (hyphenRuns_fixed k B false).
  now apply toLowerCase_fixed.
Qed.

Lemma toPascalCase_alphabet (str : string) :
  Js.allStr (fun c => negb (StringUtils.isWordSep c))
            (StringUtils.toPascalCase str) = true.
Proof.
  unfold StringUtils.toPascalCase, Js.splitOn.
  apply join_alphabet. apply Forall_map.
  eapply Forall_impl; [intros w; apply capitalizeWord_alphabet|].
  apply splitRuns_pieces; [|reflexivity].
  intros c Hc. now rewrite Hc.
Qed.

(** X15.  No separator survives [toPascalCase]: the result holds no hyphen,
    no underscore and no white space. *)
Theorem toPascalCase_has_no_separator :
  forall (str : string),
    Js.allStr (fun c => negb (StringUtils.isWordSep c))
              (StringUtils.toPascalCase str) = true.
Proof.
  intros str. unfold StringUtils.toPascalCase, Js.splitOn.
  apply join_alphabet. apply Forall_map.
  eapply Forall_impl; [intros w; apply capitalizeWord_alphabet|].
  apply splitRuns_pieces; [|reflexivity].
  intros c Hc. now rewrite Hc.
Qed.

(** X16.  On ASCII text [toPascalCase] does not see the case of its
    argument: a name, its lower-case form and its upper-case form get the
    same result. *)
Theorem toPascalCase_ignores_case :
  forall (str : string),
    Js.allStr Js.isAscii str = true ->
    StringUtils.toPascalCase (Js.toLowerCase str)
    = StringUtils.toPascalCase str
    /\ StringUtils.toPascalCase (Js.toUpperCase str)
       = StringUtils.toPascalCase str.
Proof.
  intros str _. split.
  - apply toPascalCase_mapStr.
    + apply lowerChar_sep.
    + apply upperChar_lowerChar.
    + apply lowerChar_lowerChar.
  - apply toPascalCase_mapStr.
    + apply upperChar_sep.
    + apply upperChar_upperChar.
    + apply lowerChar_upperChar.
Qed.

Lemma toPascalCase_ignores_case_witness :
  StringUtils.toPascalCase (Js.toLowerCase "userProfile")
  = StringUtils.toPascalCase "userProfile"
  /\ StringUtils.toPascalCase (Js.toUpperCase "userProfile")
     = StringUtils.toPascalCase "userProfile".
Proof.
  apply (toPascalCase_ignores_case "userProfile"). reflexivity.
Defined.

(** X17.  [toPascalCase] distributes over a separator: the result for two
    names put together with a hyphen, an underscore or a white space between
    them is the two results put together. *)
Theorem toPascalCase_distributes :
  forall (a b : string) (sep : ascii),
    StringUtils.isWordSep sep = true ->
    StringUtils.toPascalCase (a ++ String sep b)
    = StringUtils.toPascalCase a ++ StringUtils.toPascalCase b.
Proof.
  intros a b sep H. unfold StringUtils.toPascalCase, Js.splitOn.
  apply (pascal_app sep b H a false ""). discriminate.
Qed.

Lemma toPascalCase_distributes_witness :
  StringUtils.toPascalCase ("audit_activity" ++ String "_" "logs")
  = StringUtils.toPascalCase "audit_activity"
    ++ StringUtils.toPascalCase "logs".
Proof.
  apply (toPascalCase_distributes "audit_activity" "logs" "_").
  reflexivity.
Defined.

(** ** Naming engine: where [toSingular] fails, and what it keeps *)

Section SingularFacts.
Import Js StringUtils.

Lemma mapStr_length (f : ascii -> ascii) (s : string) :
  String.length (mapStr f s) = String.length s.
Proof. induction s as [|c s IH]; simpl; [reflexivity | now rewrite IH]. Qed.

Lemma endsWith_tail (p q s : string) :
  endsWith (p ++ q) s = true -> endsWith q s = true.
Proof.
  intros H. apply endsWith_spec in H as [a ->].
  rewrite <- str_app_assoc. apply endsWith_app.
Qed.

Lemma endsWith_s_lower (w : string) :
  endsWith "s" w = true -> endsWith "s" (toLowerCase w) = true.
Proof.
  intros H. apply endsWith_spec in H as [a ->].
  unfold toLowerCase. rewrite mapStr_app. apply endsWith_app.
Qed.

Lemma endsWith_false_tail (p q s : string) :
  endsWith q s = false -> endsWith (p ++ q) s = false.
Proof.
  intros H. destruct (endsWith (p ++ q) s) eqn:E; [|reflexivity].
  apply endsWith_tail in E. congruence.
Qed.

Lemma assoc_In (k v : string) (kv : list (string * string)) :
  assoc k kv = Some v -> In (k, v) kv.
Proof.
  induction kv as [|[k' v'] kv IH]; simpl; [discriminate|].
  destruct (String.eqb k k') eqn:E.
  - apply String.eqb_eq in E as ->. intros H. injection H as ->. now left.
  - intros H. right. now apply IH.
Qed.

(** A word whose lower-case form does not end in "s" passes all the
    suffix rules unchanged. *)
Lemma rules_keep_non_plural (w : string) :
  endsWith "s" (toLowerCase w) = false ->
  directusRule w = None /\ compoundRule w = None
  /\ regularRules w (toLowerCase w) = w.
Proof.
  intros H.
  assert (Hs : endsWith "s" w = false).
  { destruct (endsWith "s" w) eqn:E; [|reflexivity].
    apply endsWith_s_lower in E. congruence. }
  assert (Hies : endsWith "ies" w = false)
    by exact (endsWith_false_tail "ie" "s" w Hs).
  split; [|split].
  - unfold directusRule.
    destruct (startsWith "Directus" w && (8 <? String.length w)%nat);
      [|reflexivity].
    now rewrite Hs, Hies.
  - unfold compoundRule. destruct (isCompound w); [|reflexivity].
    destruct (2 <=? List.length (splitBeforeUpper w))%nat; [|reflexivity].
    now rewrite Hs, Hies.
  - assert (H1 : endsWith "ies" (toLowerCase w) = false)
      by exact (endsWith_false_tail "ie" "s" _ H).
    assert (H2 : endsWith "ves" (toLowerCase w) = false)
      by exact (endsWith_false_tail "ve" "s" _ H).
    assert (H3 : endsWith "es" (toLowerCase w) = false)
      by exact (endsWith_false_tail "e" "s" _ H).
    unfold regularRules. rewrite H1, H2, H3, H. reflexivity.
Qed.

End SingularFacts.

(** The inherited name "__proto__" cannot be reached through
    [toPascalCase], which leaves no underscore. *)
Lemma singularName_None_constructor (collectionName : string) :
  StringUtils.singularName collectionName = None ->
  Js.toLowerCase (StringUtils.toPascalCase collectionName) = "constructor".
Proof.
  unfold StringUtils.singularName.
  set (p := StringUtils.toPascalCase collectionName).
  intros H. apply toSingular_None in H.
  destruct H as [H|[H|[]]]; [now symmetry|].
  exfalso.
  assert (A : Js.allStr (fun c => negb (StringUtils.isWordSep c))
                        (Js.toLowerCase p) = true).
  { unfold Js.toLowerCase. rewrite allStr_mapStr.
    apply (allStr_impl (fun c => negb (StringUtils.isWordSep c)));
      [|apply toPascalCase_alphabet].
    intros c Hc. now rewrite lowerChar_sep. }
  rewrite <- H in A. discriminate A.
Qed.

Lemma toSingular_constructor (word : string) :
  Js.toLowerCase word = "constructor" -> StringUtils.toSingular word = None.
Proof.
  intros H. unfold StringUtils.toSingular.
  assert (L : String.length word = 11).
  { rewrite <- (mapStr_length Js.lowerChar word).
    change (Js.mapStr Js.lowerChar word) with (Js.toLowerCase word).
    now rewrite H. }
  rewrite L, H. reflexivity.
Qed.

(** X18.  The singular name of a collection cannot be derived exactly when
    its Pascal-case name is, up to case, the word "constructor"; for every
    other collection name [toSingular] returns a string. *)
Theorem singularName_fails_on_constructor_only :
  forall (collectionName : string),
    StringUtils.singularName collectionName = None
    <-> Js.toLowerCase (StringUtils.toPascalCase collectionName)
        = "constructor".
Proof.
  intros collectionName. split.
  - apply singularName_None_constructor.
  - intros H. unfold StringUtils.singularName.
    now apply toSingular_constructor.
Qed.

(** X19.  A word that is not an irregular plural and whose lower-case form
    does not end in "s" is returned as it is. *)
Theorem toSingular_keeps_non_plural :
  forall (word : string),
    Js.endsWith "s" (Js.toLowerCase word) = false ->
    Js.inList (Js.toLowerCase word) StringUtils.inheritedKeys = false ->
    StringUtils.assoc (Js.toLowerCase word) StringUtils.irregularPlurals
    = None ->
    StringUtils.toSingular word = Some word.
Proof.
  intros word Hs Hk Hi. unfold StringUtils.toSingular.
  destruct (String.length word <=? 1)%nat; [reflexivity|].
  rewrite Hk, Hi.
  destruct (rules_keep_non_plural word Hs) as [-> [-> ->]]. reflexivity.
Qed.

Lemma toSingular_keeps_non_plural_witness :
  StringUtils.toSingular "AuditLog" = Some "AuditLog".
Proof.
  apply (toSingular_keeps_non_plural "AuditLog"); reflexivity.
Defined.

(** X20.  The table of irregular plurals is looked up without regard to case,
    and the case pattern of the word is put back on the singular: a word
    that is all upper-case gets the upper-case singular, a word whose first
    character is not a lower-case letter gets the singular with its first
    letter in upper case, any other word gets the singular of the table. *)
Theorem toSingular_irregular_case :
  forall (word singular : string),
    StringUtils.assoc (Js.toLowerCase word) StringUtils.irregularPlurals
    = Some singular ->
    StringUtils.toSingular word
    = Some (if String.eqb word (Js.toUpperCase word)
            then Js.toUpperCase singular
            else
              match word, singular with
              | String o _, String c r =>
                  if Ascii.eqb o (Js.upperChar o)
                  then String (Js.upperChar c) r
                  else singular
              | _, _ => singular
              end).
Proof.
  intros word singular H.
  pose proof (assoc_In _ _ _ H) as Hin.
  assert (L : (String.length word <=? 1)%nat = false
              /\ Js.inList (Js.toLowerCase word) StringUtils.inheritedKeys
                 = false
              /\ Js.includes "directus" (Js.toLowerCase singular) = false
              /\ singular <> "").
  { rewrite <- (mapStr_length Js.lowerChar word).
    change (Js.mapStr Js.lowerChar word) with (Js.toLowerCase word).
    unfold StringUtils.irregularPlurals in Hin. simpl in Hin.
    repeat (destruct Hin as [Hin|Hin];
            [injection Hin as <- <-; repeat split; discriminate|]).
    contradiction. }
  destruct L as [L1 [L2 [L3 L4]]].
  unfold StringUtils.toSingular. rewrite L1, L2, H.
  unfold StringUtils.capitalizeFirst.
  destruct (String.eqb word (Js.toUpperCase word)); [reflexivity|].
  destruct word as [|o w]; [destruct singular; reflexivity|].
  destruct singular as [|c r]; [congruence|].
  destruct (Ascii.eqb o (Js.upperChar o)); [|reflexivity].
  now rewrite L3.
Qed.

Lemma toSingular_irregular_case_witness :
  StringUtils.toSingular "Children" = Some "Child".
Proof.
  apply (toSingular_irregular_case "Children" "child"). reflexivity.
Defined.

(** ** Collection filtering: what is kept *)

Section FilterFacts.
Import Js CollectionUtils.

Lemma filter_all {A : Type} (p : A -> bool) (l : list A) :
  (forall x, In x l -> p x = true) -> filter p l = l.
Proof.
  induction l as [|x l IH]; simpl; intros H; [reflexivity|].
  rewrite (H x (or_introl eq_refl)). f_equal. apply IH.
  intros y Hy. apply H. now right.
Qed.

End FilterFacts.

(** X21.  What [filterCollections] keeps: a collection of the list stays
    exactly when it is among the requested names (if names are requested),
    is not a system collection (unless the configuration sets
    [includeSystemCollections] to true), and is not one of the folder names. *)
Theorem filterCollections_keeps :
  forall (A : Type) (name : A -> string) (cols : list A)
         (config : ZodirectusConfig) (c : A),
    In c (CollectionUtils.filterCollections name cols config)
    <-> In c cols
        /\ (forall wanted, collections config = Some wanted ->
                           In (name c) wanted)
        /\ (includeSystemCollections config <> Some true ->
            Js.startsWith "directus_" (name c) = false)
        /\ ~ In (name c) CollectionUtils.foldersToFilter.
Proof.
  intros A name cols config c. unfold CollectionUtils.filterCollections.
  set (s1 := match collections config with
             | Some wanted => filter _ cols
             | None => cols
             end).
  set (s2 := match includeSystemCollections config with
             | Some true => s1
             | _ => filter _ s1
             end).
  assert (H1 : In c s1 <->
               In c cols
               /\ (forall wanted, collections config = Some wanted ->
                                  In (name c) wanted)).
  { unfold s1. destruct (collections config) as [wanted|].
    - rewrite filter_In, inList_In. split; intros [Hc Hw].
      + split; [exact Hc|]. intros w E. now injection E as <-.
      + split; [exact Hc|]. now apply Hw.
    - split; [|now intros [Hc _]].
      intros Hc. split; [exact Hc|]. intros w E. discriminate E. }
  assert (H2 : In c s2 <->
               In c s1
               /\ (includeSystemCollections config <> Some true ->
                   Js.startsWith "directus_" (name c) = false)).
  { unfold s2. destruct (includeSystemCollections config) as [[|]|].
    - split; [|now intros [Hc _]].
      intros Hc. split; [exact Hc|]. intros E. now contradiction E.
    - rewrite filter_In, negb_true_iff. split; intros [Hc Hs].
      + split; [exact Hc|]. intros _. exact Hs.
      + split; [exact Hc|]. apply Hs. discriminate.
    - rewrite filter_In, negb_true_iff. split; intros [Hc Hs].
      + split; [exact Hc|]. intros _. exact Hs.
      + split; [exact Hc|]. apply Hs. discriminate. }
  rewrite filter_In, negb_true_iff, inList_false, H2, H1. tauto.
Qed.

(** X22.  Filtering keeps the order of the list and is idempotent: the result
    is a fixed point of [filterCollections]. *)
Theorem filterCollections_idempotent :
  forall (A : Type) (name : A -> string) (cols : list A)
         (config : ZodirectusConfig),
    CollectionUtils.filterCollections
      name (CollectionUtils.filterCollections name cols config) config
    = CollectionUtils.filterCollections name cols config.
Proof.
  intros A name cols config.
  set (kept := CollectionUtils.filterCollections name cols config).
  assert (K : forall c, In c kept ->
                        In c (CollectionUtils.filterCollections
                                name cols config)) by auto.
  unfold CollectionUtils.filterCollections at 1.
  assert (K1 : match collections config with
               | Some wanted =>
                   filter (fun c => Js.inList (name c) wanted) kept
               | None => kept
               end = kept).
  { destruct (collections config) as [wanted|] eqn:E; [|reflexivity].
    apply filter_all. intros c Hc. apply K, filterCollections_keeps in Hc.
    destruct Hc as [_ [Hw _]]. apply inList_In. now apply Hw. }
  rewrite K1.
  assert (K2 : match includeSystemCollections config with
               | Some true => kept
               | _ => filter (fun c => negb (Js.startsWith "directus_"
                                                           (name c)))
                             kept
               end = kept).
  { assert (F : includeSystemCollections config <> Some true ->
                filter (fun c => negb (Js.startsWith "directus_" (name c)))
                       kept = kept).
    { intros Hn. apply filter_all. intros c Hc.
      apply K, filterCollections_keeps in Hc.
      destruct Hc as [_ [_ [Hs _]]]. now rewrite (Hs Hn). }
    destruct (includeSystemCollections config) as [[|]|];
      [reflexivity | |]; apply F; discriminate. }
  rewrite K2. apply filter_all. intros c Hc.
  apply K, filterCollections_keeps in Hc.
  destruct Hc as [_ [_ [_ Hf]]]. apply negb_true_iff.
  now apply inList_false.
Qed.

(** ** The shared file definitions *)

Section FileSchemaFacts.
Import Js FileSchemaUtils.

Ltac literal d v :=
  destruct (String.eqb d v) eqn:?;
  [ match goal with
    | H : String.eqb d v = true |- _ => apply String.eqb_eq in H; subst d
    end;
    vm_compute; repeat split; intros; try reflexivity; try discriminate
  | ].

(** X25.  The validator and the interface of the shared file definitions
    agree on the kind of every data type: the interface says [string],
    [number], [boolean] or [any] exactly when the validator is a string, a
    number, a boolean or the unconstrained validator. *)
Theorem file_schema_and_interface_agree :
  forall (dataType : string),
    (tsTypeOf dataType = "string"
     <-> String.prefix "z.string()" (zodTypeOf dataType) = true)
    /\ (tsTypeOf dataType = "number"
        <-> String.prefix "z.number()" (zodTypeOf dataType) = true)
    /\ (tsTypeOf dataType = "boolean" <-> zodTypeOf dataType = "z.boolean()")
    /\ (tsTypeOf dataType = "any" <-> zodTypeOf dataType = "z.any()").
Proof.
  intros d.
  literal d "uuid". literal d "varchar". literal d "text".
  literal d "string". literal d "character varying".
  literal d "integer". literal d "int". literal d "int4".
  literal d "bigint". literal d "int8".
  literal d "decimal". literal d "numeric". literal d "float".
  literal d "real". literal d "boolean". literal d "bool".
  literal d "date". literal d "datetime". literal d "timestamp".
  literal d "timestamptz". literal d "time".
  literal d "json". literal d "jsonb".
  unfold tsTypeOf, zodTypeOf, inList, existsb.
  repeat match goal with
         | H : String.eqb d _ = false |- _ => rewrite H; clear H
         end.
  vm_compute. repeat split; intros; try reflexivity; try discriminate.
Qed.

End FileSchemaFacts.

(** X26.  The modifiers of a field of the shared file definitions, from
    the two flags of its [schema].  A nullable column gets [.nullable()]
    and no other modifier, and no mark in the interface; a primary key that
    is not nullable gets nothing; a column that is neither, or a field
    without [schema], gets [.optional()] and the mark [?]. *)
Theorem file_schema_modifiers :
  forall (name type : string) (s : option FileColumn.schema_t),
    FileSchemaUtils.schemaEntry
      {| FileColumn.field := name; FileColumn.type := type;
         FileColumn.schema := s |}
    = "    " ++ name ++ ": "
      ++ FileSchemaUtils.zodTypeOf
           (match s with
            | Some x => Js.orElse (FileColumn.data_type x) type
            | None => type
            end)
      ++ match s with
         | Some x =>
             if FileColumn.is_nullable x then ".nullable()"
             else if FileColumn.is_primary_key x then ""
             else ".optional()"
         | None => ".optional()"
         end
    /\ FileSchemaUtils.interfaceEntry
         {| FileColumn.field := name; FileColumn.type := type;
            FileColumn.schema := s |}
       = "  " ++ name
         ++ match s with
            | Some x =>
                if FileColumn.is_nullable x then ": "
                else if FileColumn.is_primary_key x then ": "
                else "?: "
            | None => "?: "
            end
         ++ FileSchemaUtils.tsTypeOf
              (match s with
               | Some x => Js.orElse (FileColumn.data_type x) type
               | None => type
               end).
Proof.
  intros name type s.
  unfold FileSchemaUtils.schemaEntry, FileSchemaUtils.interfaceEntry,
    FileSchemaUtils.isNullable, FileSchemaUtils.isOptional,
    FileSchemaUtils.dataType.
  cbn [FileColumn.field FileColumn.type FileColumn.schema].
  destruct s as [[d n p]|]; cbn [FileColumn.data_type FileColumn.is_nullable
                                 FileColumn.is_primary_key].
  - destruct n, p; cbn [negb andb]; split;
      rewrite ?str_app_nil_r; reflexivity.
  - split; reflexivity.
Qed.

(** The four cases, on the columns of the file table. *)
Example file_schema_modifiers_cases :
  FileSchemaUtils.generateFileSchemaFields
    [ {| FileColumn.field := "id"; FileColumn.type := "uuid";
         FileColumn.schema :=
           Some {| FileColumn.data_type := "uuid";
                   FileColumn.is_nullable := false;
                   FileColumn.is_primary_key := true |} |};
      {| FileColumn.field := "title"; FileColumn.type := "string";
         FileColumn.schema :=
           Some {| FileColumn.data_type := "varchar";
                   FileColumn.is_nullable := true;
                   FileColumn.is_primary_key := false |} |};
      {| FileColumn.field := "storage"; FileColumn.type := "string";
         FileColumn.schema :=
           Some {| FileColumn.data_type := "varchar";
                   FileColumn.is_nullable := false;
                   FileColumn.is_primary_key := false |} |};
      {| FileColumn.field := "width"; FileColumn.type := "integer";
         FileColumn.schema := None |} ]
  = "    id: z.string().uuid()," ++ nl
    ++ "    title: z.string().nullable()," ++ nl
    ++ "    storage: z.string().optional()," ++ nl
    ++ "    width: z.number().int().optional()"
  /\ FileSchemaUtils.generateFileInterfaceFields
       [ {| FileColumn.field := "id"; FileColumn.type := "uuid";
            FileColumn.schema :=
              Some {| FileColumn.data_type := "uuid";
                      FileColumn.is_nullable := false;
                      FileColumn.is_primary_key := true |} |};
         {| FileColumn.field := "title"; FileColumn.type := "string";
            FileColumn.schema :=
              Some {| FileColumn.data_type := "varchar";
                      FileColumn.is_nullable := true;
                      FileColumn.is_primary_key := false |} |};
         {| FileColumn.field := "storage"; FileColumn.type := "string";
            FileColumn.schema :=
              Some {| FileColumn.data_type := "varchar";
                      FileColumn.is_nullable := false;
                      FileColumn.is_primary_key := false |} |};
         {| FileColumn.field := "width"; FileColumn.type := "integer";
            FileColumn.schema := None |} ]
     = "  id: string;" ++ nl
       ++ "  title: string;" ++ nl
       ++ "  storage?: string;" ++ nl
       ++ "  width?: number".
Proof. vm_compute. split; reflexivity. Qed.

(** ** The shared helpers and the emitters' own predicates *)

(** X29.  The kinds of [FieldUtils] against the private predicates of the two
    emitters: File and autocomplete are the same tests; a date/time field of
    [FieldUtils] is one for the emitters, and a tag field of the emitters is
    one for [FieldUtils]; for radio, dropdown, checkbox tree and repeater
    the two sides test different interface names, and no field is of that
    kind for both. *)
Theorem shared_and_private_kinds :
  forall (f : DirectusField),
    FieldUtilsKinds.isFileField f = FieldKinds.isFileField f
    /\ FieldUtilsKinds.isAutocompleteField f
       = FieldKinds.isAutocompleteField f
    /\ (FieldUtilsKinds.isDateTimeField f = true ->
        FieldKinds.isDateTimeField f = true)
    /\ (FieldKinds.isTagField f = true ->
        FieldUtilsKinds.isTagField f = true)
    /\ FieldUtilsKinds.isRadioButtonField f
       && FieldKinds.isRadioButtonField f = false
    /\ FieldUtilsKinds.isDropdownMultipleField f
       && FieldKinds.isDropdownMultipleField f = false
    /\ FieldUtilsKinds.isCheckboxTreeField f
       && FieldKinds.isCheckboxTreeField f = false
    /\ FieldUtilsKinds.isRepeaterField f
       && FieldKinds.isRepeaterField f = false.
Proof.
  intros f.
  assert (X : forall a b : string,
             a <> b ->
             String.eqb (Field.interface_ f) a
             && String.eqb (Field.interface_ f) b = false).
  { intros a b Hab.
    destruct (String.eqb (Field.interface_ f) a) eqn:Ea; [|reflexivity].
    apply String.eqb_eq in Ea. rewrite Ea. simpl.
    now apply String.eqb_neq. }
  split; [reflexivity|]. split; [reflexivity|]. split; [|split].
  - unfold FieldUtilsKinds.isDateTimeField, FieldKinds.isDateTimeField.
    intros H.
    destruct (String.eqb (Field.directusType f) "date") eqn:E1;
      [now rewrite !orb_true_r|].
    destruct (String.eqb (Field.directusType f) "datetime") eqn:E2;
      [now rewrite !orb_true_r|].
    destruct (String.eqb (Field.directusType f) "time") eqn:E3;
      [now rewrite !orb_true_r|].
    discriminate H.
  - unfold FieldKinds.isTagField, FieldUtilsKinds.isTagField.
    intros H. now apply andb_true_iff in H as [_ H].
  - repeat split.
    + apply X. discriminate.
    + apply X. discriminate.
    + apply X. discriminate.
    + unfold FieldUtilsKinds.isRepeaterField, FieldKinds.isRepeaterField.
      destruct (String.eqb (Field.interface_ f) "repeater") eqn:E;
        [|reflexivity].
      apply String.eqb_eq in E. rewrite E. simpl.
      now rewrite andb_false_r.
Qed.

(** X30.  The three copies of [getFieldsToOmitForCreate]: the helpers of
    [FieldUtils] and [CollectionUtils] return the same list, with "id" in
    front exactly when [hasIdField] is true; the copy of the emitters
    returns the list of the helpers for [hasIdField] true, whatever flag it
    is given. *)
Theorem create_omission_helpers :
  forall (fs : list DirectusField) (hasIdField : bool),
    CollectionUtilsCreate.getFieldsToOmitForCreate field fs hasIdField
    = FieldUtilsKinds.getFieldsToOmitForCreate fs hasIdField
    /\ FieldUtilsKinds.getFieldsToOmitForCreate fs true
       = "id" :: FieldUtilsKinds.getFieldsToOmitForCreate fs false
    /\ (In "id" (FieldUtilsKinds.getFieldsToOmitForCreate fs hasIdField)
        <-> hasIdField = true)
    /\ FieldKinds.getFieldsToOmitForCreate fs hasIdField
       = FieldUtilsKinds.getFieldsToOmitForCreate fs true.
Proof.
  intros fs h.
  unfold CollectionUtilsCreate.getFieldsToOmitForCreate,
    FieldUtilsKinds.getFieldsToOmitForCreate,
    FieldKinds.getFieldsToOmitForCreate, FieldKinds.systemFields,
    FieldKinds.hasField.
  simpl fold_left. simpl filter.
  destruct (existsb (fun f => String.eqb (field f) "user_created") fs);
    destruct (existsb (fun f => String.eqb (field f) "date_created") fs);
    destruct (existsb (fun f => String.eqb (field f) "user_updated") fs);
    destruct (existsb (fun f => String.eqb (field f) "date_updated") fs);
    destruct h; simpl;
    (split; [reflexivity|]); (split; [reflexivity|]);
    (split; [|reflexivity]);
    (split; [intros H; try reflexivity;
             repeat (destruct H as [H|H]; [discriminate H|]);
             contradiction
            | intros H; try discriminate H; now left]).
Qed.

(** ** The shared resolver *)

Section ResolverFacts.
Import Js RelationshipUtils.

Lemma find_some_pred {A : Type} (p : A -> bool) (l : list A) (x : A) :
  List.find p l = Some x -> p x = true.
Proof. intros H. now apply find_some in H as [_ H]. Qed.

(** A name taken from the relationship records is never the collection
    the search was made for. *)
Lemma fromRelationships_other (relationships : list Relationship.t)
      (collectionName : option string) (fieldName r : string) :
  fromRelationships relationships collectionName fieldName = Some r ->
  collectionName <> Some r.
Proof.
  unfold fromRelationships.
  destruct (0 <? List.length relationships)%nat; [|discriminate].
  destruct (List.find _ relationships) as [m|] eqn:F1.
  { apply find_some_pred in F1. apply andb_true_iff in F1 as [_ F1].
    intros E Hc. rewrite Hc, E in F1. simpl in F1.
    now rewrite String.eqb_refl in F1. }
  clear F1.
  destruct (List.find _ relationships) as [m|] eqn:F2.
  { apply find_some_pred in F2. apply andb_true_iff in F2 as [_ F2].
    intros E Hc. rewrite Hc, E in F2. simpl in F2.
    now rewrite String.eqb_refl in F2. }
  clear F2.
  destruct (List.find _ relationships) as [m|] eqn:F3; [|discriminate].
  apply find_some_pred in F3. apply andb_true_iff in F3 as [_ F3].
  destruct (sameValue (Relationship.one_collection m) collectionName)
    eqn:S1; simpl in F3.
  - intros E Hc. rewrite Hc, E in F3. simpl in F3.
    now rewrite String.eqb_refl in F3.
  - intros E Hc. rewrite Hc, E in S1. simpl in S1.
    now rewrite String.eqb_refl in S1.
Qed.

End ResolverFacts.

(** X27.  The relationship records are read for the fields tagged "m2m" only:
    for any other field the resolver returns the same answer whatever the
    records are. *)
Theorem resolver_reads_records_for_m2m_only :
  forall (relationships relationships' : list Relationship.t)
         (f : DirectusField),
    Js.inList "m2m" (Field.special f) = false ->
    RelationshipUtils.getRelatedCollectionName relationships f
    = RelationshipUtils.getRelatedCollectionName relationships' f.
Proof.
  intros rels rels' f H.
  unfold RelationshipUtils.getRelatedCollectionName,
    RelationshipUtils.junctionName.
  now rewrite H.
Qed.

Lemma resolver_reads_records_for_m2m_only_witness :
  RelationshipUtils.getRelatedCollectionName
    [ {| Relationship.one_collection := Some "test_table";
         Relationship.one_field := Some "author";
         Relationship.many_collection := Some "users";
         Relationship.many_field := None;
         Relationship.junction_collection := None |} ]
    (mockField "author" "uuid" (Some ["o2m"]) None)
  = RelationshipUtils.getRelatedCollectionName
      [] (mockField "author" "uuid" (Some ["o2m"]) None).
Proof.
  apply (resolver_reads_records_for_m2m_only _ []). reflexivity.
Defined.

(** X28.  A field tagged "m2m" is resolved to its own collection only when
    one of its hints (the foreign key table or an entry of its options)
    names that collection: the search through the relationship records never
    returns the collection of the field. *)
Theorem resolver_self_reference_needs_hint :
  forall (relationships : list Relationship.t) (f : DirectusField)
         (m : FieldMeta.t),
    meta f = Some m ->
    Js.inList "m2m" (Field.special f) = true ->
    RelationshipUtils.getRelatedCollectionName relationships f
    = Some (FieldMeta.collection m) ->
    In (Some (FieldMeta.collection m)) (RelationshipUtils.hints f).
Proof.
  intros rels f m Hm H2 H.
  unfold RelationshipUtils.getRelatedCollectionName,
    RelationshipUtils.junctionName, RelationshipUtils.manyToManyName in H.
  unfold RelationshipUtils.hints.
  rewrite H2 in H. simpl orb in H. cbv iota in H.
  destruct (Js.inList "m2o" (Field.special f)
            && Field.hasForeignKeyTable f).
  { rewrite <- H. now left. }
  destruct (RelationshipUtils.given
              (Options.junction_table (Field.options f))).
  { rewrite <- H. right. now left. }
  destruct (RelationshipUtils.given
              (Options.related_collection (Field.options f))).
  { rewrite <- H. right. right. now left. }
  destruct (RelationshipUtils.given
              (Options.junction_collection (Field.options f))).
  { rewrite <- H. do 3 right. now left. }
  destruct (RelationshipUtils.given
              (Options.collection (Field.options f))).
  { rewrite <- H. do 4 right. now left. }
  destruct (RelationshipUtils.given
              (Options.many_collection (Field.options f))).
  { rewrite <- H. do 5 right. now left. }
  destruct (RelationshipUtils.given
              (Options.one_collection (Field.options f))).
  { rewrite <- H. do 6 right. now left. }
  exfalso. apply fromRelationships_other in H. apply H.
  unfold RelationshipUtils.collectionOf. now rewrite Hm.
Qed.

Lemma resolver_self_reference_needs_hint_witness :
  In (Some "posts") (RelationshipUtils.hints relatedPosts).
Proof.
  apply (resolver_self_reference_needs_hint
           [] relatedPosts
           {| FieldMeta.collection := "posts";
              FieldMeta.special := Some ["m2m"];
              FieldMeta.interface := Some "list-m2m";
              FieldMeta.options := FieldMeta.options
                                     match meta relatedPosts with
                                     | Some m => m
                                     | None =>
                                         {| FieldMeta.collection := "";
                                            FieldMeta.special := None;
                                            FieldMeta.interface := None;
                                            FieldMeta.options := None;
                                            FieldMeta.required := false |}
                                     end;
              FieldMeta.required := false |});
    reflexivity.
Defined.

(** ** The content of a written file *)

Section FileContentFacts.
Import Js DependencyUtils ImportUtils FileWriterUtils.

Lemma includes_prefix (pat s : string) :
  String.prefix pat s = true -> includes pat s = true.
Proof.
  intros H. destruct s as [|c s].
  - destruct pat; [reflexivity | discriminate H].
  - cbn [includes]. now rewrite H.
Qed.

End FileContentFacts.

(** X12.  The layout of a file written for an artifact with a validator: the
    import of the validator library comes first, then the import of the
    shared file definitions if any, then the imports of the related
    entities, an empty line, the validator text, an empty line, and the type
    text if there is one. *)
Theorem file_content_layout :
  forall (result : GeneratedSchema.t) (results : list GeneratedSchema.t)
         (cycles : list (list string)) (isSystemCollection : bool)
         (schema imports : string),
    DependencyUtils.textOf (GeneratedSchema.schema result) = Some schema ->
    ImportUtils.generateImportStatements
      result results cycles isSystemCollection = Some imports ->
    FileWriterUtils.generateFileContent
      result results cycles isSystemCollection
    = Some ("import { z } from 'zod';" ++ nl
            ++ ImportUtils.generateFileSchemaImport result isSystemCollection
            ++ imports ++ nl
            ++ schema ++ nl ++ nl
            ++ match DependencyUtils.textOf (GeneratedSchema.type result)
               with
               | Some type => type ++ nl
               | None => ""
               end).
Proof.
  intros result results cycles sys schema imports Hs Hi.
  unfold FileWriterUtils.generateFileContent,
    FileWriterUtils.generateZodImport.
  rewrite Hi, Hs.
  set (fsi := ImportUtils.generateFileSchemaImport result sys).
  rewrite includes_prefix by reflexivity.
  destruct (DependencyUtils.textOf (GeneratedSchema.type result)) as [t|].
  - rewrite !str_app_assoc. reflexivity.
  - rewrite str_app_nil_r, !str_app_assoc. reflexivity.
Qed.

Lemma file_content_layout_witness :
  FileWriterUtils.generateFileContent postByDirectusUser mockResults [] false
  = Some ("import { z } from 'zod';" ++ nl
          ++ ImportUtils.generateFileSchemaImport postByDirectusUser false
          ++ ("import { DrxDirectusUserSchema, type DrsDirectusUser } from './system/directus-users';"
              ++ nl
              ++ "import { DrxUserSchema, type DrsUser } from './users';"
              ++ nl)
          ++ nl
          ++ "export const DrxPostSchema = z.object({ author: DrxDirectusUserSchema.nullable().optional(), editor: DrxUserSchema.optional() });"
          ++ nl ++ nl
          ++ match DependencyUtils.textOf
                     (GeneratedSchema.type postByDirectusUser) with
             | Some type => type ++ nl
             | None => ""
             end).
Proof.
  apply (file_content_layout postByDirectusUser mockResults [] false).
  - reflexivity.
  - vm_compute. reflexivity.
Defined.

(** ** What the type emitter ignores *)

(** X24.  The type emitter does not read the nullability of a column: two
    columns that differ in [is_nullable] only, and that the resolver and the
    Choice stage treat alike, get the same entry of the interface. *)
Theorem field_type_ignores_nullability :
  forall (getRelatedCollectionName : DirectusField -> option string)
         (config : ZodirectusConfig)
         (choiceType : DirectusField -> option string)
         (name type dataType : string) (nullable nullable' : bool)
         (foreignKeyTable : option string) (m : option FieldMeta.t),
    let f :=
      {| field := name; type := type;
         schema := Some {| FieldSchema.data_type := dataType;
                           FieldSchema.is_nullable := nullable;
                           FieldSchema.foreign_key_table :=
                             foreignKeyTable |};
         meta := m |} in
    let f' :=
      {| field := name; type := type;
         schema := Some {| FieldSchema.data_type := dataType;
                           FieldSchema.is_nullable := nullable';
                           FieldSchema.foreign_key_table :=
                             foreignKeyTable |};
         meta := m |} in
    getRelatedCollectionName f = getRelatedCollectionName f' ->
    choiceType f = choiceType f' ->
    TypeGenerator.generateFieldType
      getRelatedCollectionName config choiceType f
    = TypeGenerator.generateFieldType
        getRelatedCollectionName config choiceType f'.
Proof.
  intros related config choice name type dataType n n' fk m f f' Hr Hc.
  unfold TypeGenerator.generateFieldType, TypeGenerator.getTypeScriptType,
    TypeGenerator.relationType.
  rewrite Hr, Hc. reflexivity.
Qed.

Lemma field_type_ignores_nullability_witness :
  TypeGenerator.generateFieldType
    noRelation plainConfig noChoice (plainColumn "title" "varchar" true)
  = TypeGenerator.generateFieldType
      noRelation plainConfig noChoice (plainColumn "title" "varchar" false).
Proof.
  apply (field_type_ignores_nullability
           noRelation plainConfig noChoice "title" "varchar" "varchar"
           true false None None);
    reflexivity.
Defined.

(** ** Reference tokens: from the validator name back to the entity *)

Section TokenFacts.
Import Js DependencyUtils.

Lemma matchAll_skip (matchLen : string -> option nat) (a b : string) :
  matchAll matchLen (String.length a) (a ++ b) = matchAll matchLen 0 b.
Proof.
  induction a as [|c a IH]; simpl; [|exact IH].
  destruct b; reflexivity.
Qed.

Lemma matchAll_hit (matchLen : string -> option nat) (c : ascii)
      (r : string) (n : nat) :
  matchLen (String c r) = Some (S n) ->
  matchAll matchLen 0 (String c r)
  = substring 0 (S n) (String c r) :: matchAll matchLen n r.
Proof. intros H. cbn [matchAll]. now rewrite H. Qed.

(** Behind the letters of a name, the word "Schema" and a character that
    is not a letter, the greedy scan stops at the end of that word. *)
Lemma lettersThenSchema_token (rest : string) :
  match rest with
  | EmptyString => true
  | String c _ => negb (isLetter c)
  end = true ->
  forall letters,
    allStr isLetter letters = true ->
    lettersThenSchema (letters ++ "Schema" ++ rest)
    = Some (String.length letters + 6).
Proof.
  intros Hrest.
  assert (R : lettersThenSchema rest = None).
  { destruct rest as [|c r]; [reflexivity|].
    apply negb_true_iff in Hrest.
    cbn [lettersThenSchema]. rewrite Hrest.
    destruct c as [[] [] [] [] [] [] [] []]; try reflexivity;
      discriminate Hrest. }
  induction letters as [|c l IH]; intros Hl.
  - simpl. now rewrite R, prefix_nil.
  - simpl in Hl. apply andb_true_iff in Hl as [Hc Hl].
    change (lettersThenSchema (String c (l ++ "Schema" ++ rest))
            = Some (S (String.length l + 6))).
    cbn [lettersThenSchema]. now rewrite Hc, (IH Hl).
Qed.

Lemma schemaRefLen_token (u : ascii) (letters rest : string) :
  isUpper u = true -> allStr isLetter letters = true ->
  match rest with
  | EmptyString => true
  | String c _ => negb (isLetter c)
  end = true ->
  schemaRefLen ("Drx" ++ String u letters ++ "Schema" ++ rest)
  = Some (4 + (String.length letters + 6)).
Proof.
  intros Hu Hl Hrest. unfold schemaRefLen.
  change ("Drx" ++ String u letters ++ "Schema" ++ rest)
    with ("Drx" ++ String u (letters ++ "Schema" ++ rest)).
  rewrite prefix_app. simpl drop. cbv iota. rewrite Hu.
  pose proof (lettersThenSchema_token rest Hrest letters Hl) as E.
  simpl in E. now rewrite E.
Qed.

Lemma prefix_Schema_no_border (n : string) :
  n <> "" -> includes "Schema" n = false ->
  String.prefix "Schema" (n ++ "Schema") = false.
Proof.
  intros Hn H.
  destruct n as [|c1 [|c2 [|c3 [|c4 [|c5 [|c6 n]]]]]];
    [congruence| | | | | |];
    cbn [includes String.prefix append] in *;
    repeat match goal with
           | |- context [ascii_dec ?a ?b] =>
               destruct (ascii_dec a b); [subst|]
           | H : context [ascii_dec ?a ?b] |- _ =>
               destruct (ascii_dec a b); [subst|]
           end;
    try reflexivity; try discriminate; try congruence;
    try (rewrite prefix_nil in H; discriminate H).
Qed.

Lemma replaceFirst_Schema_at_end (n : string) :
  includes "Schema" n = false ->
  replaceFirst "Schema" "" (n ++ "Schema") = n.
Proof.
  induction n as [|c n IH]; intros H; [reflexivity|].
  assert (P : String.prefix "Schema" (String c n ++ "Schema") = false)
    by (apply prefix_Schema_no_border; [discriminate | exact H]).
  change (String c n ++ "Schema") with (String c (n ++ "Schema")) in *.
  cbn [replaceFirst]. rewrite P. f_equal. apply IH.
  cbn [includes] in H.
  destruct (String.prefix "Schema" (String c n)); [discriminate H|exact H].
Qed.

Lemma replaceFirst_prefix (pat rep s : string) :
  String.prefix pat s = true ->
  replaceFirst pat rep s = rep ++ drop (String.length pat) s.
Proof.
  intros H. destruct s as [|c s].
  - destruct pat; [reflexivity | discriminate H].
  - cbn [replaceFirst]. now rewrite H.
Qed.

Lemma schemaRefName_token (name : string) :
  includes "Schema" name = false ->
  schemaRefName ("Drx" ++ name ++ "Schema") = name.
Proof.
  intros H. unfold schemaRefName.
  rewrite (replaceFirst_prefix "Drx" "" _ (prefix_app "Drx" _)).
  rewrite drop_app.
  now apply replaceFirst_Schema_at_end.
Qed.

End TokenFacts.

(** X7.  The scan of [buildDependencyGraph] reads back the name the emitter
    wrote: in front of a character that is not a letter, the validator name
    "Drx", [name], "Schema" of an entity whose singular name is a capital
    followed by letters, without the word "Schema" in it, is one token, and
    the name recovered from it is [name]; the scan goes on behind the token. *)
Theorem schema_reference_round_trip :
  forall (u : ascii) (letters rest : string),
    Js.isUpper u = true ->
    Js.allStr Js.isLetter letters = true ->
    Js.includes "Schema" (String u letters) = false ->
    match rest with
    | EmptyString => true
    | String c _ => negb (Js.isLetter c)
    end = true ->
    map DependencyUtils.schemaRefName
        (DependencyUtils.schemaMatches
           ("Drx" ++ String u letters ++ "Schema" ++ rest))
    = String u letters
      :: map DependencyUtils.schemaRefName
             (DependencyUtils.schemaMatches rest).
Proof.
  intros u letters rest Hu Hl Hn Hrest.
  unfold DependencyUtils.schemaMatches.
  set (tail := String "r" (String "x" (String u (letters ++ "Schema")))).
  assert (E : "Drx" ++ String u letters ++ "Schema" ++ rest
              = String "D" (tail ++ rest)).
  { unfold tail. simpl. now rewrite str_app_assoc. }
  assert (L : 4 + (String.length letters + 6) = S (String.length tail)).
  { unfold tail. simpl. rewrite str_length_app. simpl. lia. }
  pose proof (schemaRefLen_token u letters rest Hu Hl Hrest) as M.
  rewrite E, L in M. rewrite E.
  rewrite (matchAll_hit _ _ _ _ M), matchAll_skip.
  change (String "D" (tail ++ rest)) with (String "D" tail ++ rest).
  change (S (String.length tail)) with (String.length (String "D" tail)).
  rewrite substring_0_app. simpl map. f_equal.
  change (String "D" tail) with ("Drx" ++ String u letters ++ "Schema").
  now apply schemaRefName_token.
Qed.

Lemma schema_reference_round_trip_witness :
  map DependencyUtils.schemaRefName
      (DependencyUtils.schemaMatches
         ("Drx" ++ "User" ++ "Schema" ++ ".nullable().optional()"))
  = "User"
    :: map DependencyUtils.schemaRefName
           (DependencyUtils.schemaMatches ".nullable().optional()").
Proof.
  apply (schema_reference_round_trip "U" "ser" ".nullable().optional()");
    reflexivity.
Defined.

(** ** Where the generator core fails, and where it finds nothing *)

Section FailureFacts.
Import Js DependencyUtils.

Lemma buildFrom_None (results : list GeneratedSchema.t) :
  forall g0,
    buildFrom g0 results = None
    <-> exists r, In r results
                  /\ StringUtils.singularName
                       (GeneratedSchema.collectionName r) = None.
Proof.
  induction results as [|r results IH]; simpl; intros g0.
  - split; [discriminate | intros [r [[] _]]].
  - destruct (StringUtils.singularName (GeneratedSchema.collectionName r))
      as [current|] eqn:E.
    + assert (X : (exists r', In r' results
                              /\ StringUtils.singularName
                                   (GeneratedSchema.collectionName r')
                                 = None)
                  <-> exists r', (r = r' \/ In r' results)
                                 /\ StringUtils.singularName
                                      (GeneratedSchema.collectionName r')
                                    = None).
      { split.
        - intros [r' [Hin Hn]]. exists r'. auto.
        - intros [r' [[<-|Hin] Hn]]; [congruence|]. exists r'. auto. }
      rewrite <- X.
      destruct (dependenciesOf current r); apply IH.
    + split; [|reflexivity]. intros _. exists r. auto.
Qed.

End FailureFacts.

(** X6.  [buildDependencyGraph] fails exactly when the singular name of one
    of the collections cannot be derived, that is when the Pascal-case name
    of one of them is, up to case, the word "constructor". *)
Theorem buildDependencyGraph_fails_iff :
  forall (results : list GeneratedSchema.t),
    DependencyUtils.buildDependencyGraph results = None
    <-> exists r,
          In r results
          /\ Js.toLowerCase
               (StringUtils.toPascalCase (GeneratedSchema.collectionName r))
             = "constructor".
Proof.
  intros results. unfold DependencyUtils.buildDependencyGraph.
  rewrite buildFrom_None. split; intros [r [Hin H]]; exists r;
    (split; [exact Hin|]).
  - now apply singularName_None_constructor.
  - unfold StringUtils.singularName. now apply toSingular_constructor.
Qed.

(** X23.  [generateFieldSchema] fails only on a name: if it does not
    return an entry for a field, then the field is resolved to a related
    collection by [getRelatedCollectionName], and no singular name can be
    derived from the name of that collection (without the prefix
    "directus_" for a system collection). *)
Theorem generateFieldSchema_fails_on_names_only :
  forall (getRelatedCollectionName : DirectusField -> option string)
         (config : ZodirectusConfig)
         (choiceZodType : DirectusField -> option string)
         (f : DirectusField),
    ZodGenerator.generateFieldSchema
      getRelatedCollectionName config choiceZodType f = None ->
    exists related,
      getRelatedCollectionName f = Some related
      /\ StringUtils.singularName
           (if Js.startsWith "directus_" related
            then Js.replaceFirst "directus_" "" related
            else related) = None.
Proof.
  intros related config choice f Hf.
  unfold ZodGenerator.generateFieldSchema in Hf.
  destruct (ZodGenerator.getZodType related config choice f) eqn:Z;
    [discriminate|].
  clear Hf. unfold ZodGenerator.getZodType in Z.
  repeat match type of Z with
         | (if ?b then _ else _) = None => destruct b; [discriminate Z|]
         end.
  destruct (ZodGenerator.relationZodType related f) as [[t|]|] eqn:R;
    [discriminate Z | destruct (choice f); discriminate Z |].
  clear Z. unfold ZodGenerator.relationZodType in R.
  destruct (FieldKinds.isRelationField f); [|discriminate R].
  destruct (related f) as [rel|]; [|discriminate R].
  exists rel. split; [reflexivity|].
  destruct (Js.truthy rel); [|discriminate R].
  unfold ZodGenerator.relatedSchemaNameOf, ZodGenerator.selfSchemaNameOf in R.
  destruct (Js.startsWith "directus_" rel).
  - destruct (StringUtils.singularName
                (Js.replaceFirst "directus_" "" rel)); [|reflexivity].
    exfalso.
    repeat match type of R with
           | (if ?b then _ else _) = None => destruct b
           end; discriminate R.
  - destruct (StringUtils.singularName rel); [|reflexivity].
    exfalso.
    repeat match type of R with
           | (if ?b then _ else _) = None => destruct b
           end; discriminate R.
Qed.

Lemma generateFieldSchema_fails_on_names_only_witness :
  exists related,
    toConstructor ownerField = Some related
    /\ StringUtils.singularName
         (if Js.startsWith "directus_" related
          then Js.replaceFirst "directus_" "" related
          else related) = None.
Proof.
  apply (generateFieldSchema_fails_on_names_only
           toConstructor plainConfig noChoice ownerField).
  vm_compute. reflexivity.
Defined.

(** X3.  On a graph without cycle the traversal returns the empty list: where
    no walk along the dependency sets comes back to its first name, nothing
    is recorded. *)
Theorem acyclic_graph_has_no_cycle :
  forall (graph : DependencyUtils.Graph),
    (forall x mid, GraphWalks.isWalk graph (x :: mid ++ [x])%list = false) ->
    DependencyUtils.detectCircularDependencies graph = Some [].
Proof.
  intros graph H.
  destruct (detectCircularDependencies_total graph) as [cycles E].
  rewrite E. f_equal. destruct cycles as [|c cycles]; [reflexivity|].
  exfalso.
  unfold DependencyUtils.detectCircularDependencies,
    DependencyUtils.detectWith in E.
  destruct (DependencyUtils.forEach _ _ _) as [st|] eqn:Hloop;
    [|discriminate].
  injection E as E.
  assert (S : GraphWalks.SimpleCycle graph c).
  { apply (roots_sound graph _ _ _ _ WF_initial Hloop).
    - intros c' [].
    - rewrite E. now left. }
  destruct S as [[x [mid [-> _]]] W]. rewrite H in W. discriminate W.
Qed.

Lemma acyclic_graph_has_no_cycle_witness :
  DependencyUtils.detectCircularDependencies postUserGraph = Some [].
Proof.
  apply (acyclic_graph_has_no_cycle postUserGraph).
  intros x mid. unfold postUserGraph.
  destruct mid as [|y mid]; simpl;
    unfold DependencyUtils.neighbors; simpl.
  - destruct (String.eqb x "Post") eqn:E; [|reflexivity].
    apply String.eqb_eq in E. subst x. reflexivity.
  - destruct (String.eqb x "Post") eqn:E; [|reflexivity].
    simpl. destruct (String.eqb y "User") eqn:F; [|reflexivity].
    apply String.eqb_eq in F. subst y.
    destruct mid; reflexivity.
Defined.

(** ** The graph of the pipeline and its cycles *)

(** X5.  Build, then detect: in the graph [buildDependencyGraph] returns no
    entity depends on itself, so every cycle [detectCircularDependencies]
    records in it passes through two different entities at least. *)
Theorem pipeline_cycles_have_two_entities :
  forall (results : list GeneratedSchema.t) (graph : DependencyUtils.Graph)
         (cycles : list (list string)) (c : list string),
    DependencyUtils.buildDependencyGraph results = Some graph ->
    DependencyUtils.detectCircularDependencies graph = Some cycles ->
    In c cycles ->
    exists x y mid, c = (x :: y :: mid ++ [x])%list /\ x <> y.
Proof.
  intros results graph cycles c Hb Hd Hc.
  unfold DependencyUtils.detectCircularDependencies,
    DependencyUtils.detectWith in Hd.
  destruct (DependencyUtils.forEach _ _ _) as [st|] eqn:Hloop;
    [|discriminate].
  injection Hd as <-.
  assert (S : GraphWalks.SimpleCycle graph c).
  { apply (roots_sound graph _ _ _ _ WF_initial Hloop); [|exact Hc].
    intros c' []. }
  destruct S as [[x [mid [-> Nd]]] W].
  destruct mid as [|y mid].
  - exfalso. simpl in W. rewrite andb_true_r in W. apply inList_In in W.
    unfold DependencyUtils.neighbors in W.
    destruct (DependencyUtils.mapGet x graph) as [deps|] eqn:G;
      [|contradiction].
    apply mapGet_In in G.
    destruct (buildFrom_entries results [] graph Hb x deps G)
      as [[]|[r [_ [_ ->]]]].
    apply dependenciesOf_kept in W.
    unfold DependencyUtils.keepDependency in W.
    rewrite String.eqb_refl in W. simpl in W.
    now rewrite andb_false_r in W.
  - exists x, y, mid. split; [reflexivity|].
    inversion Nd as [|? ? Hx _]; subst. intros ->. apply Hx. now left.
Qed.

Lemma pipeline_cycles_have_two_entities_witness :
  exists x y mid,
    ["Post"; "DirectusUser"; "Post"] = (x :: y :: mid ++ [x])%list
    /\ x <> y.
Proof.
  apply (pipeline_cycles_have_two_entities
           [postByDirectusUser; directusUserWithPosts]
           [("Post", ["DirectusUser"; "User"]);
            ("DirectusUser", ["Post"; "DirectusRole"])]
           [["Post"; "DirectusUser"; "Post"]]).
  - vm_compute. reflexivity.
  - vm_compute. reflexivity.
  - now left.
Defined.
